(** * Frame capture and encode staging of the reel exporter

    A shallow embedding of the export pipeline of the reel generator:

    - [convertRGBAToPNG], [getPixelBuffer], [releasePixelBuffer],
      [getTempCanvas], [releaseTempCanvas], [downsamplePixels] and
      [handleExport] of the application component;
    - [setExportMode] of [PixiCanvas.tsx].

    How the code is read:

    - JavaScript numbers that hold sizes and counts are integers ([Z] or
      [nat]); the two fractional quantities the code compares (the export
      resolution factor and the memory estimate in GiB) are rationals, which
      is exact for the magnitudes involved.  Typed arrays are lists of bytes.
    - Calls that leave the repository (WebGL, the PIXI renderer, the 2D
      canvas, the FFmpeg worker, the allocator) are fields of a [Platform]
      record: total functions that say what the call returns or that it
      throws.  What the HTML standard fixes about one of them, the
      [ImageData] constructor, is the predicate [standardImageData].
    - An [async] function is a computation in the monad [M] of a threaded
      world with exceptions; [await] is sequencing.  The tasks that one
      [Promise.all] joins run one after the other in the order of the array,
      which is the order of the results that [Promise.all] returns.  In the
      browser the tasks of one batch overlap: where a task writes after an
      [await] of its own, as the conversion of a raw frame to PNG does, the
      code does not fix the order of the writes within the batch, and the
      statements about them say which writes occur, not in which order.
    - The world holds the objects of the canvas component, the React state
      the export reads and writes, the two pools, and a log of what leaves
      the function: console warnings and errors, toasts, FFmpeg calls.
      Progress and status messages, [console.log] lines, the per-frame
      [renderer.render] call and [window.gc] change nothing that is modelled
      and are left out.
    - When a task of a batch throws, the tasks after it are not run: in the
      browser they run on, and what they return is dropped with the batch.
      The zero-delay pause of every thirtieth frame is not modelled. *)

From Stdlib Require Import ZArith QArith Qround List Bool String Lia ZifyNat ZifyBool.
From stdpp Require Import base tactics option list.

(* Division and remainder by a known quantity are linear for [lia]. *)
Ltac Zify.zify_post_hook ::= Z.to_euclidean_division_equations.

Local Open Scope Z_scope.

(** ** Bytes and typed arrays *)

Abbreviation byte := Byte.byte.
Abbreviation Uint8Array := (list Byte.byte).

(** [arr.length] *)
Definition len {A} (l : list A) : Z := Z.of_nat (length l).

(** [new Uint8Array(n)] of a size that the allocator grants: [n] zero bytes. *)
Definition zeros (n : Z) : Uint8Array := replicate (Z.to_nat n) Byte.x00.

(** Conversion of a number to an element of a [Uint8Array] (modulo 256). *)
Definition to_uint8 (z : Z) : byte :=
  default Byte.x00 (Byte.of_N (Z.to_N (z mod 256))).

(** ** Errors, console output and outside calls *)

Inductive FileName :=
| FramePng (n : Z)        (* frame<n>.png *)
| RawVideo                (* raw_video.rgba *)
| AudioMp3                (* audio.mp3 *)
| OutputMp4.              (* output.mp4 *)

Inductive Error :=
| EmptyPixelData (width height : Z)
| ImageDataError                       (* new ImageData(...) threw *)
| ToBlobFailed                         (* 'Failed to convert RGBA to PNG' *)
| CanvasError                          (* a 2D canvas call threw *)
| WebGLError
| PixiExtractError                     (* renderer.extract.pixels threw *)
| InvalidPixelDataType
| PixelExtractionFailed (frame : nat)
| FrameCaptureFailed (frame : nat) (cause : Error)
| CanvasNotFound
| PixiAppNotAvailable
| RangeError                           (* allocation or TypedArray.set out of bounds *)
| FFmpegLoadError
| FFmpegWriteError (f : FileName)
| FFmpegExecError
| FFmpegReadError
| FFmpegDeleteError (f : FileName)
| AudioFetchError.

Inductive Warning :=
| PixelSizeMismatch (expected got : Z)
| ResolutionMismatchHint
| WebGLReadFailed (e : Error)
| LargeVideoDetected.

Inductive ToastType := ToastInfo | ToastError | ToastMagic.

(** The quality presets; [settings.exportQuality] itself is a string. *)
Inductive Preset := Fast | Balanced | Quality.

Inductive VideoInput :=
| RawInput (width height : Z)          (* -f rawvideo -pixel_format rgba -video_size WxH -i raw_video.rgba *)
| PngSequence.                         (* -start_number 1 -i frame%d.png *)

Record FFmpegArgs := {
  arg_framerate : Z;
  arg_input : VideoInput;
  arg_audio : option (bool * Preset);  (* -stream_loop flag, bitrate class *)
  arg_codec : Preset
}.

(** What a session does that is visible outside the function: console
    warnings and errors, toasts, calls to the FFmpeg worker, renders. *)
Inductive Event :=
| ConsoleWarn (w : Warning)
| ConsoleError (e : Error)
| Toast (t : ToastType)
| FFLoad
| FFWrite (f : FileName) (data : Uint8Array)
| FFExec (args : FFmpegArgs)
| FFRead (f : FileName)
| FFDelete (f : FileName)
| TextureGCRun
| AppRender
| ExportedVideo (data : Uint8Array)
| ResetScheduled.

(** What [renderer.extract.pixels] hands back, as far as the code probes it. *)
Inductive JsPixels :=
| PxUint8 (bytes : Uint8Array)
| PxClamped (bytes : Uint8Array)
| PxObject (values : list Z)           (* any other object; [Object.values] of it *)
| PxOther.                             (* null, undefined or a primitive *)

Record Platform := {
  (* FFmpeg worker *)
  ffmpeg_load : bool;                                   (* ffmpeg.load() resolves *)
  ffmpeg_writeFile : FileName -> Uint8Array -> bool;    (* ffmpeg.writeFile resolves *)
  ffmpeg_exec : FFmpegArgs -> bool;
  ffmpeg_readFile : FileName -> option Uint8Array;
  ffmpeg_deleteFile : FileName -> bool;
  fetchFile : option Uint8Array;                        (* fetchFile(audio) *)
  (* canvas and WebGL *)
  canvas_width : Z;
  canvas_height : Z;
  canvas_webgl : bool;                                  (* canvas.getContext('webgl2') || ('webgl') *)
  renderer_gl : bool;                                   (* renderer.gl *)
  gl_readPixels : nat -> option (nat -> byte);          (* colour buffer at a frame, or throws *)
  extract_pixels : nat -> option JsPixels;              (* renderer.extract.pixels(stage) at a frame *)
  (* 2D canvas *)
  new_ImageData : Uint8Array -> Z -> Z -> bool;         (* the constructor returns *)
  canvas_toBlob : Uint8Array -> Z -> Z -> Q -> option Uint8Array;
  canvas_resample : Uint8Array -> Z -> Z -> Z -> Z -> option (nat -> byte);
  (* allocator *)
  alloc : Z -> bool                                     (* new Uint8Array(n) returns *)
}.

(** ** Rendering state of PixiCanvas.tsx *)

(** Filters are objects; what matters here is which ones are installed. *)
Definition Filter := nat.

(** A display object with the expando property [_originalVisible]. *)
Record DisplayObject := {
  visible : bool;
  _originalVisible : option bool        (* None: the property is undefined *)
}.

Record Stage := {
  filters : option (list Filter);       (* None: null *)
  _originalFilters : option (option (list Filter))
}.

Record Ticker := {
  started : bool;
  maxFPS : Z;
  minFPS : Z
}.

Record Application := {
  stage : Stage;
  ticker : Ticker;
  textureGC_maxIdle : Z
}.

Record PixiCanvas := {
  appRef : option Application;
  effectsLayerRef : option DisplayObject;
  hazeRef : option DisplayObject;
  grainRef : option DisplayObject;
  backgroundLayerRef : option bool;     (* the layer's cacheAsBitmap *)
  exportModeRef : bool
}.

(** Locals of [handleExport] that are declared before the [try] and read in
    the [finally]. *)
Record Locals := {
  wasPlaying : bool;
  wasTickerRunning : bool;
  pixiApp : bool                         (* pixiApp !== null *)
}.

Record World := {
  pixiCanvasRef : bool;                  (* pixiCanvasRef.current !== null *)
  pixi : PixiCanvas;
  isPlaying : bool;
  exporting : bool;
  ffmpeg_loaded : bool;
  locals : Locals;
  pixelBufferPool : list Uint8Array;
  tempCanvasPool : list (Z * Z);         (* pooled canvases, by width and height *)
  log : list Event
}.

(** Field updates, written out. *)
Definition with_log (f : list Event -> list Event) (w : World) : World :=
  {| pixiCanvasRef := pixiCanvasRef w; pixi := pixi w; isPlaying := isPlaying w; exporting := exporting w;
     ffmpeg_loaded := ffmpeg_loaded w; locals := locals w;
     pixelBufferPool := pixelBufferPool w; tempCanvasPool := tempCanvasPool w;
     log := f (log w) |}.

Definition with_pixi (f : PixiCanvas -> PixiCanvas) (w : World) : World :=
  {| pixiCanvasRef := pixiCanvasRef w; pixi := f (pixi w); isPlaying := isPlaying w; exporting := exporting w;
     ffmpeg_loaded := ffmpeg_loaded w; locals := locals w;
     pixelBufferPool := pixelBufferPool w; tempCanvasPool := tempCanvasPool w;
     log := log w |}.

Definition with_isPlaying (b : bool) (w : World) : World :=
  {| pixiCanvasRef := pixiCanvasRef w; pixi := pixi w; isPlaying := b; exporting := exporting w;
     ffmpeg_loaded := ffmpeg_loaded w; locals := locals w;
     pixelBufferPool := pixelBufferPool w; tempCanvasPool := tempCanvasPool w;
     log := log w |}.

Definition with_exporting (b : bool) (w : World) : World :=
  {| pixiCanvasRef := pixiCanvasRef w; pixi := pixi w; isPlaying := isPlaying w; exporting := b;
     ffmpeg_loaded := ffmpeg_loaded w; locals := locals w;
     pixelBufferPool := pixelBufferPool w; tempCanvasPool := tempCanvasPool w;
     log := log w |}.

Definition with_ffmpeg_loaded (b : bool) (w : World) : World :=
  {| pixiCanvasRef := pixiCanvasRef w; pixi := pixi w; isPlaying := isPlaying w; exporting := exporting w;
     ffmpeg_loaded := b; locals := locals w;
     pixelBufferPool := pixelBufferPool w; tempCanvasPool := tempCanvasPool w;
     log := log w |}.

Definition with_locals (f : Locals -> Locals) (w : World) : World :=
  {| pixiCanvasRef := pixiCanvasRef w; pixi := pixi w; isPlaying := isPlaying w; exporting := exporting w;
     ffmpeg_loaded := ffmpeg_loaded w; locals := f (locals w);
     pixelBufferPool := pixelBufferPool w; tempCanvasPool := tempCanvasPool w;
     log := log w |}.

Definition with_pixelBufferPool (f : list Uint8Array -> list Uint8Array) (w : World) : World :=
  {| pixiCanvasRef := pixiCanvasRef w; pixi := pixi w; isPlaying := isPlaying w; exporting := exporting w;
     ffmpeg_loaded := ffmpeg_loaded w; locals := locals w;
     pixelBufferPool := f (pixelBufferPool w); tempCanvasPool := tempCanvasPool w;
     log := log w |}.

Definition with_tempCanvasPool (f : list (Z * Z) -> list (Z * Z)) (w : World) : World :=
  {| pixiCanvasRef := pixiCanvasRef w; pixi := pixi w; isPlaying := isPlaying w; exporting := exporting w;
     ffmpeg_loaded := ffmpeg_loaded w; locals := locals w;
     pixelBufferPool := pixelBufferPool w; tempCanvasPool := f (tempCanvasPool w);
     log := log w |}.

(** ** The effect monad: a world that is threaded through, and exceptions

    A thrown exception keeps the changes made to the world before it. *)

Definition M (A : Type) : Type := World -> World * (Error + A).

#[global] Instance M_ret : MRet M := fun A a w => (w, inr a).

#[global] Instance M_bind : MBind M := fun A B k m w =>
  match m w with
  | (w', inl e) => (w', inl e)
  | (w', inr a) => k a w'
  end.

Definition throw {A} (e : Error) : M A := fun w => (w, inl e).

(** [try { m } catch (e) { h e }] *)
Definition try_catch {A} (m : M A) (h : Error -> M A) : M A := fun w =>
  match m w with
  | (w', inl e) => h e w'
  | (w', inr a) => (w', inr a)
  end.

(** [try { m } finally { f }]: [f] always runs; the outcome is that of [m]
    unless [f] itself throws. *)
Definition try_finally {A} (m : M A) (f : M unit) : M A := fun w =>
  match m w with
  | (w', r) =>
      match f w' with
      | (w'', inl e) => (w'', inl e)
      | (w'', inr _) => (w'', r)
      end
  end.

Definition get : M World := fun w => (w, inr w).
Definition modify (f : World -> World) : M unit := fun w => (f w, inr tt).
Definition emit (e : Event) : M unit := modify (with_log (fun l => l ++ [e])).
Definition when (b : bool) (m : M unit) : M unit := if b then m else mret tt.

(** A call that resolves or rejects as the platform says. *)
Definition call (ok : bool) (e : Error) : M unit := if ok then mret tt else throw e.
Definition call_val {A} (r : option A) (e : Error) : M A :=
  match r with Some a => mret a | None => throw e end.

(** [for (const x of xs) { f x }], collecting the results. *)
Fixpoint forM {A B} (xs : list A) (f : A -> M B) : M (list B) :=
  match xs with
  | [] => mret []
  | x :: xs' => y ← f x; ys ← forM xs' f; mret (y :: ys)
  end.

(** A loop that carries a value. *)
Fixpoint foldM {A S} (xs : list A) (f : S -> A -> M S) (s : S) : M S :=
  match xs with
  | [] => mret s
  | x :: xs' => s' ← f s x; foldM xs' f s'
  end.

(** ** Export configuration (the [exportConfig] table of [handleExport]) *)

Record ExportConfig := {
  frameRate : nat;
  frameCaptureSize : nat;
  compressionQuality : Q;
  writeBatchSize : nat;
  skipFrameOptimization : bool;
  useRawPixels : bool;
  exportResolution : Q
}.

Definition exportConfig (q : Preset) : ExportConfig :=
  match q with
  | Fast =>
      {| frameRate := 24; frameCaptureSize := 30; compressionQuality := 1 # 2;
         writeBatchSize := 20; skipFrameOptimization := true;
         useRawPixels := true; exportResolution := 3 # 4 |}
  | Balanced =>
      {| frameRate := 30; frameCaptureSize := 20; compressionQuality := 7 # 10;
         writeBatchSize := 15; skipFrameOptimization := false;
         useRawPixels := true; exportResolution := 1 |}
  | Quality =>
      {| frameRate := 30; frameCaptureSize := 10; compressionQuality := 9 # 10;
         writeBatchSize := 8; skipFrameOptimization := false;
         useRawPixels := false; exportResolution := 1 |}
  end.

(** [settings.exportQuality as keyof typeof exportConfig] *)
Definition preset_of_key (key : string) : option Preset :=
  if String.eqb key "fast" then Some Fast
  else if String.eqb key "balanced" then Some Balanced
  else if String.eqb key "quality" then Some Quality
  else None.

(** [exportConfig[settings.exportQuality] || exportConfig.balanced], for the
    three keys of the quality select and for every other key that finds
    nothing in the table.  A key that names a member which the table object
    inherits ([constructor], [toString], ...) finds that member and does
    not fall back; such keys are not covered. *)
Definition config_of_key (key : string) : ExportConfig :=
  exportConfig (default Balanced (preset_of_key key)).

(** The fields of [settings] that the export reads, and whether an audio
    track is loaded ([audio !== null]). *)
Record Settings := {
  exportQuality : string;
  duration : nat;
  audioLoop : bool;
  audio : bool
}.

(** [Math.floor(actualCanvasSize * config.exportResolution)] *)
Definition exportSize (canvasSize : Z) (config : ExportConfig) : Z :=
  Qfloor (inject_Z canvasSize * exportResolution config).

(** [config.exportResolution < 1.0] *)
Definition downsampling (config : ExportConfig) : bool :=
  negb (Qle_bool 1 (exportResolution config)).

Record FrameData := {
  frameData : Uint8Array;
  frameIndex : nat;
  isRawPixels : bool
}.

(** [{ ...frame, frameData: new Uint8Array(0) }] *)
Definition clearFrame (f : FrameData) : FrameData :=
  {| frameData := []; frameIndex := frameIndex f; isRawPixels := isRawPixels f |}.

(** [Math.ceil(a / b)] on counts; with [b = 0] the loop it bounds does not
    run for [a = 0] in the source either. *)
Definition ceil_div (a b : nat) : nat := ((a + b - 1) / b)%nat.

(** What [TypedArray.prototype.set] and [new Uint8ClampedArray(x)] read from
    a value: its indexed bytes.  An object that is no array has none. *)
Definition js_bytes (px : JsPixels) : Uint8Array :=
  match px with
  | PxUint8 l | PxClamped l => l
  | PxObject _ | PxOther => []
  end.

(** [!pixels || pixels.length === 0] *)
Definition js_missing (px : JsPixels) : bool :=
  match px with
  | PxUint8 l | PxClamped l => len l =? 0
  | PxObject _ => false                (* truthy, and its [length] is undefined *)
  | PxOther => true
  end.

Section Pipeline.

Context (p : Platform).

(** *** Memory pools *)

Definition getPixelBuffer (size : Z) : M Uint8Array :=
  w ← get;
  match list_find (fun buffer : Uint8Array => len buffer = size) (pixelBufferPool w) with
  | Some (existingBufferIndex, buffer) =>
      modify (with_pixelBufferPool (delete existingBufferIndex));;
      mret buffer
  | None =>
      call (alloc p size) RangeError;;
      mret (zeros size)
  end.

Definition releasePixelBuffer (buffer : Uint8Array) : M unit :=
  w ← get;
  when (bool_decide (length (pixelBufferPool w) < 10)%nat)
       (modify (with_pixelBufferPool (fun pool => pool ++ [buffer]))).

Definition getTempCanvas (width height : Z) : M (Z * Z) :=
  w ← get;
  match list_find (fun canvas : Z * Z => canvas.1 = width ∧ canvas.2 = height)
                  (tempCanvasPool w) with
  | Some (i, existingCanvas) =>
      modify (with_tempCanvasPool (delete i));;
      mret existingCanvas
  | None => mret (width, height)
  end.

Definition releaseTempCanvas (canvas : Z * Z) : M unit :=
  w ← get;
  when (bool_decide (length (tempCanvasPool w) < 5)%nat)
       (modify (with_tempCanvasPool (fun pool => pool ++ [canvas]))).

(** *** Pixel transcoder *)

Definition convertRGBAToPNG (pixels : Uint8Array) (width height : Z) (quality : Q)
  : M Uint8Array :=
  tempCanvas ← getTempCanvas width height;
  let expectedSize := width * height * 4 in
  if len pixels =? 0 then throw (EmptyPixelData width height)
  else
    when (negb (len pixels =? expectedSize))
         (emit (ConsoleWarn (PixelSizeMismatch expectedSize (len pixels)));;
          emit (ConsoleWarn ResolutionMismatchHint));;
    call (new_ImageData p pixels width height) ImageDataError;;
    blob ← call_val (canvas_toBlob p pixels width height quality) ToBlobFailed;
    releaseTempCanvas tempCanvas;;
    mret blob.

(** [getImageData(0, 0, w, h).data] holds [w * h * 4] bytes. *)
Definition imageDataBytes (content : nat -> byte) (width height : Z) : Uint8Array :=
  content <$> seq 0 (Z.to_nat (width * height * 4)).

Definition downsamplePixels (sourcePixels : Uint8Array)
    (sourceWidth sourceHeight targetWidth targetHeight : Z) : M Uint8Array :=
  sourceCanvas ← getTempCanvas sourceWidth sourceHeight;
  call (new_ImageData p sourcePixels sourceWidth sourceHeight) ImageDataError;;
  targetCanvas ← getTempCanvas targetWidth targetHeight;
  content ← call_val (canvas_resample p sourcePixels sourceWidth sourceHeight
                                      targetWidth targetHeight) CanvasError;
  let result := imageDataBytes content targetWidth targetHeight in
  releaseTempCanvas sourceCanvas;;
  releaseTempCanvas targetCanvas;;
  mret result.

(** *** Frame extraction: the body of one capture task *)

Section Capture.

Context (config : ExportConfig).

Definition actualCanvasWidth : Z := canvas_width p.
Definition actualCanvasHeight : Z := canvas_height p.
Definition exportWidth : Z := exportSize actualCanvasWidth config.
Definition exportHeight : Z := exportSize actualCanvasHeight config.
Definition useWebGLCapture : bool := canvas_webgl p.

(** [gl.readPixels(0, 0, w, h, gl.RGBA, gl.UNSIGNED_BYTE, buffer)] overwrites
    the buffer it is given. *)
Definition readPixels (frameIndex : nat) (buffer : Uint8Array) : M Uint8Array :=
  content ← call_val (gl_readPixels p frameIndex) WebGLError;
  mret (content <$> seq 0 (length buffer)).

(** Method 1: direct WebGL read, downsampled when the export is smaller. *)
Definition captureWebGL (frameIndex : nat) : M JsPixels :=
  let fullPixelCount := actualCanvasWidth * actualCanvasHeight * 4 in
  fullPixelBuffer ← getPixelBuffer fullPixelCount;
  fullPixelBuffer ← readPixels frameIndex fullPixelBuffer;
  if downsampling config then
    pixels ← downsamplePixels fullPixelBuffer actualCanvasWidth actualCanvasHeight
                              exportWidth exportHeight;
    releasePixelBuffer fullPixelBuffer;;
    mret (PxUint8 pixels)
  else mret (PxUint8 fullPixelBuffer).

(** Method 2: the PIXI extraction, with the probing of what came back. *)
Definition capturePixi (frameIndex : nat) : M JsPixels :=
  pixels ← call_val (extract_pixels p frameIndex) PixiExtractError;
  match pixels with
  | PxUint8 _ => mret pixels
  | PxClamped l => mret (PxUint8 l)
  | PxObject values => mret (PxUint8 (to_uint8 <$> values))
  | PxOther => throw InvalidPixelDataType
  end.

Definition extractPixels (frameIndex : nat) : M JsPixels :=
  if renderer_gl p && useWebGLCapture then
    try_catch (captureWebGL frameIndex)
      (fun webglError =>
         emit (ConsoleWarn (WebGLReadFailed webglError));;
         call_val (extract_pixels p frameIndex) PixiExtractError)
  else capturePixi frameIndex.

Definition captureFrame (frameIndex : nat) : M FrameData :=
  try_catch
    (pixels ← extractPixels frameIndex;
     if js_missing pixels then throw (PixelExtractionFailed (frameIndex + 1))
     else
       if useRawPixels config then
         mret {| frameData := js_bytes pixels; frameIndex := frameIndex;
                 isRawPixels := true |}
       else
         frameData ← convertRGBAToPNG (js_bytes pixels) exportWidth exportHeight
                                      (compressionQuality config);
         (if renderer_gl p && useWebGLCapture && downsampling config then mret tt
          else if renderer_gl p && useWebGLCapture then releasePixelBuffer (js_bytes pixels)
          else mret tt);;
         mret {| frameData := frameData; frameIndex := frameIndex;
                 isRawPixels := false |})
    (fun error =>
       emit (ConsoleError error);;
       throw (FrameCaptureFailed (frameIndex + 1) error)).

(** *** Batch scheduler: the capture loop *)

Context (frameCount : nat).

Definition batchSize : nat := Nat.min (frameCaptureSize config) frameCount.
Definition batches : nat := ceil_div frameCount batchSize.

(** The reclamation of old payloads inside the memory-management block. *)
Definition clearOldFrames (batchIndex : nat) (allFrames : list FrameData)
  : list FrameData :=
  let clearIndex := (batchIndex - 6)%nat in
  let clearStartFrame := (clearIndex * batchSize)%nat in
  let clearEndFrame := Nat.min (clearStartFrame + batchSize) (length allFrames) in
  foldl (fun frames i => alter clearFrame i frames) allFrames
        (seq clearStartFrame (clearEndFrame - clearStartFrame)).

Definition captureBatch (allFrames : list FrameData) (batchIndex : nat)
  : M (list FrameData) :=
  let batchStartFrame := (batchIndex * batchSize)%nat in
  let batchEndFrame := Nat.min (batchStartFrame + batchSize) frameCount in
  let currentBatchSize := (batchEndFrame - batchStartFrame)%nat in
  batchResults ← forM (seq batchStartFrame currentBatchSize) captureFrame;
  let allFrames := allFrames ++ batchResults in
  if (batchIndex mod 2 =? 0)%nat && (0 <? batchIndex)%nat then
    emit TextureGCRun;;
    if (6 <? batchIndex)%nat then mret (clearOldFrames batchIndex allFrames)
    else mret allFrames
  else mret allFrames.

Definition captureLoop : M (list FrameData) :=
  foldM (seq 0 batches) captureBatch [].

End Capture.

End Pipeline.

(** ** [setExportMode] (PixiCanvas.tsx) *)

Definition hide (o : DisplayObject) : DisplayObject :=
  {| visible := false; _originalVisible := Some (visible o) |}.

Definition unhide (o : DisplayObject) : DisplayObject :=
  match _originalVisible o with
  | Some v => {| visible := v; _originalVisible := None |}
  | None => o
  end.

Definition enableExportMode (c : PixiCanvas) : PixiCanvas :=
  match appRef c, effectsLayerRef c with
  | Some app, Some effectsLayer =>
      {| appRef := Some
           {| stage := {| filters := None;
                          _originalFilters := Some (filters (stage app)) |};
              ticker := {| started := true; maxFPS := 0; minFPS := 0 |};
              textureGC_maxIdle := textureGC_maxIdle app |};
         effectsLayerRef := Some (hide effectsLayer);
         hazeRef := hide <$> hazeRef c;
         grainRef := hide <$> grainRef c;
         backgroundLayerRef := (fun _ => true) <$> backgroundLayerRef c;
         exportModeRef := true |}
  | _, _ =>
      {| appRef := appRef c; effectsLayerRef := effectsLayerRef c;
         hazeRef := hazeRef c; grainRef := grainRef c;
         backgroundLayerRef := backgroundLayerRef c; exportModeRef := true |}
  end.

Definition restoreFilters (s : Stage) : Stage :=
  match _originalFilters s with
  | Some original => {| filters := original; _originalFilters := None |}
  | None => s
  end.

Definition disableExportMode (c : PixiCanvas) : PixiCanvas :=
  match appRef c, effectsLayerRef c with
  | Some app, Some effectsLayer =>
      {| appRef := Some
           {| stage := restoreFilters (stage app);
              ticker := {| started := true; maxFPS := 0; minFPS := 10 |};
              textureGC_maxIdle := textureGC_maxIdle app |};
         effectsLayerRef := Some (unhide effectsLayer);
         hazeRef := unhide <$> hazeRef c;
         grainRef := unhide <$> grainRef c;
         backgroundLayerRef := (fun _ => false) <$> backgroundLayerRef c;
         exportModeRef := false |}
  | _, _ =>
      {| appRef := appRef c; effectsLayerRef := effectsLayerRef c;
         hazeRef := hazeRef c; grainRef := grainRef c;
         backgroundLayerRef := backgroundLayerRef c; exportModeRef := false |}
  end.

Definition setExportMode_state (enabled : bool) (c : PixiCanvas) : PixiCanvas :=
  if enabled then enableExportMode c else disableExportMode c.

(** The restore branch ends with [appRef.current.render()]. *)
Definition setExportMode (enabled : bool) : M unit :=
  w ← get;
  modify (with_pixi (setExportMode_state enabled));;
  when (negb enabled && bool_decide (is_Some (appRef (pixi w)))
                     && bool_decide (is_Some (effectsLayerRef (pixi w))))
       (emit AppRender).

(** Updates of the application object behind [appRef.current]. *)
Definition with_app (f : Application -> Application) : World -> World :=
  with_pixi (fun c =>
    {| appRef := f <$> appRef c; effectsLayerRef := effectsLayerRef c;
       hazeRef := hazeRef c; grainRef := grainRef c;
       backgroundLayerRef := backgroundLayerRef c; exportModeRef := exportModeRef c |}).

Definition set_started (b : bool) (app : Application) : Application :=
  {| stage := stage app;
     ticker := {| started := b; maxFPS := maxFPS (ticker app); minFPS := minFPS (ticker app) |};
     textureGC_maxIdle := textureGC_maxIdle app |}.

Definition set_maxIdle (n : Z) (app : Application) : Application :=
  {| stage := stage app; ticker := ticker app; textureGC_maxIdle := n |}.

Definition MAX_SAFE_INTEGER : Z := 2 ^ 53 - 1.

(** ** The [finally] block of [handleExport]: the restore step *)

Definition restoreStep : M unit :=
  w ← get;
  when (pixiCanvasRef w)
       (setExportMode false;;
        when (negb (wasTickerRunning (locals w)) && pixiApp (locals w))
             (modify (with_app (set_started false))));;
  when (negb (wasPlaying (locals w))) (modify (with_isPlaying false));;
  emit ResetScheduled.

(** ** Ordering, transport selection and the write stage *)

(** [allFrames.sort((a, b) => a.frameIndex - b.frameIndex)]: a stable sort
    by frame index. *)
Fixpoint insertFrame (f : FrameData) (l : list FrameData) : list FrameData :=
  match l with
  | [] => [f]
  | g :: l' =>
      if (frameIndex f <=? frameIndex g)%nat then f :: g :: l'
      else g :: insertFrame f l'
  end.

Definition sortFrames (l : list FrameData) : list FrameData :=
  foldr insertFrame [] l.

(** [target.set(source, offset)]: throws a RangeError when the source does
    not fit, otherwise overwrites [source.length] bytes from [offset]. *)
Definition typed_set (target source : Uint8Array) (offset : nat) : option Uint8Array :=
  if (offset + length source <=? length target)%nat
  then Some (take offset target ++ source ++ drop (offset + length source) target)
  else None.

(** [allFrames.find(f => f.frameIndex === i)] *)
Definition findFrame (allFrames : list FrameData) (i : nat) : option FrameData :=
  snd <$> list_find (fun f => frameIndex f = i) allFrames.

(** The memory estimate of the raw pipeline, in GiB. *)
Definition totalMemoryGB (framePixelCount : Z) (frameCount : nat) : Q :=
  inject_Z (framePixelCount * Z.of_nat frameCount) / inject_Z (1024 * 1024 * 1024).

(** [totalMemoryGB > 1.5] *)
Definition largeVideo (framePixelCount : Z) (frameCount : nat) : bool :=
  negb (Qle_bool (totalMemoryGB framePixelCount frameCount) (3 # 2)).

Inductive Transport := RawPixel | CompressedImage.

(** The choice made before anything is written: the frames decide whether
    the session is in raw mode, the estimate whether it stays there. *)
Definition chooseTransport (allFrames : list FrameData) (framePixelCount : Z)
    (frameCount : nat) : Transport :=
  let originalRawPixelMode :=
    match allFrames with f :: _ => isRawPixels f | [] => false end in
  if originalRawPixelMode && negb (largeVideo framePixelCount frameCount)
  then RawPixel else CompressedImage.

Section WriteStage.

Context (p : Platform) (config : ExportConfig) (frameCount : nat).

Definition framePixelCount : Z := exportWidth p config * exportHeight p config * 4.

Definition ffWrite (f : FileName) (data : Uint8Array) : M unit :=
  emit (FFWrite f data);;
  call (ffmpeg_writeFile p f data) (FFmpegWriteError f).

(** One frame of the raw buffer: located by index, copied when present. *)
Definition placeFrame (allFrames : list FrameData) (rawVideoData : Uint8Array)
    (i : nat) : M Uint8Array :=
  match findFrame allFrames i with
  | Some frame =>
      let offset := Z.to_nat (Z.of_nat i * framePixelCount) in
      call_val (typed_set rawVideoData (frameData frame) offset) RangeError
  | None => mret rawVideoData
  end.

(** The concatenation of all payloads into one buffer, chunk by chunk. *)
Definition concatRaw (allFrames : list FrameData) : M Uint8Array :=
  let chunkSize := Nat.min 100 frameCount in
  let chunks := ceil_div frameCount chunkSize in
  call (alloc p (framePixelCount * Z.of_nat frameCount)) RangeError;;
  foldM (seq 0 chunks)
    (fun rawVideoData chunkIndex =>
       let chunkStart := (chunkIndex * chunkSize)%nat in
       let chunkEnd := Nat.min (chunkStart + chunkSize) frameCount in
       foldM (seq chunkStart (chunkEnd - chunkStart)) (placeFrame allFrames) rawVideoData)
    (zeros (framePixelCount * Z.of_nat frameCount)).

(** The starting offsets [0, size, 2 size, ...] of a loop [i += size]. *)
Definition batchStarts (n size : nat) : list nat :=
  (fun k => (k * size)%nat) <$> seq 0 (ceil_div n size).

(** [allFrames.slice(i, batchEnd)] *)
Definition slice {A} (l : list A) (i batchEnd : nat) : list A :=
  take (batchEnd - i) (drop i l).

(** Conversion of raw payloads to PNG files, used when the raw pipeline is
    left: for a large video, and after a failed raw attempt.  The batches
    follow one another; the tasks of one batch are run here in the order of
    the array, where the browser lets their conversions overlap and each
    write follow its own conversion. *)
Definition writeRawAsPng (allFrames : list FrameData) : M unit :=
  forM (batchStarts (length allFrames) (writeBatchSize config))
    (fun i =>
       let batchEnd := Nat.min (i + writeBatchSize config) (length allFrames) in
       forM (slice allFrames i batchEnd)
         (fun frame =>
            pngData ← convertRGBAToPNG p (frameData frame)
                        (exportWidth p config) (exportHeight p config) 85;
            ffWrite (FramePng (Z.of_nat (frameIndex frame) + 1)) pngData));;
  mret tt.

(** PNG mode: the payloads already are PNG files. *)
Definition writePngFrames (allFrames : list FrameData) : M unit :=
  forM (batchStarts (length allFrames) (writeBatchSize config))
    (fun i =>
       let batch := slice allFrames i (i + writeBatchSize config) in
       forM (imap (fun batchIndex frame => (batchIndex, frame)) batch)
         (fun '(batchIndex, frame) =>
            ffWrite (FramePng (Z.of_nat (i + batchIndex) + 1)) (frameData frame)));;
  mret tt.

(** The write stage; its result is the final [useRawPixelPipeline]. *)
Definition writeStage (allFrames : list FrameData) : M bool :=
  let originalRawPixelMode :=
    match allFrames with f :: _ => isRawPixels f | [] => false end in
  if originalRawPixelMode then
    if largeVideo framePixelCount frameCount then
      emit (ConsoleWarn LargeVideoDetected);;
      writeRawAsPng allFrames;;
      mret false
    else
      try_catch
        (rawVideoData ← concatRaw allFrames;
         ffWrite RawVideo rawVideoData;;
         mret true)
        (fun memoryError =>
           emit (ConsoleError memoryError);;
           writeRawAsPng allFrames;;
           mret false)
  else
    writePngFrames allFrames;;
    mret false.

(** *** Encoding and cleanup of the staged files *)

Context (settings : Settings).

Definition ffDelete (f : FileName) : M unit :=
  emit (FFDelete f);;
  call (ffmpeg_deleteFile p f) (FFmpegDeleteError f).

Definition encodeStage (useRawPixelPipeline : bool) : M unit :=
  let quality := default Balanced (preset_of_key (exportQuality settings)) in
  let input := if useRawPixelPipeline
               then RawInput (exportWidth p config) (exportHeight p config)
               else PngSequence in
  when (audio settings)
       (data ← call_val (fetchFile p) AudioFetchError;
        ffWrite AudioMp3 data);;
  let ffmpegArgs :=
    {| arg_framerate := Z.of_nat (frameRate config);
       arg_input := input;
       arg_audio := if audio settings then Some (audioLoop settings, quality) else None;
       arg_codec := quality |} in
  emit (FFExec ffmpegArgs);;
  call (ffmpeg_exec p ffmpegArgs) FFmpegExecError;;
  emit (FFRead OutputMp4);;
  data ← call_val (ffmpeg_readFile p OutputMp4) FFmpegReadError;
  emit (ExportedVideo data);;
  (if useRawPixelPipeline then ffDelete RawVideo
   else
     forM (seq 1 frameCount) (fun j => ffDelete (FramePng (Z.of_nat j)));;
     mret tt);;
  when (audio settings) (ffDelete AudioMp3);;
  ffDelete OutputMp4;;
  emit (Toast ToastMagic).

End WriteStage.

(** ** [handleExport] *)

Section Session.

Context (p : Platform) (settings : Settings).

Definition sessionConfig : ExportConfig := config_of_key (exportQuality settings).
Definition sessionFrameCount : nat := (duration settings * frameRate sessionConfig)%nat.

(** The capture loop inside its own [try ... finally], which runs the
    texture collector once more and puts [textureGC.maxIdle] back. *)
Definition captureStage (originalMaxIdle : Z) : M (list FrameData) :=
  try_finally
    (captureLoop p sessionConfig sessionFrameCount)
    (emit TextureGCRun;;
     modify (with_app (set_maxIdle originalMaxIdle))).

(** From [getApp()] to the success toast. *)
Definition captureAndEncode : M unit :=
  w ← get;
  match appRef (pixi w) with
  | None => throw PixiAppNotAvailable
  | Some app =>
      modify (with_locals (fun l =>
        {| wasPlaying := wasPlaying l; wasTickerRunning := started (ticker app);
           pixiApp := true |}));;
      when (negb (started (ticker app))) (modify (with_app (set_started true)));;
      let originalMaxIdle := textureGC_maxIdle app in
      modify (with_app (set_maxIdle MAX_SAFE_INTEGER));;
      allFrames ← captureStage originalMaxIdle;
      let allFrames := sortFrames allFrames in
      useRawPixelPipeline ← writeStage p sessionConfig sessionFrameCount allFrames;
      encodeStage p sessionConfig sessionFrameCount settings useRawPixelPipeline
  end.

(** The body of the outer [try], first part: the video engine is loaded on
    first use. *)
Definition ensureLoaded : M unit :=
  w ← get;
  when (negb (ffmpeg_loaded w))
       (emit FFLoad;;
        call (ffmpeg_load p) FFmpegLoadError;;
        modify (with_ffmpeg_loaded true);;
        emit (Toast ToastInfo)).

(** The body of the outer [try], from [getCanvas()] on. *)
Definition startSession : M unit :=
  w ← get;
  match appRef (pixi w) with
  | None =>
      (* getCanvas() returned null *)
      emit (ConsoleError CanvasNotFound);;
      emit (Toast ToastError);;
      modify (with_exporting false)
  | Some _ =>
      setExportMode true;;
      modify (with_locals (fun l =>
        {| wasPlaying := isPlaying w; wasTickerRunning := wasTickerRunning l;
           pixiApp := pixiApp l |}));;
      when (negb (isPlaying w)) (modify (with_isPlaying true));;
      captureAndEncode
  end.

Definition sessionBody : M unit := ensureLoaded;; startSession.

(** The [catch] block of the outer [try]: console and toast. *)
Definition reportFailure (error : Error) : M unit :=
  emit (ConsoleError error);; emit (Toast ToastError).

Definition handleExport : M unit :=
  w ← get;
  if exporting w || negb (pixiCanvasRef w) then mret tt
  else
    modify (with_exporting true);;
    modify (with_locals (fun _ =>
      {| wasPlaying := false; wasTickerRunning := false; pixiApp := false |}));;
    try_finally (try_catch sessionBody reportFailure) restoreStep.

End Session.

(** ** Resolution presets (the table and its lookup) *)

Module Resolutions.

Record ResolutionPreset := {
  id : string;
  name : string;
  width : Z;
  height : Z;
  description : string;
  aspectRatio : string
}.

Definition RESOLUTION_PRESETS : list ResolutionPreset :=
  [ {| id := "instagram-reel"; name := "Instagram Reel"; width := 1080; height := 1920;
       description := "Perfect for Instagram Reels and TikTok"; aspectRatio := "9:16" |};
    {| id := "instagram-post"; name := "Instagram Post"; width := 1080; height := 1350;
       description := "Standard Instagram feed post"; aspectRatio := "4:5" |};
    {| id := "instagram-story"; name := "Instagram Story"; width := 1080; height := 1920;
       description := "Instagram Story format"; aspectRatio := "9:16" |};
    {| id := "youtube-shorts"; name := "YouTube Shorts"; width := 1080; height := 1920;
       description := "YouTube Shorts vertical format"; aspectRatio := "9:16" |};
    {| id := "square"; name := "Square"; width := 1080; height := 1080;
       description := "Classic square format"; aspectRatio := "1:1" |};
    {| id := "landscape"; name := "Landscape"; width := 1920; height := 1080;
       description := "Standard landscape format"; aspectRatio := "16:9" |} ].

(** [RESOLUTION_PRESETS.find(preset => preset.id === id) || RESOLUTION_PRESETS[0]];
    the table is not empty, so that its first entry exists. *)
Definition getResolutionById (key : string) : option ResolutionPreset :=
  match List.find (fun preset => String.eqb (id preset) key) RESOLUTION_PRESETS with
  | Some preset => Some preset
  | None => RESOLUTION_PRESETS !! 0%nat
  end.

(** [RESOLUTION_PRESETS.map(preset => preset.name)] *)
Definition getResolutionNames : list string := name <$> RESOLUTION_PRESETS.

End Resolutions.

(** * Vocabulary of the statements *)

(** [m] only moves the world along [R], whether it returns or throws. *)
Definition stable (R : relation World) {A} (m : M A) : Prop := forall w, R w (m w).1.

(** The part of the world that capture, transcoding and the FFmpeg calls
    never touch: everything but the console and the two pools. *)
Definition core (w : World) :=
  (pixiCanvasRef w, pixi w, isPlaying w, exporting w, ffmpeg_loaded w, locals w).

Definition same_core : relation World := fun w w' => core w = core w'.

(** The console and call log grows by events that all satisfy [P]. *)
Definition logs (P : Event -> Prop) : relation World := fun w w' =>
  exists evs, log w' = log w ++ evs /\ Forall P evs.

(** Events other than an encoder run and a delivered video. *)
Definition before_encoding (e : Event) : Prop :=
  match e with
  | FFExec _ | ExportedVideo _ => False
  | _ => True
  end.

(** Events other than a write of [raw_video.rgba]. *)
Definition not_raw_write (e : Event) : Prop :=
  match e with
  | FFWrite RawVideo _ => False
  | _ => True
  end.

(** Events of the restore step. *)
Definition restore_event (e : Event) : Prop := e = AppRender \/ e = ResetScheduled.

(** An event without the bytes it carries. *)
Definition eventKind (e : Event) : Event :=
  match e with
  | FFWrite f _ => FFWrite f []
  | ExportedVideo _ => ExportedVideo []
  | _ => e
  end.

(** [m] returns from every world. *)
Definition succeeds {A} (m : M A) : Prop :=
  forall w, exists w' a, m w = (w', inr a).

(** [m] throws from every world. *)
Definition fails {A} (m : M A) : Prop :=
  forall w, exists w' e, m w = (w', inl e).

(** [f x] can return [y]. *)
Definition yields {A B} (f : A -> M B) (x : A) (y : B) : Prop :=
  exists w w', f x w = (w', inr y).

Definition total {A} (m : M A) (Q : A -> Prop) : Prop :=
  forall w, exists w' a, m w = (w', inr a) /\ Q a.

(** Whether the payload at position [i] has been released once [b] batches
    are done: only the batches [b' - 6] for an even [b' > 6] that has run. *)
Definition clearedBy (bs b i : nat) : bool :=
  let k := (i / bs)%nat in
  (k mod 2 =? 0)%nat && (2 <=? k)%nat && (k + 6 <? b)%nat.

Definition mark (bs b i : nat) (f : FrameData) : FrameData :=
  if clearedBy bs b i then clearFrame f else f.

(** The frames accumulated after [b] batches. *)
Definition capturedUpTo (p : Platform) (config : ExportConfig) (n b : nat)
    (allFrames : list FrameData) : Prop :=
  exists results,
    Forall2 (yields (captureFrame p config))
            (seq 0 (Nat.min (b * batchSize config n) n)) results
    /\ allFrames = imap (mark (batchSize config n) b) results.

(** The size of what the direct read hands on. *)
Definition webglSize (p : Platform) (config : ExportConfig) : Z :=
  if downsampling config
  then exportWidth p config * exportHeight p config * 4
  else actualCanvasWidth p * actualCanvasHeight p * 4.

Record healthy (p : Platform) (config : ExportConfig) : Prop := {
  healthy_gl : renderer_gl p = true;
  healthy_context : canvas_webgl p = true;
  healthy_read : forall i, is_Some (gl_readPixels p i);
  healthy_alloc : alloc p (canvas_width p * canvas_height p * 4) = true;
  healthy_image : forall px w h, new_ImageData p px w h = true;
  healthy_resample : forall px sw sh tw th, is_Some (canvas_resample p px sw sh tw th);
  healthy_blob : forall px w h q, is_Some (canvas_toBlob p px w h q);
  healthy_canvas : 0 < canvas_width p /\ 0 < canvas_height p;
  healthy_export : 0 < exportWidth p config /\ 0 < exportHeight p config
}.

(** Bytes of the raw buffer that are still zero while frame [k] is next:
    those from frame [k] on, and those of the frame [i] under study. *)
Definition untouched (p : Platform) (config : ExportConfig) (frameCount : nat)
    (i k : nat) (raw : Uint8Array) : Prop :=
  len raw = framePixelCount p config * Z.of_nat frameCount
  /\ forall pos : nat,
       (Z.of_nat k * framePixelCount p config <= Z.of_nat pos
        \/ Z.of_nat i * framePixelCount p config <= Z.of_nat pos
              < Z.of_nat i * framePixelCount p config + framePixelCount p config) ->
       Z.of_nat pos < framePixelCount p config * Z.of_nat frameCount ->
       raw !! pos = Some Byte.x00.

(** What the canvas makes of a buffer: the rest of [convertRGBAToPNG] after
    its validation. *)
Definition canvasEncode (p : Platform) (pixels : Uint8Array) (width height : Z)
    (quality : Q) : Error + Uint8Array :=
  if new_ImageData p pixels width height then
    match canvas_toBlob p pixels width height quality with
    | Some blob => inr blob
    | None => inl ToBlobFailed
    end
  else inl ImageDataError.

(** The rendering state: the canvas component's objects and the play state. *)
Definition renderState (w : World) : PixiCanvas * bool := (pixi w, isPlaying w).

(** The state in which the frames are captured: the locals saved, the ticker
    running. *)
Definition capturing (app : Application) (w : World) : World :=
  with_app (set_started true)
    (with_locals (fun l =>
       {| wasPlaying := wasPlaying l; wasTickerRunning := started (ticker app);
          pixiApp := true |}) w).

(** The world in which the capture stage runs its course. *)
Definition sessionStarted (w : World) : World :=
  with_isPlaying true
    (with_locals (fun l =>
       {| wasPlaying := isPlaying w; wasTickerRunning := wasTickerRunning l;
          pixiApp := pixiApp l |})
       (with_pixi enableExportMode w)).

(** The world in which [startSession] ends, up to the console and the pools. *)
Definition afterStart (w : World) : World :=
  match appRef (pixi w) with
  | None => with_exporting false w
  | Some _ =>
      match appRef (pixi (sessionStarted w)) with
      | Some app => capturing app (sessionStarted w)
      | None => sessionStarted w
      end
  end.

(** What the restore step makes of the rendering state. *)
Definition restoredState (w : World) : PixiCanvas * bool :=
  (if pixiCanvasRef w then
     pixi ((if negb (wasTickerRunning (locals w)) && pixiApp (locals w)
            then with_app (set_started false) else id)
             (with_pixi disableExportMode w))
   else pixi w,
   if wasPlaying (locals w) then isPlaying w else false).

(** The session gets as far as [setExportMode(true)]: the video engine is
    loaded or loads, and the canvas exists. *)
Definition reachesCapture (p : Platform) (w : World) : bool :=
  (ffmpeg_loaded w || ffmpeg_load p) && bool_decide (is_Some (appRef (pixi w))).

(** Capture and writing, the stages that come before the encoder. *)
Definition staging (p : Platform) (settings : Settings) (originalMaxIdle : Z) : M bool :=
  allFrames ← captureStage p settings originalMaxIdle;
  writeStage p (sessionConfig settings) (sessionFrameCount settings) (sortFrames allFrames).

Definition unsaved (o : option DisplayObject) : bool :=
  match o with
  | Some x => match _originalVisible x with None => true | Some _ => false end
  | None => true
  end.

(** A canvas outside of any export: export mode is off and no object holds
    a saved value. *)
Definition clean (c : PixiCanvas) : bool :=
  negb (exportModeRef c)
  && match appRef c with
     | Some app => match _originalFilters (stage app) with None => true | Some _ => false end
     | None => true
     end
  && unsaved (effectsLayerRef c) && unsaved (hazeRef c) && unsaved (grainRef c).

(** The canvas with the settings that [setExportMode(false)] writes for the
    live preview: ticker running without an upper FPS limit and with a lower
    limit of 10, background not cached. *)
Definition livePreview (c : PixiCanvas) : PixiCanvas :=
  match appRef c, effectsLayerRef c with
  | Some app, Some _ =>
      {| appRef := Some {| stage := stage app;
                           ticker := {| started := true; maxFPS := 0; minFPS := 10 |};
                           textureGC_maxIdle := textureGC_maxIdle app |};
         effectsLayerRef := effectsLayerRef c;
         hazeRef := hazeRef c;
         grainRef := grainRef c;
         backgroundLayerRef := (fun _ => false) <$> backgroundLayerRef c;
         exportModeRef := false |}
  | _, _ => c
  end.

(** What the code restores, and what it resets, between the canvas [c]
    before a session and the canvas [c'] after it. *)
Definition restoredByDesign (c c' : PixiCanvas) : Prop :=
  (* saved and put back *)
  (filters ∘ stage) <$> appRef c' = (filters ∘ stage) <$> appRef c
  /\ textureGC_maxIdle <$> appRef c' = textureGC_maxIdle <$> appRef c
  /\ visible <$> effectsLayerRef c' = visible <$> effectsLayerRef c
  /\ visible <$> hazeRef c' = visible <$> hazeRef c
  /\ visible <$> grainRef c' = visible <$> grainRef c
  /\ clean c' = true
  (* not saved: set to the live-preview values; a ticker that ran, runs *)
  /\ (is_Some (appRef c) -> is_Some (effectsLayerRef c) ->
      backgroundLayerRef c' = (fun _ => false) <$> backgroundLayerRef c
      /\ (maxFPS ∘ ticker) <$> appRef c' = Some 0
      /\ (minFPS ∘ ticker) <$> appRef c' = Some 10
      /\ ((started ∘ ticker) <$> appRef c = Some true ->
          (started ∘ ticker) <$> appRef c' = Some true))
  (* without an application or an effects layer nothing is touched *)
  /\ (appRef c = None \/ effectsLayerRef c = None -> c' = c).

(** Events other than the warning that the video is too large for the raw
    pipeline. *)
Definition not_large_warning (e : Event) : Prop :=
  match e with
  | ConsoleWarn LargeVideoDetected => False
  | _ => True
  end.

(** The [ImageData] constructor as the HTML standard defines it for an array
    and two sizes: it throws unless the array holds exactly
    [sw * sh * 4] bytes.  (The sizes are converted to unsigned 32-bit
    integers first, hence the bounds.) *)
Definition standardImageData (p : Platform) : Prop :=
  forall pixels width height,
    0 < width < 2 ^ 32 -> 0 < height < 2 ^ 32 ->
    new_ImageData p pixels width height = (len pixels =? width * height * 4).

(** ** Vocabulary of the further properties *)

(** Both pools are within the limits that their release functions keep. *)
Definition poolsBounded (w : World) : Prop :=
  (length (pixelBufferPool w) <= 10)%nat /\ (length (tempCanvasPool w) <= 5)%nat.

Definition keeps_pools : relation World := fun w w' => poolsBounded w -> poolsBounded w'.

(** [m] returns [a] from every world, and all it does is to add the events
    [evs] to the log. *)
Definition says {A} (m : M A) (evs : list Event) (a : A) : Prop :=
  forall w, m w = (with_log (fun l => l ++ evs) w, inr a).

(** Deletions of staged files. *)
Definition is_delete (e : Event) : Prop :=
  match e with FFDelete _ => True | _ => False end.

(** Writes of frame files carry a number between 1 and [n]. *)
Definition frame_files_upto (n : nat) (e : Event) : Prop :=
  match e with
  | FFWrite f _ => exists k, f = FramePng (Z.of_nat k) /\ (1 <= k <= n)%nat
  | _ => True
  end.

(** Nothing at all. *)
Definition silent (e : Event) : Prop := False.

(** FFmpeg does what it is asked: it loads, accepts every write, runs, hands
    back [data] as the output file and deletes; the audio track can be
    fetched. *)
Record cooperative (p : Platform) (data : Uint8Array) : Prop := {
  coop_load : ffmpeg_load p = true;
  coop_write : forall f d, ffmpeg_writeFile p f d = true;
  coop_exec : forall args, ffmpeg_exec p args = true;
  coop_read : ffmpeg_readFile p OutputMp4 = Some data;
  coop_delete : forall f, ffmpeg_deleteFile p f = true;
  coop_fetch : is_Some (fetchFile p)
}.

(** What the capture stage may say. *)
Definition capture_event (e : Event) : Prop :=
  match e with
  | ConsoleWarn _ | ConsoleError _ | TextureGCRun => True
  | _ => False
  end.

(** The events of a delivery through the raw pipeline, from the write of the
    raw buffer to the success toast. *)
Definition rawDelivery (settings : Settings) (raw : Uint8Array) (audioIn : list Event)
    (args : FFmpegArgs) (data : Uint8Array) : list Event :=
  [FFWrite RawVideo raw]
  ++ audioIn
  ++ [FFExec args; FFRead OutputMp4; ExportedVideo data; FFDelete RawVideo]
  ++ (if audio settings then [FFDelete AudioMp3] else [])
  ++ [FFDelete OutputMp4; Toast ToastMagic].

(** [m] returns from every world with a result that satisfies [Q], and adds
    exactly the events [evs] to the log. *)
Definition adds {A} (m : M A) (evs : list Event) (Q : A -> Prop) : Prop :=
  forall w, exists w' a, m w = (w', inr a) /\ log w' = log w ++ evs /\ Q a.

(** The PNG file that the canvas makes of a raw payload when the write stage
    leaves the raw pipeline (quality argument 85). *)
Definition fallbackPng (p : Platform) (config : ExportConfig) (f : FrameData) : Uint8Array :=
  default [] (canvas_toBlob p (frameData f) (exportWidth p config) (exportHeight p config) 85).

(** What a frame contributes to the raw buffer: its payload, or as many zero
    bytes as a frame has when the payload has been released. *)
Definition rawSlot (fpc : Z) (f : FrameData) : Uint8Array :=
  match frameData f with
  | [] => zeros fpc
  | payload => payload
  end.

(** The payload of frame [i] as the direct read delivers it: the colour
    buffer at canvas size, resampled to the export size when the export is
    smaller than the canvas. *)
Definition webglFrame (p : Platform) (config : ExportConfig) (i : nat) : Uint8Array :=
  let full := default (fun _ => Byte.x00) (gl_readPixels p i)
              <$> seq 0 (Z.to_nat (canvas_width p * canvas_height p * 4)) in
  if downsampling config then
    imageDataBytes
      (default (fun _ => Byte.x00)
         (canvas_resample p full (canvas_width p) (canvas_height p)
            (exportWidth p config) (exportHeight p config)))
      (exportWidth p config) (exportHeight p config)
  else full.

(** The raw video of a session of [n] frames: the frames one after the
    other in frame order, each as the direct read delivered it, with zero
    bytes in place of every frame whose payload the batch loop released. *)
Definition capturedVideo (p : Platform) (config : ExportConfig) (n : nat) : Uint8Array :=
  concat ((fun i => if clearedBy (batchSize config n) (batches config n) i
                    then zeros (framePixelCount p config)
                    else webglFrame p config i) <$> seq 0 n).

(** * Platforms and worlds for evaluation *)

(** A 4 x 4 canvas; every pixel byte of frame [i] is [i mod 256]. *)
Definition demoPlatform : Platform :=
  {| ffmpeg_load := true;
     ffmpeg_writeFile := fun _ _ => true;
     ffmpeg_exec := fun _ => true;
     ffmpeg_readFile := fun _ => Some [Byte.x00; Byte.x01];
     ffmpeg_deleteFile := fun _ => true;
     fetchFile := Some [Byte.x02];
     canvas_width := 4;
     canvas_height := 4;
     canvas_webgl := true;
     renderer_gl := true;
     gl_readPixels := fun i => Some (fun _ => to_uint8 (Z.of_nat i));
     extract_pixels := fun _ => Some PxOther;
     new_ImageData := fun _ _ _ => true;
     canvas_toBlob := fun px _ _ _ => Some (Byte.x89 :: px);
     canvas_resample := fun px _ _ _ _ => Some (fun k => nth k px Byte.x00);
     alloc := fun _ => true |}.

(** A reel-sized platform: a 1080 x 1920 canvas, and an allocator that
    grants at most 1 GiB at a time. *)
Definition reelPlatform : Platform :=
  {| ffmpeg_load := true;
     ffmpeg_writeFile := fun _ _ => true;
     ffmpeg_exec := fun _ => true;
     ffmpeg_readFile := fun _ => Some [Byte.x00; Byte.x01];
     ffmpeg_deleteFile := fun _ => true;
     fetchFile := Some [Byte.x02];
     canvas_width := 1080;
     canvas_height := 1920;
     canvas_webgl := true;
     renderer_gl := true;
     gl_readPixels := fun i => Some (fun _ => to_uint8 (Z.of_nat i));
     extract_pixels := fun _ => Some PxOther;
     new_ImageData := fun _ _ _ => true;
     canvas_toBlob := fun px _ _ _ => Some [Byte.x89];
     canvas_resample := fun px _ _ _ _ => Some (fun k => Byte.x7f);
     alloc := fun n => n <=? 1024 * 1024 * 1024 |}.

(** A reel-sized platform without a WebGL context, whose renderer extracts
    the stage at canvas size. *)
Definition noWebGLPlatform : Platform :=
  {| ffmpeg_load := true;
     ffmpeg_writeFile := fun _ _ => true;
     ffmpeg_exec := fun _ => true;
     ffmpeg_readFile := fun _ => Some [Byte.x00; Byte.x01];
     ffmpeg_deleteFile := fun _ => true;
     fetchFile := Some [Byte.x02];
     canvas_width := 1080;
     canvas_height := 1920;
     canvas_webgl := false;
     renderer_gl := false;
     gl_readPixels := fun _ => None;
     extract_pixels := fun _ => Some (PxUint8 (zeros (1080 * 1920 * 4)));
     new_ImageData := fun _ _ _ => true;
     canvas_toBlob := fun px _ _ _ => Some [Byte.x89];
     canvas_resample := fun px _ _ _ _ => Some (fun k => Byte.x7f);
     alloc := fun n => n <=? 1024 * 1024 * 1024 |}.

(** The demo platform with the surface lost at frame 5. *)
Definition lossyPlatform : Platform :=
  {| ffmpeg_load := true;
     ffmpeg_writeFile := fun _ _ => true;
     ffmpeg_exec := fun _ => true;
     ffmpeg_readFile := fun _ => Some [Byte.x00; Byte.x01];
     ffmpeg_deleteFile := fun _ => true;
     fetchFile := Some [Byte.x02];
     canvas_width := 4;
     canvas_height := 4;
     canvas_webgl := true;
     renderer_gl := true;
     gl_readPixels := fun i =>
       if (i =? 5)%nat then None else Some (fun _ => to_uint8 (Z.of_nat i));
     extract_pixels := fun _ => Some PxOther;
     new_ImageData := fun _ _ _ => true;
     canvas_toBlob := fun px _ _ _ => Some (Byte.x89 :: px);
     canvas_resample := fun px _ _ _ _ => Some (fun k => nth k px Byte.x00);
     alloc := fun _ => true |}.

(** The demo platform with an allocator that grants at most 1000 bytes at a
    time, and a canvas encoder that returns a one-byte file. *)
Definition smallMemoryPlatform : Platform :=
  {| ffmpeg_load := true;
     ffmpeg_writeFile := fun _ _ => true;
     ffmpeg_exec := fun _ => true;
     ffmpeg_readFile := fun _ => Some [Byte.x00; Byte.x01];
     ffmpeg_deleteFile := fun _ => true;
     fetchFile := Some [Byte.x02];
     canvas_width := 4;
     canvas_height := 4;
     canvas_webgl := true;
     renderer_gl := true;
     gl_readPixels := fun i => Some (fun _ => to_uint8 (Z.of_nat i));
     extract_pixels := fun _ => Some PxOther;
     new_ImageData := fun _ _ _ => true;
     canvas_toBlob := fun px _ _ _ => Some [Byte.x89];
     canvas_resample := fun px _ _ _ _ => Some (fun k => nth k px Byte.x00);
     alloc := fun n => n <=? 1000 |}.

(** The live preview as the component sets it up, and an idle application. *)
Definition previewCanvas : PixiCanvas :=
  {| appRef := Some
       {| stage := {| filters := Some [1; 2]%nat; _originalFilters := None |};
          ticker := {| started := true; maxFPS := 0; minFPS := 10 |};
          textureGC_maxIdle := 3600 |};
     effectsLayerRef := Some {| visible := true; _originalVisible := None |};
     hazeRef := Some {| visible := true; _originalVisible := None |};
     grainRef := Some {| visible := true; _originalVisible := None |};
     backgroundLayerRef := Some false;
     exportModeRef := false |}.

Definition idleWorld : World :=
  {| pixiCanvasRef := true; pixi := previewCanvas;
     isPlaying := true; exporting := false; ffmpeg_loaded := true;
     locals := {| wasPlaying := false; wasTickerRunning := false; pixiApp := false |};
     pixelBufferPool := []; tempCanvasPool := []; log := [] |}.

(** A canvas whose ticker had been given FPS limits of its own and whose
    background was cached. *)
Definition tunedWorld : World :=
  {| pixiCanvasRef := true;
     pixi := {| appRef := Some
                  {| stage := {| filters := Some [1; 2]%nat; _originalFilters := None |};
                     ticker := {| started := true; maxFPS := 60; minFPS := 30 |};
                     textureGC_maxIdle := 3600 |};
                effectsLayerRef := Some {| visible := true; _originalVisible := None |};
                hazeRef := Some {| visible := true; _originalVisible := None |};
                grainRef := Some {| visible := true; _originalVisible := None |};
                backgroundLayerRef := Some true;
                exportModeRef := false |};
     isPlaying := true; exporting := false; ffmpeg_loaded := true;
     locals := {| wasPlaying := false; wasTickerRunning := false; pixiApp := false |};
     pixelBufferPool := []; tempCanvasPool := []; log := [] |}.

Definition demoSettings : Settings :=
  {| exportQuality := "balanced"; duration := 5; audioLoop := true; audio := false |}.

Definition fastSettings : Settings :=
  {| exportQuality := "fast"; duration := 11; audioLoop := true; audio := false |}.

(** Three frames of the 4 x 4 demo canvas: frame 0 is held, the payload of
    frame 1 has been released, frame 2 has no record. *)
Definition threeFrames : list FrameData :=
  [ {| frameData := replicate 64 Byte.xff; frameIndex := 0; isRawPixels := true |};
    {| frameData := []; frameIndex := 1; isRawPixels := true |} ].

(** The demo platform with the [ImageData] constructor of a browser. *)
Definition browserPlatform : Platform :=
  {| ffmpeg_load := true;
     ffmpeg_writeFile := fun _ _ => true;
     ffmpeg_exec := fun _ => true;
     ffmpeg_readFile := fun _ => Some [Byte.x00; Byte.x01];
     ffmpeg_deleteFile := fun _ => true;
     fetchFile := Some [Byte.x02];
     canvas_width := 4;
     canvas_height := 4;
     canvas_webgl := true;
     renderer_gl := true;
     gl_readPixels := fun i => Some (fun _ => to_uint8 (Z.of_nat i));
     extract_pixels := fun _ => Some PxOther;
     new_ImageData := fun px w h => len px =? w * h * 4;
     canvas_toBlob := fun px _ _ _ => Some (Byte.x89 :: px);
     canvas_resample := fun px _ _ _ _ => Some (fun k => nth k px Byte.x00);
     alloc := fun _ => true |}.

(** The demo platform with a direct read that fails at frame 59, and a
    renderer that extracts the stage at canvas size (64 bytes). *)
Definition flakyPlatform : Platform :=
  {| ffmpeg_load := true;
     ffmpeg_writeFile := fun _ _ => true;
     ffmpeg_exec := fun _ => true;
     ffmpeg_readFile := fun _ => Some [Byte.x00; Byte.x01];
     ffmpeg_deleteFile := fun _ => true;
     fetchFile := Some [Byte.x02];
     canvas_width := 4;
     canvas_height := 4;
     canvas_webgl := true;
     renderer_gl := true;
     gl_readPixels := fun i =>
       if (i =? 59)%nat then None else Some (fun _ => to_uint8 (Z.of_nat i));
     extract_pixels := fun _ => Some (PxUint8 (replicate 64 Byte.xff));
     new_ImageData := fun _ _ _ => true;
     canvas_toBlob := fun px _ _ _ => Some (Byte.x89 :: px);
     canvas_resample := fun px _ _ _ _ => Some (fun k => nth k px Byte.x00);
     alloc := fun _ => true |}.

(** A 1440 x 2560 canvas, which the fast preset exports at 1080 x 1920, and
    an allocator that grants every request. *)
Definition tallPlatform : Platform :=
  {| ffmpeg_load := true;
     ffmpeg_writeFile := fun _ _ => true;
     ffmpeg_exec := fun _ => true;
     ffmpeg_readFile := fun _ => Some [Byte.x00; Byte.x01];
     ffmpeg_deleteFile := fun _ => true;
     fetchFile := Some [Byte.x02];
     canvas_width := 1440;
     canvas_height := 2560;
     canvas_webgl := true;
     renderer_gl := true;
     gl_readPixels := fun i => Some (fun _ => to_uint8 (Z.of_nat i));
     extract_pixels := fun _ => Some PxOther;
     new_ImageData := fun _ _ _ => true;
     canvas_toBlob := fun px _ _ _ => Some [Byte.x89];
     canvas_resample := fun px _ _ _ _ => Some (fun k => Byte.x7f);
     alloc := fun _ => true |}.

(** The 192 frames of eight seconds at 24 frames per second, each with a
    full payload of 1080 x 1920 pixels. *)
Definition eightSecondFrames : list FrameData :=
  (fun i => {| frameData := replicate (Z.to_nat (1080 * 1920 * 4)) (to_uint8 (Z.of_nat i));
               frameIndex := i; isRawPixels := true |}) <$> seq 0 192.

(** ** Further inputs *)

(** The idle application with two buffers in the pool, of one and of two
    bytes. *)
Definition pooledWorld : World :=
  with_pixelBufferPool (fun _ => [[Byte.x01]; [Byte.x02; Byte.x03]]) idleWorld.

(** The settings the application starts with, and no audio track. *)
Definition defaultSettings : Settings :=
  {| exportQuality := "balanced"; duration := 10; audioLoop := true; audio := false |}.

(** Three raw frames of the 4 x 4 demo canvas; the payload of the second
    has been released. *)
Definition gappedFrames : list FrameData :=
  [ {| frameData := replicate 64 Byte.xff; frameIndex := 0; isRawPixels := true |};
    {| frameData := []; frameIndex := 1; isRawPixels := true |};
    {| frameData := replicate 64 Byte.x01; frameIndex := 2; isRawPixels := true |} ].

(** Three frames of a PNG-mode session, in order. *)
Definition pngFrames : list FrameData :=
  [ {| frameData := [Byte.x89; Byte.x00]; frameIndex := 0; isRawPixels := false |};
    {| frameData := [Byte.x89; Byte.x01]; frameIndex := 1; isRawPixels := false |};
    {| frameData := [Byte.x89; Byte.x02]; frameIndex := 2; isRawPixels := false |} ].

(** The idle application after its PIXI application has been destroyed. *)
Definition detachedWorld : World :=
  with_pixi (fun c => {| appRef := None; effectsLayerRef := effectsLayerRef c;
                         hazeRef := hazeRef c; grainRef := grainRef c;
                         backgroundLayerRef := backgroundLayerRef c;
                         exportModeRef := exportModeRef c |}) idleWorld.

(** Sixteen raw frames of the 4 x 4 demo canvas, all held. *)
Definition sixteenFrames : list FrameData :=
  (fun i => {| frameData := replicate 64 (to_uint8 (Z.of_nat i)); frameIndex := i;
               isRawPixels := true |}) <$> seq 0 16.

(** * Reasoning about sessions *)

(** ** Properties that every step of a computation maintains *)

Section Stable.

Context (R : relation World) `{!PreOrder R}.

Lemma stable_ret {A} (a : A) : stable R (mret a).
Proof. intros w. reflexivity. Qed.

Lemma stable_throw {A} (e : Error) : stable R (@throw A e).
Proof. intros w. reflexivity. Qed.

Lemma stable_get : stable R get.
Proof. intros w. reflexivity. Qed.

Lemma stable_bind {A B} (m : M A) (k : A -> M B) :
  stable R m -> (forall a, stable R (k a)) -> stable R (m ≫= k).
Proof.
  intros Hm Hk w. unfold mbind, M_bind.
  specialize (Hm w). destruct (m w) as [w1 [e | a]]; simpl in *; [done |].
  etrans; [exact Hm | apply Hk].
Qed.

Lemma stable_try_catch {A} (m : M A) (h : Error -> M A) :
  stable R m -> (forall e, stable R (h e)) -> stable R (try_catch m h).
Proof.
  intros Hm Hh w. unfold try_catch.
  specialize (Hm w). destruct (m w) as [w1 [e | a]]; simpl in *; [| done].
  etrans; [exact Hm | apply Hh].
Qed.

Lemma stable_try_finally {A} (m : M A) (f : M unit) :
  stable R m -> stable R f -> stable R (try_finally m f).
Proof.
  intros Hm Hf w. unfold try_finally.
  specialize (Hm w). destruct (m w) as [w1 r]; simpl in *.
  specialize (Hf w1). destruct (f w1) as [w2 [e | u]]; simpl in *; by etrans.
Qed.

Lemma stable_when (b : bool) (m : M unit) : stable R m -> stable R (when b m).
Proof. intros Hm. destruct b; simpl; [done | apply stable_ret]. Qed.

Lemma stable_call (ok : bool) (e : Error) : stable R (call ok e).
Proof. destruct ok; [apply stable_ret | apply stable_throw]. Qed.

Lemma stable_call_val {A} (r : option A) (e : Error) : stable R (call_val r e).
Proof. destruct r; [apply stable_ret | apply stable_throw]. Qed.

Lemma stable_modify (f : World -> World) :
  (forall w, R w (f w)) -> stable R (modify f).
Proof. intros Hf w. apply Hf. Qed.

Lemma stable_forM {A B} (xs : list A) (f : A -> M B) :
  (forall x, stable R (f x)) -> stable R (forM xs f).
Proof.
  intros Hf. induction xs as [| x xs IH]; simpl.
  - apply stable_ret.
  - apply stable_bind; [apply Hf |]. intros y.
    apply stable_bind; [apply IH |]. intros ys. apply stable_ret.
Qed.

Lemma stable_foldM {A S} (xs : list A) (f : S -> A -> M S) (s : S) :
  (forall s x, stable R (f s x)) -> stable R (foldM xs f s).
Proof.
  intros Hf. revert s. induction xs as [| x xs IH]; intros s; simpl.
  - apply stable_ret.
  - apply stable_bind; [apply Hf | apply IH].
Qed.

End Stable.

#[global] Instance same_core_preorder : PreOrder same_core.
Proof. split; [intros w; done | intros a b c H1 H2; unfold same_core in *; congruence]. Qed.

#[global] Instance logs_preorder (P : Event -> Prop) : PreOrder (logs P).
Proof.
  split.
  - intros w. exists []. by rewrite app_nil_r.
  - intros a b c (e1 & H1 & F1) (e2 & H2 & F2). exists (e1 ++ e2).
    rewrite H2, H1, app_assoc. split; [done | by apply Forall_app].
Qed.

Lemma logs_emit P e : P e -> stable (logs P) (emit e).
Proof. intros He w. exists [e]. split; [done | by constructor]. Qed.

Lemma logs_modify P f :
  (forall w, log (f w) = log w) -> stable (logs P) (modify f).
Proof. intros Hf w. exists []. simpl. rewrite Hf, app_nil_r. done. Qed.

Create HintDb pipeline.

#[global] Hint Unfold getPixelBuffer releasePixelBuffer getTempCanvas releaseTempCanvas
  convertRGBAToPNG downsamplePixels readPixels captureWebGL capturePixi extractPixels
  captureFrame captureBatch captureLoop ffWrite ffDelete placeFrame concatRaw
  writeRawAsPng writePngFrames writeStage emit : pipeline.

(** Structural steps of a stability proof; [base] closes the leaves. *)
Ltac stable_steps base :=
  repeat first
    [ match goal with |- PreOrder _ => apply _ end
    | apply stable_ret | apply stable_throw | apply stable_get
    | apply stable_call | apply stable_call_val
    | apply stable_bind; [apply _ | | intros ?]
    | apply stable_try_catch; [apply _ | | intros ?]
    | apply stable_try_finally; [apply _ | |]
    | apply stable_when
    | apply stable_forM; [apply _ | intros ?]
    | apply stable_foldM; [apply _ | intros ? ?]
    | base
    | match goal with
      | |- stable _ (match ?x with _ => _ end) => destruct x
      end ].

Ltac core_base := apply stable_modify; intros ?; reflexivity.

Ltac logs_base :=
  first [ apply logs_modify; intros ?; reflexivity
        | apply logs_emit; simpl; tauto ].

Section PipelineStable.

Context (p : Platform) (config : ExportConfig) (frameCount : nat).

Lemma core_convertRGBAToPNG pixels width height quality :
  stable same_core (convertRGBAToPNG p pixels width height quality).
Proof. autounfold with pipeline. stable_steps core_base. Qed.

Lemma core_captureFrame i : stable same_core (captureFrame p config i).
Proof. autounfold with pipeline. stable_steps core_base. Qed.

Lemma core_captureLoop : stable same_core (captureLoop p config frameCount).
Proof.
  unfold captureLoop. apply stable_foldM; [apply _ |]. intros s x.
  unfold captureBatch. apply stable_bind; [apply _ | |].
  - apply stable_forM; [apply _ |]. intros i. apply core_captureFrame.
  - intros a. unfold emit. stable_steps core_base.
Qed.

Lemma core_writeStage allFrames :
  stable same_core (writeStage p config frameCount allFrames).
Proof. autounfold with pipeline. stable_steps core_base. Qed.

Lemma core_encodeStage settings useRaw :
  stable same_core (encodeStage p config frameCount settings useRaw).
Proof. unfold encodeStage. autounfold with pipeline. stable_steps core_base. Qed.

Lemma quiet_captureFrame i :
  stable (logs before_encoding) (captureFrame p config i).
Proof. autounfold with pipeline. stable_steps logs_base. Qed.

Lemma quiet_captureLoop :
  stable (logs before_encoding) (captureLoop p config frameCount).
Proof.
  unfold captureLoop. apply stable_foldM; [apply _ |]. intros s x.
  unfold captureBatch. apply stable_bind; [apply _ | |].
  - apply stable_forM; [apply _ |]. intros i. apply quiet_captureFrame.
  - intros a. stable_steps logs_base.
Qed.

Lemma quiet_writeStage allFrames :
  stable (logs before_encoding) (writeStage p config frameCount allFrames).
Proof. autounfold with pipeline. stable_steps logs_base. Qed.

Lemma png_only_writeRawAsPng allFrames :
  stable (logs not_raw_write) (writeRawAsPng p config allFrames).
Proof. autounfold with pipeline. stable_steps logs_base. Qed.

Lemma png_only_writePngFrames allFrames :
  stable (logs not_raw_write) (writePngFrames p config allFrames).
Proof. autounfold with pipeline. stable_steps logs_base. Qed.

End PipelineStable.

(** ** Outcomes of computations *)

Lemma bind_inr {A B} (m : M A) (k : A -> M B) w w' b :
  (m ≫= k) w = (w', inr b) ->
  exists w1 a, m w = (w1, inr a) /\ k a w1 = (w', inr b).
Proof.
  unfold mbind, M_bind. destruct (m w) as [w1 [e | a]]; [done |]. eauto.
Qed.

Lemma bind_inl {A B} (m : M A) (k : A -> M B) w w' e :
  (m ≫= k) w = (w', inl e) ->
  m w = (w', inl e) \/ exists w1 a, m w = (w1, inr a) /\ k a w1 = (w', inl e).
Proof.
  unfold mbind, M_bind. destruct (m w) as [w1 [e1 | a]]; intros H.
  - left. by injection H as -> ->.
  - right. eauto.
Qed.

Lemma bind_ok {A B} (m : M A) (k : A -> M B) w w1 a :
  m w = (w1, inr a) -> (m ≫= k) w = k a w1.
Proof. unfold mbind, M_bind. by intros ->. Qed.

Lemma bind_fail {A B} (m : M A) (k : A -> M B) w w1 e :
  m w = (w1, inl e) -> (m ≫= k) w = (w1, inl e).
Proof. unfold mbind, M_bind. by intros ->. Qed.

Lemma forM_inr {A B} (xs : list A) (f : A -> M B) w w' ys :
  forM xs f w = (w', inr ys) -> Forall2 (yields f) xs ys.
Proof.
  revert w w' ys. induction xs as [| x xs IH]; intros w w' ys H; simpl in H.
  - injection H as _ <-. constructor.
  - apply bind_inr in H as (w1 & y & Hy & H).
    apply bind_inr in H as (w2 & ys' & Hys & H).
    injection H as _ <-. constructor; [by exists w, w1 | by eapply IH].
Qed.

Lemma forM_succeeds {A B} (xs : list A) (f : A -> M B) :
  (forall x, x ∈ xs -> succeeds (f x)) -> succeeds (forM xs f).
Proof.
  induction xs as [| x xs IH]; intros Hf w; simpl.
  - by exists w, [].
  - destruct (Hf x (list_elem_of_here _ _) w) as (w1 & y & Hy).
    destruct (IH (fun x' Hx' => Hf x' (list_elem_of_further _ _ _ Hx')) w1)
      as (w2 & ys & Hys).
    exists w2, (y :: ys).
    rewrite (bind_ok _ _ _ _ _ Hy), (bind_ok _ _ _ _ _ Hys). done.
Qed.

Lemma forM_fails {A B} (xs : list A) (f : A -> M B) x :
  x ∈ xs -> fails (f x) -> fails (forM xs f).
Proof.
  intros Hx Hf w. destruct (forM xs f w) as [w' [e | ys]] eqn:E; [by eauto |].
  apply forM_inr in E. apply list_elem_of_lookup in Hx as [i Hi].
  destruct (Forall2_lookup_l _ _ _ _ _ E Hi) as (y & _ & (w1 & w2 & Hy)).
  destruct (Hf w1) as (w3 & e & He). congruence.
Qed.

Lemma foldM_app {A S} (xs ys : list A) (f : S -> A -> M S) (s : S) w :
  foldM (xs ++ ys) f s w = (foldM xs f s ≫= foldM ys f) w.
Proof.
  revert s w. induction xs as [| x xs IH]; intros s w; simpl.
  - unfold mbind, M_bind, mret, M_ret. done.
  - unfold mbind, M_bind in *.
    destruct (f s x w) as [w1 [e | s1]]; [done |]. by rewrite IH.
Qed.

(** ** The capture loop delivers every frame once, in order *)

Section CaptureShape.

Context (p : Platform) (config : ExportConfig).

Lemma captureFrame_index i f :
  yields (captureFrame p config) i f ->
  frameIndex f = i /\ isRawPixels f = useRawPixels config.
Proof.
  intros (w & w' & H). unfold captureFrame, try_catch in H.
  match type of H with context [match ?m w with _ => _ end] =>
    destruct (m w) as [w1 [e | a]] eqn:E end.
  - apply bind_inr in H as (? & ? & _ & H). discriminate.
  - injection H as _ ->.
    apply bind_inr in E as (w2 & px & _ & E).
    destruct (js_missing px); [discriminate |].
    destruct (useRawPixels config).
    + injection E as _ <-. done.
    + apply bind_inr in E as (w3 & data & _ & E).
      apply bind_inr in E as (w4 & u & _ & E).
      injection E as _ <-. done.
Qed.

(** Clearing a range of positions. *)
Lemma lookup_clear_range (l : list FrameData) s c j :
  foldl (fun frames i => alter clearFrame i frames) l (seq s c) !! j
  = if decide (s <= j < s + c)%nat then clearFrame <$> l !! j else l !! j.
Proof.
  revert s l. induction c as [| c IH]; intros s l; simpl.
  - case_decide; [lia | done].
  - rewrite IH. destruct (decide (j = s)) as [-> |].
    + rewrite list_lookup_alter. repeat case_decide; try lia. done.
    + rewrite list_lookup_alter_ne by done. repeat case_decide; try lia; done.
Qed.

Context (n : nat).

Local Abbreviation bs := (batchSize config n).

Lemma batches_lt b : (0 < bs)%nat -> (b < batches config n)%nat <-> (b * bs < n)%nat.
Proof. unfold batches, ceil_div. fold bs. intros. nia. Qed.

Lemma captureBatch_step b allFrames w w' next :
  (0 < bs)%nat -> (b * bs < n)%nat ->
  capturedUpTo p config n b allFrames ->
  captureBatch p config n allFrames b w = (w', inr next) ->
  capturedUpTo p config n (S b) next.
Proof.
  intros Hbs Hb (results & Hres & ->) H.
  unfold captureBatch in H. fold bs in H.
  apply bind_inr in H as (w1 & batchResults & Hbatch & H).
  apply forM_inr in Hbatch.
  assert (Hlen : length results = (b * bs)%nat).
  { apply Forall2_length in Hres. rewrite length_seq in Hres. lia. }
  assert (Hall : Forall2 (yields (captureFrame p config))
                   (seq 0 (Nat.min (S b * bs) n)) (results ++ batchResults)).
  { replace (Nat.min (S b * bs) n)
      with (Nat.min (b * bs) n + (Nat.min (b * bs + bs) n - b * bs))%nat by lia.
    rewrite seq_app. apply Forall2_app; [done |].
    replace (0 + Nat.min (b * bs) n)%nat with (b * bs)%nat by lia. done. }
  assert (Happ : imap (mark bs b) results ++ batchResults
                 = imap (mark bs b) (results ++ batchResults)).
  { rewrite imap_app. f_equal. apply list_eq. intros j.
    rewrite list_lookup_imap. destruct (batchResults !! j) as [f |]; [| done].
    simpl. f_equal. unfold mark, clearedBy. rewrite Hlen.
    assert (b <= (b * bs + j) / bs)%nat by (apply Nat.div_le_lower_bound; lia).
    replace (((b * bs + j) / bs + 6 <? b)%nat) with false by lia.
    by rewrite andb_false_r. }
  exists (results ++ batchResults). split; [done |].
  assert (Hkeep : ~ (b mod 2 = 0 /\ 6 < b)%nat ->
                  imap (mark bs b) (results ++ batchResults)
                  = imap (mark bs (S b)) (results ++ batchResults)).
  { intros Hc. apply imap_ext. intros j f _. unfold mark, clearedBy. cbv zeta.
    generalize (j / bs)%nat. intros k.
    replace ((k mod 2 =? 0)%nat && (2 <=? k)%nat && (k + 6 <? S b)%nat)
      with ((k mod 2 =? 0)%nat && (2 <=? k)%nat && (k + 6 <? b)%nat) by lia.
    done. }
  destruct ((b mod 2 =? 0)%nat && (0 <? b)%nat) eqn:Hgc.
  - apply bind_inr in H as (w2 & u & _ & H).
    destruct (6 <? b)%nat eqn:H6.
    + injection H as _ <-. rewrite Happ.
      apply list_eq. intros j. unfold clearOldFrames. fold bs.
      rewrite lookup_clear_range, !list_lookup_imap.
      rewrite length_imap, length_app, Hlen.
      apply Forall2_length in Hbatch. rewrite length_seq in Hbatch.
      destruct ((results ++ batchResults) !! j) as [f |] eqn:Hj; simpl;
        [| by case_decide].
      assert (Hdiv : forall k, (j / bs = k <-> k * bs <= j < k * bs + bs)%nat)
        by (intros k; nia).
      case_decide as Hin; simpl; f_equal.
      * assert (clearedBy bs (S b) j = true) as Hc.
        { unfold clearedBy. cbv zeta.
          assert (j / bs = b - 6)%nat as -> by (apply Hdiv; nia). lia. }
        unfold mark. rewrite Hc. by destruct (clearedBy bs b j).
      * assert (clearedBy bs (S b) j = clearedBy bs b j) as Hc.
        { unfold clearedBy. cbv zeta.
          assert (j / bs <> b - 6)%nat by (rewrite Hdiv; nia).
          generalize dependent (j / bs)%nat. intros k _ Hk.
          replace (k + 6 <? S b)%nat with (k + 6 <? b)%nat by lia. done. }
        unfold mark. by rewrite Hc.
    + injection H as _ <-. rewrite Happ. apply Hkeep. lia.
  - injection H as _ <-. rewrite Happ. apply Hkeep. lia.
Qed.

Lemma captureLoop_from b count allFrames w w' final :
  (0 < bs)%nat -> (b + count = batches config n)%nat ->
  capturedUpTo p config n b allFrames ->
  foldM (seq b count) (captureBatch p config n) allFrames w = (w', inr final) ->
  capturedUpTo p config n (batches config n) final.
Proof.
  intros Hbs. revert b allFrames w.
  induction count as [| count IH]; intros b allFrames w Hb Hinv H; simpl in H.
  - injection H as _ <-. by replace (batches config n) with b by lia.
  - apply bind_inr in H as (w1 & next & Hstep & H).
    apply (IH (S b) next w1); [lia | | done].
    eapply captureBatch_step; [done | | done | done].
    apply batches_lt; [done | lia].
Qed.

(** The frames the loop returns are the frames its tasks delivered, one per
    index and in index order, with the payloads of the released batches
    emptied. *)
Lemma captureLoop_shape w w' allFrames :
  (0 < frameCaptureSize config)%nat -> (0 < n)%nat ->
  captureLoop p config n w = (w', inr allFrames) ->
  exists results,
    Forall2 (yields (captureFrame p config)) (seq 0 n) results
    /\ allFrames = imap (mark bs (batches config n)) results.
Proof.
  intros Hc Hn H.
  assert (Hbs : (0 < bs)%nat) by (unfold batchSize; lia).
  unfold captureLoop in H.
  eapply captureLoop_from in H; [| done | done |].
  - destruct H as (results & Hres & ->). fold bs in Hres.
    exists results. split; [| done].
    replace (Nat.min (batches config n * bs) n) with n in Hres; [done |].
    pose proof (batches_lt (batches config n) Hbs). lia.
  - exists []. split; [| done]. simpl. constructor.
Qed.

End CaptureShape.

Lemma foldM_succeeds {A S} (xs : list A) (f : S -> A -> M S) (s : S) :
  (forall s x, x ∈ xs -> succeeds (f s x)) -> succeeds (foldM xs f s).
Proof.
  revert s. induction xs as [| x xs IH]; intros s Hf w; simpl.
  - by exists w, s.
  - destruct (Hf s x (list_elem_of_here _ _) w) as (w1 & s1 & H1).
    rewrite (bind_ok _ _ _ _ _ H1). apply IH.
    intros s' x' Hx'. apply Hf. by apply list_elem_of_further.
Qed.

Lemma captureLoop_succeeds p config n :
  (forall i, (i < n)%nat -> succeeds (captureFrame p config i)) ->
  succeeds (captureLoop p config n).
Proof.
  intros Hok. unfold captureLoop. apply foldM_succeeds.
  intros allFrames b _ w. unfold captureBatch.
  destruct (forM_succeeds
    (seq (b * batchSize config n)
         (Nat.min (b * batchSize config n + batchSize config n) n
          - b * batchSize config n))
    (captureFrame p config)) with (w := w) as (w1 & batchResults & Hb).
  { intros i Hi. apply Hok. apply elem_of_seq in Hi. lia. }
  rewrite (bind_ok _ _ _ _ _ Hb).
  destruct ((b mod 2 =? 0)%nat && (0 <? b)%nat); [| by eauto].
  unfold emit, modify, mbind, M_bind. destruct (6 <? b)%nat; by eauto.
Qed.

(** Sorting leaves a list alone whose indices already ascend. *)
Lemma sortFrames_sorted (l : list FrameData) s :
  frameIndex <$> l = seq s (length l) -> sortFrames l = l.
Proof.
  revert s. induction l as [| f l IH]; intros s H; [done |].
  simpl in *. injection H as Hf Hl. rewrite (IH (S s) Hl).
  destruct l as [| g l']; [done |]. simpl in *.
  injection Hl as Hg _. replace (frameIndex f <=? frameIndex g)%nat with true by lia.
  done.
Qed.

Lemma frameIndex_mark bs b i f : frameIndex (mark bs b i f) = frameIndex f.
Proof. unfold mark. by destruct (clearedBy bs b i). Qed.

Lemma captured_indices p config n results :
  Forall2 (yields (captureFrame p config)) (seq 0 n) results ->
  frameIndex <$> results = seq 0 n.
Proof.
  generalize 0%nat. revert results.
  induction n as [| n IH]; intros results s H; simpl in *.
  - by apply Forall2_nil_inv_l in H as ->.
  - apply Forall2_cons_inv_l in H as (f & rest & Hf & Hrest & ->).
    simpl. apply captureFrame_index in Hf as [-> _]. f_equal. by apply IH.
Qed.

(** C1. For every positive frame count, when every capture task returns, the
    batch loop returns, and the frames it accumulated, once sorted as
    [handleExport] sorts them, are exactly [frameCount] records whose indices
    are 0, 1, ..., frameCount - 1 in ascending order. *)
Theorem capture_sequence_complete p config frameCount w :
  (0 < frameCount)%nat ->
  (0 < frameCaptureSize config)%nat ->
  (forall i, (i < frameCount)%nat -> succeeds (captureFrame p config i)) ->
  exists w' allFrames,
    captureLoop p config frameCount w = (w', inr allFrames)
    /\ length (sortFrames allFrames) = frameCount
    /\ frameIndex <$> sortFrames allFrames = seq 0 frameCount.
Proof.
  intros Hn Hc Hok.
  destruct (captureLoop_succeeds p config frameCount Hok w) as (w' & allFrames & H).
  exists w', allFrames. split; [done |].
  destruct (captureLoop_shape p config frameCount w w' allFrames Hc Hn H)
    as (results & Hres & ->).
  assert (Hidx : frameIndex <$> imap (mark (batchSize config frameCount)
                                           (batches config frameCount)) results
                 = seq 0 frameCount).
  { rewrite <- (captured_indices p config frameCount results Hres).
    apply list_eq. intros j. rewrite !list_lookup_fmap, list_lookup_imap.
    destruct (results !! j); simpl; [| done]. by rewrite frameIndex_mark. }
  assert (Hlen : length (imap (mark (batchSize config frameCount)
                                    (batches config frameCount)) results)
                 = frameCount).
  { rewrite <- (length_fmap frameIndex), Hidx. apply length_seq. }
  rewrite (sortFrames_sorted _ 0) by (by rewrite Hlen).
  done.
Qed.

(** ** Computations that return, with a guarantee on what they return *)

Lemma total_succeeds {A} (m : M A) Q : total m Q -> succeeds m.
Proof. intros H w. destruct (H w) as (w' & a & E & _). eauto. Qed.

Lemma total_weaken {A} (m : M A) (Q Q' : A -> Prop) :
  total m Q -> (forall a, Q a -> Q' a) -> total m Q'.
Proof. intros H HQ w. destruct (H w) as (w' & a & E & Ha). eauto. Qed.

Lemma total_ret {A} (a : A) (Q : A -> Prop) : Q a -> total (mret a) Q.
Proof. intros Ha w. by exists w, a. Qed.

Lemma total_bind {A B} (m : M A) (k : A -> M B) Q Q' :
  total m Q -> (forall a, Q a -> total (k a) Q') -> total (m ≫= k) Q'.
Proof.
  intros Hm Hk w. destruct (Hm w) as (w1 & a & E & Ha).
  rewrite (bind_ok _ _ _ _ _ E). by apply Hk.
Qed.

Lemma total_get : total get (fun _ => True).
Proof. intros w. by exists w, w. Qed.

Lemma total_modify f : total (modify f) (fun _ => True).
Proof. intros w. by exists (f w), tt. Qed.

Lemma total_when b m : total m (fun _ => True) -> total (when b m) (fun _ => True).
Proof. destruct b; [done | intros _; by apply total_ret]. Qed.

Lemma total_try_catch {A} (m : M A) h Q : total m Q -> total (try_catch m h) Q.
Proof.
  intros Hm w. destruct (Hm w) as (w1 & a & E & Ha).
  exists w1, a. unfold try_catch. by rewrite E.
Qed.

Lemma len_zeros n : 0 <= n -> len (zeros n) = n.
Proof. intros. unfold len, zeros. rewrite length_replicate. lia. Qed.

Lemma len_imageDataBytes content width height :
  0 <= width * height * 4 -> len (imageDataBytes content width height) = width * height * 4.
Proof. intros. unfold len, imageDataBytes. rewrite length_fmap, length_seq. lia. Qed.

Section PoolFacts.

Context (p : Platform).

(** A buffer from the pool has the size that was asked for, whether it is a
    recycled one or a fresh one. *)
Lemma getPixelBuffer_length size w w' buffer :
  0 <= size ->
  getPixelBuffer p size w = (w', inr buffer) -> len buffer = size.
Proof.
  intros Hsize H. unfold getPixelBuffer in H.
  apply bind_inr in H as (w1 & w0 & Hget & H). injection Hget as <- <-.
  destruct (list_find _ _) as [[i b] |] eqn:Hfind.
  - apply bind_inr in H as (w2 & u & _ & H). injection H as _ <-.
    by apply list_find_Some in Hfind as (_ & Hlen & _).
  - apply bind_inr in H as (w2 & u & _ & H). injection H as _ <-.
    by apply len_zeros.
Qed.

Lemma total_getPixelBuffer size :
  0 <= size -> alloc p size = true ->
  total (getPixelBuffer p size) (fun buffer => len buffer = size).
Proof.
  intros Hsize Halloc w.
  destruct (getPixelBuffer p size w) as [w' [e | b]] eqn:E.
  - exfalso. unfold getPixelBuffer in E.
    apply bind_inl in E as [E | (w1 & w0 & Hget & E)]; [done |].
    destruct (list_find _ _) as [[i b] |].
    + apply bind_inl in E as [E | (? & ? & _ & E)]; done.
    + rewrite Halloc in E. apply bind_inl in E as [E | (? & ? & _ & E)]; done.
  - exists w', b. split; [done |]. by eapply getPixelBuffer_length.
Qed.

Lemma total_releasePixelBuffer buffer :
  total (releasePixelBuffer buffer) (fun _ => True).
Proof.
  unfold releasePixelBuffer. eapply total_bind; [apply total_get |].
  intros w _. apply total_when, total_modify.
Qed.

Lemma total_getTempCanvas width height :
  total (getTempCanvas width height) (fun _ => True).
Proof.
  unfold getTempCanvas. eapply total_bind; [apply total_get |]. intros w _.
  destruct (list_find _ _) as [[i c] |]; [| by apply total_ret].
  eapply total_bind; [apply total_modify |]. intros _ _. by apply total_ret.
Qed.

Lemma total_releaseTempCanvas canvas :
  total (releaseTempCanvas canvas) (fun _ => True).
Proof.
  unfold releaseTempCanvas. eapply total_bind; [apply total_get |].
  intros w _. apply total_when, total_modify.
Qed.

End PoolFacts.

(** ** The two extraction paths *)

Section ExtractionPaths.

Context (p : Platform) (config : ExportConfig).

Lemma downsamplePixels_length src sw sh tw th w w' result :
  0 <= tw * th * 4 ->
  downsamplePixels p src sw sh tw th w = (w', inr result) ->
  len result = tw * th * 4.
Proof.
  intros Hsize H. unfold downsamplePixels in H.
  apply bind_inr in H as (? & ? & _ & H). apply bind_inr in H as (? & ? & _ & H).
  apply bind_inr in H as (? & ? & _ & H). apply bind_inr in H as (? & content & _ & H).
  apply bind_inr in H as (? & ? & _ & H). apply bind_inr in H as (? & ? & _ & H).
  injection H as _ <-. by apply len_imageDataBytes.
Qed.

(** Method 1 hands on a buffer of the export size whenever it downsamples. *)
Lemma captureWebGL_length i w w' px :
  0 <= actualCanvasWidth p * actualCanvasHeight p * 4 ->
  0 <= exportWidth p config * exportHeight p config * 4 ->
  captureWebGL p config i w = (w', inr px) ->
  exists bytes, px = PxUint8 bytes /\ len bytes = webglSize p config.
Proof.
  intros Hc He H. unfold captureWebGL, webglSize in *.
  apply bind_inr in H as (w1 & buffer & Hbuf & H).
  apply getPixelBuffer_length in Hbuf; [| done].
  apply bind_inr in H as (w2 & full & Hread & H).
  unfold readPixels in Hread.
  apply bind_inr in Hread as (? & content & _ & Hread). injection Hread as _ <-.
  destruct (downsampling config).
  - apply bind_inr in H as (w3 & pixels & Hdown & H).
    apply downsamplePixels_length in Hdown; [| done].
    apply bind_inr in H as (? & ? & _ & H). injection H as _ <-. eauto.
  - injection H as _ <-. eexists. split; [done |].
    unfold len in *. by rewrite length_fmap, length_seq.
Qed.

Lemma captureWebGL_read_fails i :
  gl_readPixels p i = None -> fails (captureWebGL p config i).
Proof.
  intros Hread w. destruct (captureWebGL p config i w) as [w' [e | px]] eqn:E;
    [by eauto |].
  exfalso. unfold captureWebGL in E.
  apply bind_inr in E as (w1 & buffer & _ & E).
  apply bind_inr in E as (w2 & full & E & _).
  unfold readPixels in E. rewrite Hread in E.
  apply bind_inr in E as (? & ? & E & _). done.
Qed.

(** Method 2, and the handler of a failed direct read, hand on the bytes of
    the renderer's array as they are: nothing on these paths resamples. *)
Lemma extractPixels_fallback i w bytes :
  renderer_gl p && useWebGLCapture p = false \/ gl_readPixels p i = None ->
  extract_pixels p i = Some (PxUint8 bytes) ->
  exists w', extractPixels p config i w = (w', inr (PxUint8 bytes)).
Proof.
  intros Hpath Hpx. unfold extractPixels.
  destruct (renderer_gl p && useWebGLCapture p) eqn:Hgl.
  - destruct Hpath as [| Hread]; [done |].
    destruct (captureWebGL_read_fails i Hread w) as (w1 & e & E).
    unfold try_catch. rewrite E, Hpx.
    eexists. unfold emit, modify, mbind, M_bind. simpl. done.
  - exists w. unfold capturePixi. rewrite Hpx. done.
Qed.

Lemma captureFrame_fallback i w bytes :
  renderer_gl p && useWebGLCapture p = false \/ gl_readPixels p i = None ->
  extract_pixels p i = Some (PxUint8 bytes) ->
  len bytes <> 0 ->
  useRawPixels config = true ->
  exists w', captureFrame p config i w
             = (w', inr {| frameData := bytes; frameIndex := i; isRawPixels := true |}).
Proof.
  intros Hpath Hpx Hlen Hraw.
  destruct (extractPixels_fallback i w bytes Hpath Hpx) as (w1 & E).
  exists w1. unfold captureFrame, try_catch.
  rewrite (bind_ok _ _ _ _ _ E). simpl.
  replace (len bytes =? 0) with false by lia. by rewrite Hraw.
Qed.

End ExtractionPaths.

(** C6 (the code at the failing input). Fast preset (export resolution
    0.75) on a 1080 x 1920 canvas: when the direct WebGL read is not
    available, or throws, and the renderer's extraction returns the stage at
    canvas size, the frame keeps all 1080 * 1920 * 4 bytes; the export size
    is 810 x 1440, and the payload is not 810 * 1440 * 4 bytes long. *)
Theorem fallback_frame_not_downsampled p i w bytes :
  canvas_width p = 1080 -> canvas_height p = 1920 ->
  renderer_gl p && canvas_webgl p = false \/ gl_readPixels p i = None ->
  extract_pixels p i = Some (PxUint8 bytes) ->
  len bytes = 1080 * 1920 * 4 ->
  exists w',
    captureFrame p (exportConfig Fast) i w
    = (w', inr {| frameData := bytes; frameIndex := i; isRawPixels := true |})
    /\ exportWidth p (exportConfig Fast) = 810
    /\ exportHeight p (exportConfig Fast) = 1440
    /\ len bytes <> 810 * 1440 * 4.
Proof.
  intros Hw Hh Hpath Hpx Hlen.
  destruct (captureFrame_fallback p (exportConfig Fast) i w bytes Hpath Hpx)
    as (w' & E); [lia | done |].
  exists w'. split; [done |].
  unfold exportWidth, exportHeight, actualCanvasWidth, actualCanvasHeight.
  rewrite Hw, Hh. split; [reflexivity | split; [reflexivity | lia]].
Qed.

(** ** A platform on which every outside call works *)

Lemma total_emit e : total (emit e) (fun _ => True).
Proof. apply total_modify. Qed.

Lemma total_call_true e : total (call true e) (fun _ => True).
Proof. by apply total_ret. Qed.

Lemma total_call_val_Some {A} (a : A) e : total (call_val (Some a) e) (fun x => x = a).
Proof. by apply total_ret. Qed.

Section Healthy.

Context (p : Platform) (config : ExportConfig) (Hp : healthy p config).

Lemma total_convertRGBAToPNG pixels width height quality :
  len pixels <> 0 ->
  total (convertRGBAToPNG p pixels width height quality) (fun _ => True).
Proof.
  intros Hlen. unfold convertRGBAToPNG.
  eapply total_bind; [apply total_getTempCanvas |]. intros canvas _.
  replace (len pixels =? 0) with false by lia.
  eapply total_bind.
  { apply total_when. eapply total_bind; [apply total_emit |].
    intros _ _. apply total_emit. }
  intros _ _. rewrite (healthy_image p config Hp).
  eapply total_bind; [apply total_call_true |]. intros _ _.
  destruct (healthy_blob p config Hp pixels width height quality) as [blob ->].
  eapply total_bind; [apply total_call_val_Some |]. intros b _.
  eapply total_bind; [apply total_releaseTempCanvas |]. intros _ _.
  by apply total_ret.
Qed.

Lemma total_downsamplePixels src sw sh tw th :
  0 <= tw * th * 4 ->
  total (downsamplePixels p src sw sh tw th) (fun r => len r = tw * th * 4).
Proof.
  intros Hsize. unfold downsamplePixels.
  eapply total_bind; [apply total_getTempCanvas |]. intros c1 _.
  rewrite (healthy_image p config Hp).
  eapply total_bind; [apply total_call_true |]. intros _ _.
  eapply total_bind; [apply total_getTempCanvas |]. intros c2 _.
  destruct (healthy_resample p config Hp src sw sh tw th) as [content ->].
  eapply total_bind; [apply total_call_val_Some |]. intros c _.
  eapply total_bind; [apply total_releaseTempCanvas |]. intros _ _.
  eapply total_bind; [apply total_releaseTempCanvas |]. intros _ _.
  apply total_ret. by apply len_imageDataBytes.
Qed.

Lemma total_captureWebGL i :
  total (captureWebGL p config i)
        (fun px => exists bytes, px = PxUint8 bytes /\ len bytes = webglSize p config).
Proof.
  destruct (healthy_canvas p config Hp) as [Hcw Hch].
  destruct (healthy_export p config Hp) as [Hew Heh].
  unfold captureWebGL, webglSize, actualCanvasWidth, actualCanvasHeight.
  eapply total_bind.
  { apply total_getPixelBuffer; [nia | apply (healthy_alloc p config Hp)]. }
  intros buffer Hbuf. unfold readPixels.
  destruct (healthy_read p config Hp i) as [content ->].
  eapply total_bind.
  { eapply total_bind; [apply total_call_val_Some |]. intros c _.
    apply (total_ret _ (fun full => len full = len buffer)).
    unfold len. by rewrite length_fmap, length_seq. }
  intros full Hfull. destruct (downsampling config).
  - eapply total_bind; [apply total_downsamplePixels; nia |]. intros pixels Hpx.
    eapply total_bind; [apply total_releasePixelBuffer |]. intros _ _.
    apply total_ret. eauto.
  - apply total_ret. exists full. split; [done | congruence].
Qed.

(** Every capture task returns, and in raw mode its payload has the size
    the direct read hands on. *)
Lemma total_captureFrame i :
  total (captureFrame p config i)
        (fun f => frameIndex f = i /\
                  (useRawPixels config = true -> len (frameData f) = webglSize p config)).
Proof.
  destruct (healthy_canvas p config Hp) as [Hcw Hch].
  destruct (healthy_export p config Hp) as [Hew Heh].
  assert (Hpos : 0 < webglSize p config).
  { unfold webglSize, actualCanvasWidth, actualCanvasHeight.
    destruct (downsampling config); nia. }
  unfold captureFrame. apply total_try_catch.
  eapply total_bind.
  { unfold extractPixels, useWebGLCapture.
    rewrite (healthy_gl p config Hp), (healthy_context p config Hp). simpl.
    apply total_try_catch, total_captureWebGL. }
  intros px (bytes & -> & Hlen). simpl.
  replace (len bytes =? 0) with false by lia.
  destruct (useRawPixels config).
  - apply total_ret. done.
  - eapply total_bind; [apply total_convertRGBAToPNG; lia |]. intros data _.
    eapply total_bind.
    { apply (total_weaken _ (fun _ => True) (fun _ => True)); [| done].
      destruct (_ && _ && _); [by apply total_ret |].
      destruct (_ && _); [apply total_releasePixelBuffer | by apply total_ret]. }
    intros _ _. apply total_ret. done.
Qed.

Lemma healthy_captureFrame_succeeds i : succeeds (captureFrame p config i).
Proof. eapply total_succeeds, total_captureFrame. Qed.

End Healthy.

(** *** A small healthy platform, for evaluation *)

Lemma demoPlatform_healthy q : healthy demoPlatform (exportConfig q).
Proof.
  split; simpl; try done; try (intros; eexists; done).
  destruct q; vm_compute; done.
Qed.

Lemma capture_sequence_complete_witness :
  exists w' allFrames,
    captureLoop demoPlatform (exportConfig Balanced) 150 idleWorld = (w', inr allFrames)
    /\ length (sortFrames allFrames) = 150%nat
    /\ frameIndex <$> sortFrames allFrames = seq 0 150.
Proof.
  apply (capture_sequence_complete demoPlatform (exportConfig Balanced) 150).
  - lia.
  - simpl. lia.
  - intros i _. apply healthy_captureFrame_succeeds, demoPlatform_healthy.
Defined.

(** ** Which payloads the capture loop releases *)

Lemma total_yields {A B} (f : A -> M B) x y Q :
  total (f x) Q -> yields f x y -> Q y.
Proof.
  intros Ht (w & w' & E). destruct (Ht w) as (w1 & y1 & E1 & Hy). congruence.
Qed.

(** On a healthy platform the loop returns one record per index; the record
    at position [i] has an empty payload exactly when its batch [k] is even,
    at least 2, and [k + 6] is a batch that ran. *)
Lemma captureLoop_payloads p config n w :
  healthy p config -> (0 < frameCaptureSize config)%nat -> (0 < n)%nat ->
  exists w' allFrames,
    captureLoop p config n w = (w', inr allFrames)
    /\ length allFrames = n
    /\ forall i, (i < n)%nat ->
         exists f, allFrames !! i = Some f /\ frameIndex f = i
           /\ if clearedBy (batchSize config n) (batches config n) i
              then frameData f = []
              else useRawPixels config = true ->
                   len (frameData f) = webglSize p config.
Proof.
  intros Hp Hc Hn.
  destruct (captureLoop_succeeds p config n
              (fun i _ => healthy_captureFrame_succeeds p config Hp i) w)
    as (w' & allFrames & H).
  exists w', allFrames. split; [done |].
  destruct (captureLoop_shape p config n w w' allFrames Hc Hn H)
    as (results & Hres & ->).
  assert (Hlen : length results = n).
  { apply Forall2_length in Hres. by rewrite length_seq in Hres. }
  split; [by rewrite length_imap |].
  intros i Hi. destruct (lookup_lt_is_Some_2 results i) as [f Hf]; [lia |].
  assert (Hy : yields (captureFrame p config) i f).
  { eapply (Forall2_lookup_lr _ _ _ i i f Hres); [| done].
    by apply lookup_seq_lt. }
  apply (total_yields _ _ _ _ (total_captureFrame p config Hp i)) in Hy as [Hidx Hraw].
  exists (mark (batchSize config n) (batches config n) i f).
  rewrite list_lookup_imap, Hf. split; [done |].
  rewrite frameIndex_mark. split; [done |].
  unfold mark. destruct (clearedBy _ _ i); done.
Qed.

(** C8 (the code at the failing input). Balanced preset and 180 frames:
    9 batches of 20.  After the loop the frames of batches 0 and 1, which
    are older than 6 batches, still hold their full payload; only batch 2
    (frames 40 to 59) has been released. *)
Theorem old_batches_keep_payload p w :
  healthy p (exportConfig Balanced) ->
  exists w' allFrames,
    captureLoop p (exportConfig Balanced) 180 w = (w', inr allFrames)
    /\ batches (exportConfig Balanced) 180 = 9%nat
    /\ (forall i, (i < 40)%nat ->
          exists f, allFrames !! i = Some f /\ frameIndex f = i
                    /\ len (frameData f) = canvas_width p * canvas_height p * 4
                    /\ 0 < len (frameData f))
    /\ (forall i, (40 <= i < 60)%nat ->
          exists f, allFrames !! i = Some f /\ frameIndex f = i /\ frameData f = []).
Proof.
  intros Hp.
  destruct (captureLoop_payloads p (exportConfig Balanced) 180 w Hp)
    as (w' & allFrames & H & _ & Hall); [simpl; lia | lia |].
  exists w', allFrames. split; [done |]. split; [reflexivity |].
  change (batchSize (exportConfig Balanced) 180) with 20%nat in Hall.
  change (batches (exportConfig Balanced) 180) with 9%nat in Hall.
  destruct (healthy_canvas _ _ Hp) as [Hcw Hch].
  split.
  - intros i Hi. destruct (Hall i) as (f & Hf & Hidx & Hpay); [lia |].
    exists f. split; [done |]. split; [done |].
    replace (clearedBy 20 9 i) with false in Hpay by (unfold clearedBy; lia).
    rewrite Hpay by done. unfold webglSize, actualCanvasWidth, actualCanvasHeight.
    simpl. split; [done | nia].
  - intros i Hi. destruct (Hall i) as (f & Hf & Hidx & Hpay); [lia |].
    exists f. split; [done |]. split; [done |].
    by replace (clearedBy 20 9 i) with true in Hpay by (unfold clearedBy; lia).
Qed.

Lemma old_batches_keep_payload_witness :
  exists w' allFrames,
    captureLoop demoPlatform (exportConfig Balanced) 180 idleWorld = (w', inr allFrames)
    /\ batches (exportConfig Balanced) 180 = 9%nat
    /\ (forall i, (i < 40)%nat ->
          exists f, allFrames !! i = Some f /\ frameIndex f = i
                    /\ len (frameData f) = 4 * 4 * 4
                    /\ 0 < len (frameData f))
    /\ (forall i, (40 <= i < 60)%nat ->
          exists f, allFrames !! i = Some f /\ frameIndex f = i /\ frameData f = []).
Proof.
  apply (old_batches_keep_payload demoPlatform idleWorld).
  apply (demoPlatform_healthy Balanced).
Defined.

(** ** Raw concatenation *)

Lemma bind_ext {A B} (m : M A) (k k' : A -> M B) w :
  (forall a w1, k a w1 = k' a w1) -> (m ≫= k) w = (m ≫= k') w.
Proof.
  intros Hk. unfold mbind, M_bind. destruct (m w) as [w1 [e | a]]; [done | apply Hk].
Qed.

(** A loop over chunks of a range visits the range in order. *)
Lemma foldM_chunks {St} (f : St -> nat -> M St) (n size : nat) (s : St) w :
  (0 < size)%nat ->
  foldM (seq 0 (ceil_div n size))
    (fun s k => foldM (seq (k * size) (Nat.min (k * size + size) n - k * size)) f s) s w
  = foldM (seq 0 n) f s w.
Proof.
  intros Hsize.
  assert (Hgen : forall count b s w,
    (b + count = ceil_div n size)%nat ->
    foldM (seq b count)
      (fun s k => foldM (seq (k * size) (Nat.min (k * size + size) n - k * size)) f s) s w
    = foldM (seq (b * size) (n - b * size)) f s w).
  { induction count as [| count IH]; intros b s0 w0 Hb.
    - replace (n - b * size)%nat with 0%nat; [done |].
      unfold ceil_div in Hb. nia.
    - simpl foldM at 1.
      assert (b * size < n)%nat by (unfold ceil_div in Hb; nia).
      replace (n - b * size)%nat
        with ((Nat.min (b * size + size) n - b * size)
              + (n - Nat.min (b * size + size) n))%nat by lia.
      rewrite seq_app, foldM_app. apply bind_ext. intros s1 w1.
      rewrite IH by lia.
      destruct (decide (S b * size <= n)%nat).
      + replace (b * size + (Nat.min (b * size + size) n - b * size))%nat
          with (S b * size)%nat by lia.
        by replace (n - Nat.min (b * size + size) n)%nat with (n - S b * size)%nat by lia.
      + replace (n - Nat.min (b * size + size) n)%nat with 0%nat by lia.
        by replace (n - S b * size)%nat with 0%nat by lia. }
  rewrite Hgen by lia. simpl. by rewrite Nat.sub_0_r.
Qed.

Lemma typed_set_empty target offset :
  (offset <= length target)%nat -> typed_set target [] offset = Some target.
Proof.
  intros H. unfold typed_set. simpl.
  replace (offset + 0 <=? length target)%nat with true by lia.
  by rewrite Nat.add_0_r, take_drop.
Qed.

Lemma typed_set_Some target source offset result :
  typed_set target source offset = Some result ->
  length result = length target
  /\ forall pos, (pos < offset \/ offset + length source <= pos)%nat ->
                 result !! pos = target !! pos.
Proof.
  unfold typed_set. intros H.
  destruct (offset + length source <=? length target)%nat eqn:Hfit; [| done].
  injection H as <-. split.
  - rewrite !length_app, length_take, length_drop. lia.
  - intros pos Hpos. destruct Hpos as [Hlt | Hge].
    + rewrite lookup_app_l by (rewrite length_take; lia).
      by rewrite lookup_take_lt.
    + rewrite lookup_app_r by (rewrite length_take; lia).
      rewrite length_take, lookup_app_r by lia.
      rewrite lookup_drop. f_equal. lia.
Qed.

Lemma findFrame_Some allFrames i f :
  findFrame allFrames i = Some f -> f ∈ allFrames /\ frameIndex f = i.
Proof.
  unfold findFrame. destruct (list_find _ _) as [[j g] |] eqn:E; [| done].
  simpl. intros [= ->]. apply list_find_Some in E as (Hj & Hi & _).
  split; [by eapply list_elem_of_lookup_2 | done].
Qed.

Section RawBuffer.

Context (p : Platform) (config : ExportConfig) (frameCount : nat).
Context (allFrames : list FrameData).

Local Abbreviation fpc := (framePixelCount p config).

Hypothesis fpc_nonneg : 0 <= fpc.

(** The Frame Record invariant of raw mode, up to released payloads: no
    payload is longer than one frame of the export size. *)
Hypothesis payloads_fit :
  Forall (fun f => len (frameData f) <= fpc) allFrames.

Lemma placeFrame_untouched i k raw w :
  (k < frameCount)%nat ->
  (findFrame allFrames i = None
   \/ exists f, findFrame allFrames i = Some f /\ frameData f = []) ->
  untouched p config frameCount i k raw ->
  exists raw', placeFrame p config allFrames raw k w = (w, inr raw')
               /\ untouched p config frameCount i (S k) raw'.
Proof.
  intros Hk Hi [Hlen Hzero]. unfold placeFrame. fold fpc.
  destruct (findFrame allFrames k) as [frame |] eqn:Hfind.
  - apply findFrame_Some in Hfind as Hin. destruct Hin as [Hin _].
    rewrite Forall_forall in payloads_fit. specialize (payloads_fit frame Hin).
    simpl in payloads_fit. unfold len in *.
    destruct (typed_set raw (frameData frame) (Z.to_nat (Z.of_nat k * fpc)))
      as [raw' |] eqn:Hset.
    + exists raw'. split; [done |].
      apply typed_set_Some in Hset as [Hlen' Hsame].
      split; [unfold len; lia |].
      intros pos Hpos Hbound.
      destruct (decide (k = i)) as [-> | Hne].
      * destruct Hi as [Hi | (f & Hi & Hf)]; [congruence |].
        assert (frame = f) as -> by congruence.
        rewrite Hsame by (rewrite Hf; simpl; lia). apply Hzero; [| done].
        destruct Hpos as [Hpos | Hpos]; [left; nia | by right].
      * rewrite Hsame; [apply Hzero; [| done] |].
        -- destruct Hpos as [Hpos | Hpos]; [left; nia | by right].
        -- destruct Hpos as [Hpos | Hpos]; [right; nia |].
           destruct (decide (i < k)%nat); [left; nia | right; nia].
    + exfalso. unfold typed_set in Hset.
      destruct (_ <=? _)%nat eqn:Hfit; [done |]. nia.
  - exists raw. split; [done |]. split; [done |].
    intros pos Hpos Hbound. apply Hzero; [| done].
    destruct Hpos as [Hpos | Hpos]; [left; nia | by right].
Qed.

Lemma placeFrames_untouched i count k raw w :
  (k + count = frameCount)%nat ->
  (findFrame allFrames i = None
   \/ exists f, findFrame allFrames i = Some f /\ frameData f = []) ->
  untouched p config frameCount i k raw ->
  exists raw', foldM (seq k count) (placeFrame p config allFrames) raw w = (w, inr raw')
               /\ untouched p config frameCount i frameCount raw'.
Proof.
  intros Hk Hi. revert k raw Hk.
  induction count as [| count IH]; intros k raw Hk Hinv; simpl.
  - exists raw. split; [done |]. destruct Hinv as [Hlen Hzero]. split; [done |].
    intros pos Hpos Hbound. apply Hzero; [| done].
    destruct Hpos as [Hpos | Hpos]; [left; nia | by right].
  - destruct (placeFrame_untouched i k raw w) as (raw1 & E & Hinv1); [lia | done | done |].
    rewrite (bind_ok _ _ _ _ _ E). apply IH; [lia | done].
Qed.

End RawBuffer.




(** ** Transport selection *)

Lemma largeVideo_spec fpc frameCount :
  largeVideo fpc frameCount = true <-> 1610612736 < fpc * Z.of_nat frameCount.
Proof.
  unfold largeVideo, totalMemoryGB.
  rewrite negb_true_iff, <- not_true_iff_false, Qle_bool_iff.
  unfold Qle, Qdiv, Qmult, Qinv, inject_Z. simpl. lia.
Qed.

Lemma reelPlatform_healthy q : healthy reelPlatform (exportConfig q).
Proof.
  split; simpl; try done; try (intros; eexists; done).
  destruct q; vm_compute; done.
Qed.

Lemma fallback_frame_not_downsampled_witness :
  exists w',
    captureFrame noWebGLPlatform (exportConfig Fast) 5 idleWorld
    = (w', inr {| frameData := zeros (1080 * 1920 * 4); frameIndex := 5;
                  isRawPixels := true |})
    /\ exportWidth noWebGLPlatform (exportConfig Fast) = 810
    /\ exportHeight noWebGLPlatform (exportConfig Fast) = 1440
    /\ len (zeros (1080 * 1920 * 4)) <> 810 * 1440 * 4.
Proof.
  apply (fallback_frame_not_downsampled noWebGLPlatform 5 idleWorld
           (zeros (1080 * 1920 * 4))).
  - reflexivity.
  - reflexivity.
  - left. reflexivity.
  - reflexivity.
  - apply len_zeros. lia.
Defined.

(** ** The pixel transcoder and buffers of the wrong size *)

(** Past its own checks the transcoder hands a non-empty buffer of the
    wrong size to the canvas: it logs the two mismatch warnings and nothing
    else, and its outcome is the outcome of the canvas encoding. *)
Lemma mismatch_reaches_canvas p pixels width height quality w :
  len pixels <> 0 ->
  len pixels <> width * height * 4 ->
  exists w',
    convertRGBAToPNG p pixels width height quality w
    = (w', canvasEncode p pixels width height quality)
    /\ log w' = log w ++ [ConsoleWarn (PixelSizeMismatch (width * height * 4) (len pixels));
                          ConsoleWarn ResolutionMismatchHint].
Proof.
  intros Hne Hmis.
  unfold convertRGBAToPNG, canvasEncode, getTempCanvas, releaseTempCanvas, emit,
    call, call_val, when, modify, get, mbind, M_bind, mret, M_ret, throw.
  replace (len pixels =? 0) with false by lia.
  replace (len pixels =? width * height * 4) with false by lia.
  simpl.
  destruct (list_find _ (tempCanvasPool w)) as [[i c] |];
    destruct (new_ImageData p pixels width height);
    destruct (canvas_toBlob p pixels width height quality); simpl;
    repeat case_bool_decide; simpl;
    eexists; (split; [reflexivity | simpl; by rewrite <- app_assoc]).
Qed.

(** C7 (the code against the claim). With the [ImageData] constructor of a
    browser, the transcoder hard-fails on every buffer whose length differs
    from width * height * 4 and produces no output: an empty buffer is
    rejected by the transcoder's own guard; for any other buffer it logs the
    two mismatch warnings, goes on as its comment announces, and the
    constructor it calls next throws. *)
Theorem size_mismatch_hard_fails p pixels width height quality w :
  standardImageData p ->
  0 < width < 2 ^ 32 -> 0 < height < 2 ^ 32 ->
  len pixels <> width * height * 4 ->
  exists w',
    convertRGBAToPNG p pixels width height quality w
    = (w', inl (if len pixels =? 0 then EmptyPixelData width height else ImageDataError))
    /\ log w'
       = log w ++ (if len pixels =? 0 then []
                   else [ConsoleWarn (PixelSizeMismatch (width * height * 4) (len pixels));
                         ConsoleWarn ResolutionMismatchHint]).
Proof.
  intros Hstd Hw Hh Hmis. destruct (len pixels =? 0) eqn:Hempty.
  - unfold convertRGBAToPNG, getTempCanvas, modify, get, mbind, M_bind, mret, M_ret,
      throw.
    rewrite Hempty.
    destruct (list_find _ (tempCanvasPool w)) as [[i c] |]; simpl;
      eexists; (split; [reflexivity | simpl; by rewrite app_nil_r]).
  - destruct (mismatch_reaches_canvas p pixels width height quality w) as (w' & E & Hlog);
      [lia | done |].
    exists w'. split; [| done]. rewrite E. unfold canvasEncode.
    rewrite (Hstd pixels width height Hw Hh).
    by replace (len pixels =? width * height * 4) with false by lia.
Qed.

Lemma browserPlatform_standard : standardImageData browserPlatform.
Proof. intros pixels width height _ _. reflexivity. Qed.

Lemma size_mismatch_hard_fails_witness :
  exists w',
    convertRGBAToPNG browserPlatform [Byte.x01; Byte.x02; Byte.x03] 1 1 (9 # 10) idleWorld
    = (w', inl (if len [Byte.x01; Byte.x02; Byte.x03] =? 0
                then EmptyPixelData 1 1 else ImageDataError))
    /\ log w'
       = log idleWorld
         ++ (if len [Byte.x01; Byte.x02; Byte.x03] =? 0 then []
             else [ConsoleWarn (PixelSizeMismatch (1 * 1 * 4)
                                  (len [Byte.x01; Byte.x02; Byte.x03]));
                   ConsoleWarn ResolutionMismatchHint]).
Proof.
  apply (size_mismatch_hard_fails browserPlatform [Byte.x01; Byte.x02; Byte.x03] 1 1
           (9 # 10) idleWorld).
  - apply browserPlatform_standard.
  - lia.
  - lia.
  - vm_compute. discriminate.
Defined.

(** ** The restore step *)

Lemma unhide_idem o : unhide (unhide o) = unhide o.
Proof. unfold unhide. destruct o as [v [orig |]]; done. Qed.

Lemma restoreFilters_idem s : restoreFilters (restoreFilters s) = restoreFilters s.
Proof. unfold restoreFilters. destruct s as [f [orig |]]; done. Qed.

Lemma disableExportMode_idem c :
  disableExportMode (disableExportMode c) = disableExportMode c.
Proof.
  unfold disableExportMode.
  destruct c as [[app |] [effects |] haze grain background mode]; simpl; try done.
  rewrite restoreFilters_idem, unhide_idem.
  destruct haze, grain, background; simpl; by rewrite ?unhide_idem.
Qed.

(** C9. Running the restore step (setExportMode(false), then the ticker and
    play-state restoration of the [finally] block) a second time leaves the
    rendering state as the first run left it. *)
Theorem restore_idempotent w :
  renderState (restoreStep (restoreStep w).1).1 = renderState (restoreStep w).1.
Proof.
  unfold renderState, restoreStep, setExportMode, emit, when, modify, get,
    mbind, M_bind, mret, M_ret, setExportMode_state, disableExportMode,
    with_app, with_pixi, with_isPlaying, with_log, set_started.
  destruct w as [mounted c playing exp loaded [wasP wasT app] pool canvases l].
  destruct c as [[a |] [effects |] haze grain background mode];
    destruct mounted, wasP, wasT, app; simpl;
    rewrite ?restoreFilters_idem, ?unhide_idem;
    destruct haze, grain, background; simpl; rewrite ?unhide_idem; reflexivity.
Qed.

(** ** Sessions: what [handleExport] leaves behind *)

Section SessionFacts.

Context (p : Platform) (settings : Settings).

Lemma core_inv w w' :
  core w = core w' ->
  pixiCanvasRef w = pixiCanvasRef w' /\ pixi w = pixi w' /\ isPlaying w = isPlaying w'
  /\ exporting w = exporting w' /\ ffmpeg_loaded w = ffmpeg_loaded w'
  /\ locals w = locals w'.
Proof. unfold core. intros [= -> -> -> -> -> ->]. done. Qed.

Lemma core_with_app f w w' :
  core w = core w' -> core (with_app f w) = core (with_app f w').
Proof.
  intros H. apply core_inv in H as (H1 & H2 & H3 & H4 & H5 & H6).
  unfold core, with_app, with_pixi. simpl. by rewrite H1, H2, H3, H4, H5, H6.
Qed.

(** The capture stage puts [textureGC.maxIdle] back and moves nothing else of
    the core state, whether the loop returns or throws. *)
Lemma captureStage_core originalMaxIdle w :
  core (captureStage p settings originalMaxIdle w).1
  = core (with_app (set_maxIdle originalMaxIdle) w).
Proof.
  unfold captureStage, try_finally, mbind, M_bind, modify, emit. simpl.
  destruct (captureLoop _ _ _ _) as [w2 r] eqn:E.
  pose proof (core_captureLoop p (sessionConfig settings) (sessionFrameCount settings) w)
    as Hc.
  rewrite E in Hc. simpl in Hc. simpl.
  symmetry. apply (core_with_app _ w (with_log _ w2)). exact Hc.
Qed.

Lemma quiet_captureStage originalMaxIdle :
  stable (logs before_encoding) (captureStage p settings originalMaxIdle).
Proof.
  unfold captureStage. apply stable_try_finally; [apply _ | apply quiet_captureLoop |].
  stable_steps logs_base.
Qed.

Lemma captureAndEncode_core w app :
  appRef (pixi w) = Some app ->
  core (captureAndEncode p settings w).1 = core (capturing app w).
Proof.
  intros Happ. unfold captureAndEncode.
  rewrite (bind_ok _ _ w w w) by done. rewrite Happ.
  pose (w1 := with_locals (fun l =>
    {| wasPlaying := wasPlaying l; wasTickerRunning := started (ticker app);
       pixiApp := true |}) w).
  rewrite (bind_ok _ _ w w1 tt) by done.
  pose (w2 := if started (ticker app) then w1 else with_app (set_started true) w1).
  rewrite (bind_ok _ _ w1 w2 tt) by (subst w2; by destruct (started (ticker app))).
  pose (w3 := with_app (set_maxIdle MAX_SAFE_INTEGER) w2).
  rewrite (bind_ok _ _ w2 w3 tt) by done.
  assert (Hrest : forall a, stable same_core
    ((fun allFrames =>
        let allFrames := sortFrames allFrames in
        useRaw ← writeStage p (sessionConfig settings) (sessionFrameCount settings) allFrames;
        encodeStage p (sessionConfig settings) (sessionFrameCount settings) settings useRaw) a)).
  { intros a. apply stable_bind; [apply _ | apply core_writeStage |].
    intros useRaw. apply core_encodeStage. }
  assert (Hstage : core (captureStage p settings (textureGC_maxIdle app) w3).1
                   = core (capturing app w)).
  { rewrite captureStage_core. subst w3 w2 w1. unfold capturing, core.
    destruct w as [mounted c playing exp loaded l pool canvases lg]. simpl in *.
    destruct c as [a effects haze grain background mode]. simpl in *. subst a.
    destruct app as [st [run maxf minf] idle]. simpl. by destruct run. }
  unfold mbind at 1, M_bind.
  destruct (captureStage p settings (textureGC_maxIdle app) w3) as [w4 [e | frames]];
    simpl in *; [done |].
  rewrite <- Hstage. symmetry. apply (Hrest frames w4).
Qed.

Lemma setExportMode_true w :
  setExportMode true w = (with_pixi enableExportMode w, inr tt).
Proof. reflexivity. Qed.

Lemma startSession_core w :
  core (startSession p settings w).1 = core (afterStart w).
Proof.
  unfold startSession, afterStart.
  rewrite (bind_ok _ _ w w w) by done.
  destruct (appRef (pixi w)) as [app |] eqn:Happ; [| done].
  rewrite (bind_ok _ _ _ _ _ (setExportMode_true w)).
  pose (w2 := with_locals (fun l =>
    {| wasPlaying := isPlaying w; wasTickerRunning := wasTickerRunning l;
       pixiApp := pixiApp l |}) (with_pixi enableExportMode w)).
  rewrite (bind_ok _ _ _ w2 tt) by done.
  assert (Hplay : exists w3, when (negb (isPlaying w)) (modify (with_isPlaying true)) w2
                             = (w3, inr tt) /\ core w3 = core (sessionStarted w)).
  { destruct (isPlaying w) eqn:Hp; simpl; eexists; (split; [reflexivity |]).
    - unfold core, sessionStarted. simpl. by rewrite Hp.
    - unfold core, sessionStarted. simpl. by rewrite Hp. }
  destruct Hplay as (w3 & E3 & Hc3).
  rewrite (bind_ok _ _ _ _ _ E3).
  apply core_inv in Hc3 as Hc3'. destruct Hc3' as (H1 & H2 & H3 & H4 & H5 & H6).
  destruct (appRef (pixi (sessionStarted w))) as [app3 |] eqn:Happ3.
  - rewrite (captureAndEncode_core w3 app3) by congruence.
    unfold capturing, core, with_app, with_locals, with_pixi. simpl.
    by rewrite H1, H2, H3, H4, H5, H6.
  - exfalso. unfold sessionStarted in Happ3. simpl in Happ3.
    unfold enableExportMode in Happ3. rewrite Happ in Happ3.
    by destruct (effectsLayerRef (pixi w)).
Qed.

Lemma try_finally_world {A} (m : M A) (f : M unit) w :
  (try_finally m f w).1 = (f (m w).1).1.
Proof.
  unfold try_finally. destruct (m w) as [w1 r]. simpl.
  by destruct (f w1) as [w2 [e | u]].
Qed.

Lemma restoreStep_renderState w : renderState (restoreStep w).1 = restoredState w.
Proof.
  unfold renderState, restoredState, restoreStep, setExportMode, emit, when, modify,
    get, mbind, M_bind, mret, M_ret.
  destruct w as [mounted c playing exp loaded [wasP wasT app] pool canvases lg].
  simpl.
  destruct mounted, wasP, wasT, app; simpl; try reflexivity;
    destruct (_ && _); reflexivity.
Qed.

Lemma restoredState_core w w' : core w = core w' -> restoredState w = restoredState w'.
Proof.
  intros H. apply core_inv in H as (H1 & H2 & H3 & H4 & H5 & H6).
  destruct w, w'. simpl in *. subst.
  unfold restoredState. simpl. destruct (_ && _); reflexivity.
Qed.

Lemma core_reportFailure e : stable same_core (reportFailure e).
Proof. unfold reportFailure, emit. stable_steps core_base. Qed.

Lemma afterStart_core w w' : core w = core w' -> core (afterStart w) = core (afterStart w').
Proof.
  intros H. apply core_inv in H as (H1 & H2 & H3 & H4 & H5 & H6).
  destruct w, w'. simpl in *. subst.
  unfold afterStart, sessionStarted. simpl.
  destruct (appRef _); [| done]. destruct (appRef _); done.
Qed.

Lemma ensureLoaded_run w :
  ensureLoaded p w
  = if ffmpeg_loaded w then (w, inr tt)
    else if ffmpeg_load p
         then (with_log (fun l => l ++ [Toast ToastInfo])
                 (with_ffmpeg_loaded true (with_log (fun l => l ++ [FFLoad]) w)),
               inr tt)
         else (with_log (fun l => l ++ [FFLoad]) w, inl FFmpegLoadError).
Proof.
  unfold ensureLoaded. rewrite (bind_ok _ _ w w w) by done.
  destruct (ffmpeg_loaded w); [done |].
  destruct (ffmpeg_load p); reflexivity.
Qed.

Lemma sessionBody_core w :
  core (sessionBody p settings w).1
  = if ffmpeg_loaded w || ffmpeg_load p
    then core (afterStart (with_ffmpeg_loaded true w))
    else core w.
Proof.
  unfold sessionBody. unfold mbind, M_bind. rewrite ensureLoaded_run.
  destruct (ffmpeg_loaded w) eqn:Hloaded; simpl.
  - assert (Hw : with_ffmpeg_loaded true w = w).
    { destruct w. simpl in *. by subst. }
    rewrite Hw. apply startSession_core.
  - destruct (ffmpeg_load p) eqn:Hload; [| done].
    rewrite startSession_core. by apply afterStart_core.
Qed.

(** The rendering state after a session, on every path through it. *)
Lemma handleExport_renderState w :
  exporting w = false -> pixiCanvasRef w = true ->
  renderState (handleExport p settings w).1
  = (disableExportMode (if reachesCapture p w then enableExportMode (pixi w) else pixi w),
     if reachesCapture p w then isPlaying w else false).
Proof.
  intros Hexp Hmounted. unfold handleExport.
  rewrite (bind_ok _ _ w w w) by done. rewrite Hexp, Hmounted. cbn [orb negb].
  rewrite (bind_ok _ _ w _ tt) by done.
  rewrite (bind_ok _ _ _ _ tt) by done.
  set (w0 := with_locals _ _).
  rewrite try_finally_world, restoreStep_renderState.
  assert (Hcatch : core (try_catch (sessionBody p settings) reportFailure w0).1
                   = core (sessionBody p settings w0).1).
  { unfold try_catch. destruct (sessionBody p settings w0) as [w1 [e | u]]; [| done].
    symmetry. apply core_reportFailure. }
  rewrite (restoredState_core _ _ Hcatch).
  pose proof (sessionBody_core w0) as Hbody.
  unfold reachesCapture.
  replace (ffmpeg_loaded w0) with (ffmpeg_loaded w) in Hbody by done.
  destruct (ffmpeg_loaded w || ffmpeg_load p).
  - rewrite (restoredState_core _ _ Hbody). subst w0. clear Hcatch Hbody.
    destruct w as [mounted c playing exp loaded l pool canvases lg].
    cbn [pixiCanvasRef] in Hmounted. subst mounted.
    destruct c as [[[st [run maxf minf] idle] |] [effects |] haze grain background mode];
      destruct playing; try destruct run; reflexivity.
  - rewrite (restoredState_core _ _ Hbody). subst w0. clear Hcatch Hbody.
    destruct w as [mounted c playing exp loaded l pool canvases lg].
    cbn [pixiCanvasRef] in Hmounted. subst mounted. reflexivity.
Qed.

(** *** A session in which a frame cannot be extracted *)

Lemma preset_capture_size key : (0 < frameCaptureSize (config_of_key key))%nat.
Proof. unfold config_of_key. destruct (default Balanced _); simpl; lia. Qed.

Lemma quiet_staging originalMaxIdle :
  stable (logs before_encoding) (staging p settings originalMaxIdle).
Proof.
  unfold staging. apply stable_bind; [apply _ | apply quiet_captureStage |].
  intros allFrames. apply quiet_writeStage.
Qed.

Lemma captureStage_fails i originalMaxIdle :
  (i < sessionFrameCount settings)%nat ->
  fails (captureFrame p (sessionConfig settings) i) ->
  fails (captureStage p settings originalMaxIdle).
Proof.
  intros frame_in_range frame_fails w. unfold captureStage, try_finally.
  destruct (captureLoop _ _ _ w) as [w2 [e | frames]] eqn:E.
  - unfold emit, modify, mbind, M_bind. simpl. eauto.
  - exfalso.
    apply captureLoop_shape in E as (results & Hres & _);
      [| apply preset_capture_size | lia].
    destruct (Forall2_lookup_l _ _ _ i i Hres) as (f & _ & (w3 & w4 & Hf)).
    { by apply lookup_seq_lt. }
    destruct (frame_fails w3) as (w5 & e & He). congruence.
Qed.

Section StagingFails.

Hypothesis staging_fails : forall originalMaxIdle, fails (staging p settings originalMaxIdle).

Lemma captureAndEncode_fails_quiet w :
  exists w' e, captureAndEncode p settings w = (w', inl e)
               /\ logs before_encoding w w'.
Proof.
  unfold captureAndEncode. rewrite (bind_ok _ _ w w w) by done.
  destruct (appRef (pixi w)) as [app |].
  - rewrite (bind_ok _ _ w _ tt) by done.
    set (w1 := with_locals _ w).
    pose (w2 := if started (ticker app) then w1 else with_app (set_started true) w1).
    rewrite (bind_ok _ _ w1 w2 tt) by (subst w2; by destruct (started (ticker app))).
    rewrite (bind_ok _ _ w2 _ tt) by done.
    set (w3 := with_app _ w2).
    destruct (staging_fails (textureGC_maxIdle app) w3) as (w4 & e & E).
    pose proof (quiet_staging (textureGC_maxIdle app) w3) as Hq.
    rewrite E in Hq. simpl in Hq.
    exists w4, e. split.
    + unfold staging in E.
      apply bind_inl in E as [E | (w5 & frames & E1 & E2)].
      * by rewrite (bind_fail _ _ _ _ _ E).
      * rewrite (bind_ok _ _ _ _ _ E1). cbv zeta.
        by rewrite (bind_fail _ _ _ _ _ E2).
    + destruct Hq as (evs & Hlog & Hevs). exists evs. split; [| done].
      rewrite Hlog. f_equal. subst w3 w2 w1. by destruct (started (ticker app)).
  - exists w, PixiAppNotAvailable. split; [done | reflexivity].
Qed.

Lemma startSession_fails_quiet w :
  exists w' r pre,
    startSession p settings w = (w', r)
    /\ log w' = log w ++ pre /\ Forall before_encoding pre
    /\ (r = inr tt -> exists pre1, pre = pre1 ++ [Toast ToastError]).
Proof.
  unfold startSession. rewrite (bind_ok _ _ w w w) by done.
  destruct (appRef (pixi w)) as [app |].
  - rewrite (bind_ok _ _ _ _ _ (setExportMode_true w)).
    rewrite (bind_ok _ _ _ _ tt) by done.
    set (w2 := with_locals _ _).
    pose (w3 := if isPlaying w then w2 else with_isPlaying true w2).
    rewrite (bind_ok _ _ w2 w3 tt) by (subst w3; by destruct (isPlaying w)).
    destruct (captureAndEncode_fails_quiet w3) as (w4 & e & E & (pre & Hlog & Hpre)).
    exists w4, (inl e), pre. split; [done |]. split; [| split; [done | done]].
    rewrite Hlog. f_equal. subst w3 w2. by destruct (isPlaying w).
  - eexists _, (inr tt), [ConsoleError CanvasNotFound; Toast ToastError].
    split; [reflexivity |]. split; [cbn; by rewrite <- app_assoc |].
    split; [by repeat constructor |]. intros _. by exists [ConsoleError CanvasNotFound].
Qed.

Lemma sessionBody_fails_quiet w :
  exists w' r pre,
    sessionBody p settings w = (w', r)
    /\ log w' = log w ++ pre /\ Forall before_encoding pre
    /\ (r = inr tt -> exists pre1, pre = pre1 ++ [Toast ToastError]).
Proof.
  unfold sessionBody, mbind, M_bind. rewrite ensureLoaded_run.
  destruct (ffmpeg_loaded w).
  - apply startSession_fails_quiet.
  - destruct (ffmpeg_load p).
    + set (w1 := with_log _ (with_ffmpeg_loaded true _)).
      destruct (startSession_fails_quiet w1) as (w' & r & pre & E & Hlog & Hpre & Hr).
      exists w', r, ([FFLoad; Toast ToastInfo] ++ pre).
      split; [done |]. split; [| split].
      * rewrite Hlog. subst w1. simpl. by rewrite <- !app_assoc.
      * apply Forall_app. split; [by repeat constructor | done].
      * intros Hr'. destruct (Hr Hr') as (pre1 & ->).
        exists ([FFLoad; Toast ToastInfo] ++ pre1). by rewrite app_assoc.
    + eexists _, (inl FFmpegLoadError), [FFLoad].
      split; [reflexivity |]. split; [done |]. split; [by repeat constructor | done].
Qed.

Lemma restoreStep_returns w :
  exists w' post, restoreStep w = (w', inr tt)
                  /\ log w' = log w ++ post /\ Forall restore_event post.
Proof.
  unfold restoreStep, setExportMode, emit, when, modify, get, mbind, M_bind, mret, M_ret.
  destruct (pixiCanvasRef w); simpl.
  - destruct (_ && _); destruct (_ && _); simpl;
      destruct (negb _); simpl; eexists _, _;
      (split; [reflexivity |]); simpl; rewrite <- ?app_assoc;
      (split; [reflexivity |]); repeat constructor; unfold restore_event; tauto.
  - destruct (negb _); simpl; eexists _, _;
      (split; [reflexivity |]); simpl;
      (split; [reflexivity |]); repeat constructor; unfold restore_event; tauto.
Qed.

(** A session that fails before the encoder: the handler reports the
    failure, then the restore step runs; the encoder is never started. *)
Lemma handleExport_fails_quiet w :
  exporting w = false -> pixiCanvasRef w = true ->
  exists w' pre post,
    handleExport p settings w = (w', inr tt)
    /\ log w' = log w ++ pre ++ Toast ToastError :: post
    /\ Forall before_encoding pre /\ Forall restore_event post.
Proof.
  intros Hexp Hmounted. unfold handleExport.
  rewrite (bind_ok _ _ w w w) by done. rewrite Hexp, Hmounted. cbn [orb negb].
  rewrite (bind_ok _ _ w _ tt) by done.
  rewrite (bind_ok _ _ _ _ tt) by done.
  set (w0 := with_locals _ _).
  assert (Hlog0 : log w0 = log w) by done.
  clearbody w0. unfold try_finally, try_catch.
  destruct (sessionBody_fails_quiet w0) as (w1 & r & pre & E & Hlog & Hpre & Hr).
  rewrite E. destruct r as [e | []].
  - pose (w2 := with_log (fun l => l ++ [Toast ToastError])
                  (with_log (fun l => l ++ [ConsoleError e]) w1)).
    assert (E2 : reportFailure e w1 = (w2, inr tt)) by done.
    rewrite E2.
    destruct (restoreStep_returns w2) as (w3 & post & E3 & Hlog3 & Hpost).
    rewrite E3. exists w3, (pre ++ [ConsoleError e]), post.
    split; [done |]. split; [| split; [| done]].
    + rewrite Hlog3. subst w2. cbn [log with_log]. rewrite Hlog, Hlog0.
      rewrite <- !app_assoc. done.
    + apply Forall_app. split; [done | by repeat constructor].
  - destruct (Hr eq_refl) as (pre1 & ->).
    destruct (restoreStep_returns w1) as (w3 & post & E3 & Hlog3 & Hpost).
    rewrite E3. exists w3, pre1, post.
    split; [done |]. split; [| split; [| done]].
    + rewrite Hlog3, Hlog, Hlog0. rewrite <- !app_assoc. done.
    + by apply Forall_app in Hpre as [? _].
Qed.

End StagingFails.

End SessionFacts.

Lemma fails_bind {A B} (m : M A) (k : A -> M B) : fails m -> fails (m ≫= k).
Proof.
  intros Hm w. destruct (Hm w) as (w' & e & E).
  exists w', e. by apply bind_fail.
Qed.

(** ** The PNG fallback and released payloads *)

Section Fallback.

Context (p : Platform) (config : ExportConfig).

Lemma convertRGBAToPNG_empty width height quality :
  fails (convertRGBAToPNG p [] width height quality).
Proof.
  intros w. unfold convertRGBAToPNG.
  destruct (total_getTempCanvas width height w) as (w1 & canvas & E & _).
  rewrite (bind_ok _ _ _ _ _ E). simpl. by eexists _, _.
Qed.

(** One released payload is enough for the conversion of the raw frames to
    PNG to throw. *)
Lemma writeRawAsPng_fails allFrames f :
  (0 < writeBatchSize config)%nat ->
  f ∈ allFrames -> frameData f = [] ->
  fails (writeRawAsPng p config allFrames).
Proof.
  intros Hsize Hin Hempty. unfold writeRawAsPng. apply fails_bind.
  apply list_elem_of_lookup in Hin as [j Hj].
  assert (Hlt : (j < length allFrames)%nat) by (by eapply lookup_lt_Some).
  set (size := writeBatchSize config) in *.
  apply (forM_fails _ _ ((j / size) * size)%nat).
  - unfold batchStarts. apply list_elem_of_fmap. exists (j / size)%nat.
    split; [done |]. apply elem_of_seq. unfold ceil_div. nia.
  - apply (forM_fails _ _ f).
    + apply list_elem_of_lookup. exists (j - (j / size) * size)%nat.
      unfold slice. rewrite lookup_take_lt by nia.
      rewrite lookup_drop. rewrite <- Hj. f_equal. nia.
    + apply fails_bind. rewrite Hempty. apply convertRGBAToPNG_empty.
Qed.

End Fallback.

(** What the capture loop hands to the write stage, on any platform. *)
Lemma capture_output p config n w w' allFrames :
  (0 < frameCaptureSize config)%nat -> (0 < n)%nat ->
  captureLoop p config n w = (w', inr allFrames) ->
  sortFrames allFrames = allFrames
  /\ length allFrames = n
  /\ forall i, (i < n)%nat ->
       exists f, allFrames !! i = Some f /\ frameIndex f = i
                 /\ isRawPixels f = useRawPixels config
                 /\ (clearedBy (batchSize config n) (batches config n) i = true ->
                     frameData f = []).
Proof.
  intros Hc Hn H.
  destruct (captureLoop_shape p config n w w' allFrames Hc Hn H) as (results & Hres & ->).
  assert (Hlen : length results = n).
  { apply Forall2_length in Hres. by rewrite length_seq in Hres. }
  assert (Hidx : frameIndex <$> imap (mark (batchSize config n) (batches config n)) results
                 = seq 0 n).
  { rewrite <- (captured_indices p config n results Hres).
    apply list_eq. intros j. rewrite !list_lookup_fmap, list_lookup_imap.
    destruct (results !! j); simpl; [| done]. by rewrite frameIndex_mark. }
  split; [| split; [by rewrite length_imap |]].
  - apply (sortFrames_sorted _ 0). by rewrite length_imap, Hlen.
  - intros i Hi. destruct (lookup_lt_is_Some_2 results i) as [f Hf]; [lia |].
    assert (Hy : yields (captureFrame p config) i f).
    { eapply (Forall2_lookup_lr _ _ _ i i f Hres); [| done]. by apply lookup_seq_lt. }
    apply captureFrame_index in Hy as [Hfi Hraw].
    exists (mark (batchSize config n) (batches config n) i f).
    rewrite list_lookup_imap, Hf. split; [done |].
    unfold mark. destruct (clearedBy _ _ i); simpl; done.
Qed.

(** ** What a session restores *)

Lemma disableExportMode_clean c : clean c = true -> disableExportMode c = livePreview c.
Proof.
  destruct c as [[[[fl [sf |]] tk idle] |] [[ev [se |]] |]
                 [[hv [sh |]] |] [[gv [sg |]] |] background [|]];
    intros H; try discriminate H; reflexivity.
Qed.

Lemma disable_enable_clean c :
  clean c = true -> disableExportMode (enableExportMode c) = livePreview c.
Proof.
  destruct c as [[[[fl [sf |]] tk idle] |] [[ev [se |]] |]
                 [[hv [sh |]] |] [[gv [sg |]] |] [b |] [|]];
    intros H; try discriminate H; reflexivity.
Qed.

Lemma livePreview_restoredByDesign c :
  clean c = true -> restoredByDesign c (livePreview c).
Proof.
  destruct c as [[[[fl [sf |]] tk idle] |] [[ev [se |]] |]
                 [[hv [sh |]] |] [[gv [sg |]] |] background [|]];
    intros H; try discriminate H; unfold restoredByDesign; simpl;
    repeat split; try reflexivity; intros;
    repeat match goal with
           | H : is_Some None |- _ => destruct H as [? H]; discriminate H
           | H : _ \/ _ |- _ => destruct H as [H | H]; try discriminate H
           end;
    try reflexivity.
Qed.

Lemma handleExport_restoredByDesign p settings w :
  exporting w = false -> pixiCanvasRef w = true -> clean (pixi w) = true ->
  restoredByDesign (pixi w) (pixi (handleExport p settings w).1)
  /\ (reachesCapture p w = true -> isPlaying (handleExport p settings w).1 = isPlaying w).
Proof.
  intros Hexp Hmounted Hclean.
  pose proof (handleExport_renderState p settings w Hexp Hmounted) as H.
  unfold renderState in H. injection H as Hpixi Hplay. split.
  - rewrite Hpixi. destruct (reachesCapture p w).
    + rewrite disable_enable_clean by done. by apply livePreview_restoredByDesign.
    + rewrite disableExportMode_clean by done. by apply livePreview_restoredByDesign.
  - intros Hreach. by rewrite Hplay, Hreach.
Qed.




(** *** A frame that cannot be extracted *)

(** The surface is lost at frame [i]: the direct read throws and the
    renderer's extraction returns nothing. *)
Lemma captureFrame_surface_lost p config i :
  renderer_gl p && canvas_webgl p = true ->
  gl_readPixels p i = None ->
  extract_pixels p i = Some PxOther ->
  fails (captureFrame p config i).
Proof.
  intros Hgl Hread Hpx w. unfold captureFrame, try_catch.
  assert (E : exists w1, extractPixels p config i w = (w1, inr PxOther)).
  { unfold extractPixels, useWebGLCapture. rewrite Hgl. unfold try_catch.
    destruct (captureWebGL_read_fails p config i Hread w) as (w1 & e & ->).
    rewrite Hpx. by eexists. }
  destruct E as (w1 & E). rewrite (bind_ok _ _ _ _ _ E). simpl.
  by eexists _, _.
Qed.




(** *** A raw attempt that fails after payloads have been released *)

Lemma try_finally_inr {A} (m : M A) (f : M unit) w w' a :
  try_finally m f w = (w', inr a) -> exists w1, m w = (w1, inr a).
Proof.
  unfold try_finally. destruct (m w) as [w1 r].
  destruct (f w1) as [w2 [e | u]]; [done |]. intros [= _ ->]. by exists w1.
Qed.

(** C4 (the code at the failing input). Fast preset, 11 seconds: 264 frames
    in 9 batches of 30, so batch 2 (frames 60 to 89) is released during
    capture; on a 1080 x 1920 canvas the estimate stays under the limit and
    the raw pipeline is tried.  If the allocation of the raw buffer fails,
    the fallback converts the frames to PNG and throws at a released
    payload: the write stage throws whenever the capture loop has returned,
    and the session ends with the error toast and without an encoder run. *)
Theorem raw_fallback_fails_after_release p settings w :
  exportQuality settings = "fast"%string -> duration settings = 11%nat ->
  canvas_width p = 1080 -> canvas_height p = 1920 ->
  alloc p (framePixelCount p (exportConfig Fast) * 264) = false ->
  exporting w = false -> pixiCanvasRef w = true ->
  (forall w1 w2 allFrames w3,
      captureLoop p (exportConfig Fast) 264 w1 = (w2, inr allFrames) ->
      (exists f, allFrames !! 60%nat = Some f /\ frameData f = [])
      /\ chooseTransport (sortFrames allFrames) (framePixelCount p (exportConfig Fast)) 264
         = RawPixel
      /\ exists w4 e,
           writeStage p (exportConfig Fast) 264 (sortFrames allFrames) w3 = (w4, inl e))
  /\ exists w' pre post,
       handleExport p settings w = (w', inr tt)
       /\ log w' = log w ++ pre ++ Toast ToastError :: post
       /\ Forall before_encoding pre
       /\ Forall restore_event post.
Proof.
  intros Hq Hd Hcw Hch Halloc Hexp Hmounted.
  assert (Hfpc : framePixelCount p (exportConfig Fast) = 810 * 1440 * 4).
  { unfold framePixelCount, exportWidth, exportHeight, actualCanvasWidth,
      actualCanvasHeight. rewrite Hcw, Hch. reflexivity. }
  assert (Hwrite : forall w1 w2 allFrames w3,
    captureLoop p (exportConfig Fast) 264 w1 = (w2, inr allFrames) ->
    (exists f, allFrames !! 60%nat = Some f /\ frameData f = [])
    /\ chooseTransport (sortFrames allFrames) (framePixelCount p (exportConfig Fast)) 264
       = RawPixel
    /\ exists w4 e,
         writeStage p (exportConfig Fast) 264 (sortFrames allFrames) w3 = (w4, inl e)).
  { intros w1 w2 allFrames w3 Hloop.
    apply capture_output in Hloop as (Hsorted & Hlen & Hall); [| simpl; lia | lia].
    destruct (Hall 60%nat) as (f60 & H60 & _ & _ & Hcleared); [lia |].
    destruct (Hall 0%nat) as (f0 & H0 & _ & Hraw0 & _); [lia |].
    specialize (Hcleared eq_refl).
    change (useRawPixels (exportConfig Fast)) with true in Hraw0.
    rewrite Hsorted.
    destruct allFrames as [| g rest]; [done |]. injection H0 as ->.
    assert (Hlarge : largeVideo (framePixelCount p (exportConfig Fast)) 264 = false).
    { rewrite Hfpc. reflexivity. }
    split; [by exists f60 |]. split.
    { unfold chooseTransport. rewrite Hraw0, Hlarge. reflexivity. }
    unfold writeStage. cbv zeta. rewrite Hraw0, Hlarge. unfold try_catch.
    assert (Hconcat : concatRaw p (exportConfig Fast) 264 (f0 :: rest) w3
                      = (w3, inl RangeError)).
    { unfold concatRaw. change (Z.of_nat 264) with 264. rewrite Halloc. reflexivity. }
    rewrite (bind_fail _ _ _ _ _ Hconcat).
    rewrite (bind_ok _ _ w3 _ tt) by reflexivity.
    assert (Hpng : fails (writeRawAsPng p (exportConfig Fast) (f0 :: rest))).
    { apply (writeRawAsPng_fails _ _ _ f60); [simpl; lia | | done].
      by eapply list_elem_of_lookup_2. }
    match goal with |- context [(?m ≫= ?k) ?x] =>
      destruct (fails_bind _ k Hpng x) as (w4 & e & E)
    end.
    eauto. }
  split; [exact Hwrite |].
  assert (Hcfg : sessionConfig settings = exportConfig Fast).
  { unfold sessionConfig, config_of_key. by rewrite Hq. }
  assert (Hn : sessionFrameCount settings = 264%nat).
  { unfold sessionFrameCount. by rewrite Hcfg, Hd. }
  apply handleExport_fails_quiet; [| done | done].
  intros orig w1. unfold staging, captureStage. rewrite Hcfg, Hn.
  unfold mbind, M_bind.
  destruct (try_finally (captureLoop p (exportConfig Fast) 264) _ w1)
    as [w2 [e | allFrames]] eqn:E; [by eexists _, _ |].
  assert (Hloop : exists w1', captureLoop p (exportConfig Fast) 264 w1 = (w1', inr allFrames)).
  { by apply try_finally_inr in E. }
  destruct Hloop as (w1' & Hloop).
  destruct (Hwrite w1 w1' allFrames w2 Hloop) as (_ & _ & w4 & e & E4).
  exists w4, e. done.
Qed.

Lemma raw_fallback_fails_after_release_witness :
  (forall w1 w2 allFrames w3,
      captureLoop reelPlatform (exportConfig Fast) 264 w1 = (w2, inr allFrames) ->
      (exists f, allFrames !! 60%nat = Some f /\ frameData f = [])
      /\ chooseTransport (sortFrames allFrames)
           (framePixelCount reelPlatform (exportConfig Fast)) 264 = RawPixel
      /\ exists w4 e,
           writeStage reelPlatform (exportConfig Fast) 264 (sortFrames allFrames) w3
           = (w4, inl e))
  /\ exists w' pre post,
       handleExport reelPlatform fastSettings idleWorld = (w', inr tt)
       /\ log w' = log idleWorld ++ pre ++ Toast ToastError :: post
       /\ Forall before_encoding pre
       /\ Forall restore_event post.
Proof.
  apply (raw_fallback_fails_after_release reelPlatform fastSettings idleWorld);
    reflexivity.
Defined.

(** The same session (Fast preset, 11 seconds) on the small-memory platform,
    run to the end: five texture collections during capture, the raw attempt
    fails on its allocation, frames 1 to 60 are written as PNG files, the
    conversion of frame 61 throws on its released payload, and the session
    ends with the error toast followed by the restore step. *)
Example raw_fallback_run :
  let evs := eventKind <$> log (handleExport smallMemoryPlatform fastSettings idleWorld).1 in
  take 5 evs = [TextureGCRun; TextureGCRun; TextureGCRun; TextureGCRun; TextureGCRun]
  /\ evs !! 5%nat = Some (ConsoleError RangeError)
  /\ take 60 (drop 6 evs) = (fun k => FFWrite (FramePng (Z.of_nat k)) []) <$> seq 1 60
  /\ drop 66 evs = [ConsoleError (EmptyPixelData 3 3); Toast ToastError;
                    AppRender; ResetScheduled].
Proof. repeat split; vm_compute; reflexivity. Qed.

(** * Further properties of the export pipeline *)

(** ** The pools keep their limits *)

#[global] Instance keeps_pools_preorder : PreOrder keeps_pools.
Proof. split; [intros w H; exact H | intros a b c H1 H2 H; exact (H2 (H1 H))]. Qed.

Section PoolBounds.

Context (p : Platform).

Lemma pools_getPixelBuffer size : stable keeps_pools (getPixelBuffer p size).
Proof.
  intros w [Hb Hc]. unfold getPixelBuffer, mbind, M_bind, get.
  destruct (list_find _ _) as [[i b] |] eqn:Hfind; simpl.
  - split; [| done]. simpl. rewrite length_delete; [lia |].
    apply list_find_Some in Hfind as (Hi & _). eauto.
  - destruct (alloc p size); done.
Qed.

Lemma pools_releasePixelBuffer buffer : stable keeps_pools (releasePixelBuffer buffer).
Proof.
  intros w [Hb Hc]. unfold releasePixelBuffer, mbind, M_bind, get. simpl.
  destruct (bool_decide _) eqn:Hlt; simpl; [| done].
  apply bool_decide_eq_true in Hlt. split; [| done].
  simpl. rewrite length_app. simpl. lia.
Qed.

Lemma pools_getTempCanvas width height : stable keeps_pools (getTempCanvas width height).
Proof.
  intros w [Hb Hc]. unfold getTempCanvas, mbind, M_bind, get.
  destruct (list_find _ _) as [[i b] |] eqn:Hfind; simpl; [| done].
  split; [done |]. simpl. rewrite length_delete; [lia |].
  apply list_find_Some in Hfind as (Hi & _). eauto.
Qed.

Lemma pools_releaseTempCanvas canvas : stable keeps_pools (releaseTempCanvas canvas).
Proof.
  intros w [Hb Hc]. unfold releaseTempCanvas, mbind, M_bind, get. simpl.
  destruct (bool_decide _) eqn:Hlt; simpl; [| done].
  apply bool_decide_eq_true in Hlt. split; [done |].
  simpl. rewrite length_app. simpl. lia.
Qed.

End PoolBounds.

(** Stability steps in which [leaf] is tried before a computation is taken
    apart, so that the computations it knows stay whole. *)
Ltac guarded_steps leaf :=
  repeat first
    [ match goal with |- PreOrder _ => apply _ end
    | leaf
    | apply stable_ret | apply stable_throw | apply stable_get
    | apply stable_call | apply stable_call_val
    | apply stable_bind; [apply _ | | intros ?]
    | apply stable_try_catch; [apply _ | | intros ?]
    | apply stable_try_finally; [apply _ | |]
    | apply stable_when
    | apply stable_forM; [apply _ | intros ?]
    | apply stable_foldM; [apply _ | intros ? ?]
    | match goal with
      | |- stable _ (match ?x with _ => _ end) => destruct x
      end ].

Ltac pools_base :=
  first [ apply pools_getPixelBuffer | apply pools_releasePixelBuffer
        | apply pools_getTempCanvas | apply pools_releaseTempCanvas
        | apply stable_modify; intros ? ?; assumption ].

Section PoolsPipeline.

Context (p : Platform) (config : ExportConfig) (frameCount : nat).

Lemma pools_convertRGBAToPNG pixels width height quality :
  stable keeps_pools (convertRGBAToPNG p pixels width height quality).
Proof. unfold convertRGBAToPNG, emit. guarded_steps pools_base. Qed.

Lemma pools_downsamplePixels src sw sh tw th :
  stable keeps_pools (downsamplePixels p src sw sh tw th).
Proof. unfold downsamplePixels. guarded_steps pools_base. Qed.

Lemma pools_captureFrame i : stable keeps_pools (captureFrame p config i).
Proof.
  unfold captureFrame, extractPixels, captureWebGL, capturePixi, readPixels, emit.
  guarded_steps ltac:(first [apply pools_convertRGBAToPNG | apply pools_downsamplePixels
                            | pools_base]).
Qed.

Lemma pools_captureLoop : stable keeps_pools (captureLoop p config frameCount).
Proof.
  unfold captureLoop, captureBatch, emit.
  guarded_steps ltac:(first [apply pools_captureFrame | pools_base]).
Qed.

Lemma pools_writeStage allFrames :
  stable keeps_pools (writeStage p config frameCount allFrames).
Proof.
  unfold writeStage, writeRawAsPng, writePngFrames, concatRaw, placeFrame, ffWrite, emit.
  guarded_steps ltac:(first [apply pools_convertRGBAToPNG | pools_base]).
Qed.

Lemma pools_encodeStage settings useRaw :
  stable keeps_pools (encodeStage p config frameCount settings useRaw).
Proof.
  unfold encodeStage, ffWrite, ffDelete, emit. guarded_steps pools_base.
Qed.

End PoolsPipeline.

(** X1. The pools keep their limits through a whole session: if the pixel
    buffer pool holds at most 10 buffers and the canvas pool at most 5
    canvases when [handleExport] is called, they do so when it is done,
    whatever the platform did and however the session ended. *)
Theorem pools_stay_bounded p settings w :
  poolsBounded w -> poolsBounded (handleExport p settings w).1.
Proof.
  revert w. change (stable keeps_pools (handleExport p settings)).
  unfold handleExport, sessionBody, ensureLoaded, startSession, captureAndEncode,
    captureStage, reportFailure, restoreStep, setExportMode, emit.
  guarded_steps ltac:(first [apply pools_captureLoop | apply pools_writeStage
                            | apply pools_encodeStage | pools_base]).
Qed.

Lemma pools_stay_bounded_witness :
  poolsBounded (handleExport demoPlatform demoSettings idleWorld).1.
Proof. apply pools_stay_bounded. split; simpl; lia. Defined.

(** ** The pixel buffer pool *)

Lemma list_find_is_Some {A} (P : A -> Prop) `{!forall x, Decision (P x)} (l : list A) x :
  x ∈ l -> P x -> is_Some (list_find P l).
Proof.
  intros Hin Hx. destruct (list_find P l) as [r |] eqn:E; [by eexists |].
  apply list_find_None in E. rewrite Forall_forall in E. by destruct (E x Hin).
Qed.

(** X2. A request that a pooled buffer can serve is served from the pool:
    the call returns the first pooled buffer of exactly the requested
    length, takes it out of the pool, and does not allocate (so it cannot
    throw). *)
Theorem pooled_buffer_is_reused p size w b0 :
  b0 ∈ pixelBufferPool w -> len b0 = size ->
  exists i buffer,
    getPixelBuffer p size w = (with_pixelBufferPool (delete i) w, inr buffer)
    /\ pixelBufferPool w !! i = Some buffer
    /\ len buffer = size
    /\ (forall j b, (j < i)%nat -> pixelBufferPool w !! j = Some b -> len b <> size).
Proof.
  intros Hin Hlen.
  destruct (list_find_is_Some (fun buffer : Uint8Array => len buffer = size)
              (pixelBufferPool w) b0 Hin Hlen) as [[i b] Hfind].
  exists i, b. unfold getPixelBuffer. rewrite (bind_ok _ _ w w w) by done.
  rewrite Hfind. apply list_find_Some in Hfind as (Hi & Hb & Hfirst).
  split; [done |]. split; [done |]. split; [done |].
  intros j b' Hj Hb'. by apply (Hfirst j).
Qed.

Lemma pooled_buffer_is_reused_witness :
  exists i buffer,
    getPixelBuffer demoPlatform 2 pooledWorld
    = (with_pixelBufferPool (delete i) pooledWorld, inr buffer)
    /\ pixelBufferPool pooledWorld !! i = Some buffer
    /\ len buffer = 2
    /\ (forall j b, (j < i)%nat -> pixelBufferPool pooledWorld !! j = Some b -> len b <> 2).
Proof.
  apply (pooled_buffer_is_reused demoPlatform 2 pooledWorld [Byte.x02; Byte.x03]).
  - simpl. apply list_elem_of_further, list_elem_of_here.
  - reflexivity.
Defined.

(** X3. Release, then request: a buffer released into a pool that has room
    and holds no buffer of its length is the buffer that the next request
    for this length gets, with its content as it was released; the pool
    is then as it was before the release. *)
Theorem released_buffer_round_trip p buffer w :
  (length (pixelBufferPool w) < 10)%nat ->
  Forall (fun b => len b <> len buffer) (pixelBufferPool w) ->
  (releasePixelBuffer buffer ≫= fun _ => getPixelBuffer p (len buffer)) w
  = (w, inr buffer).
Proof.
  intros Hroom Hnone. unfold releasePixelBuffer.
  rewrite (bind_ok _ _ w (with_pixelBufferPool (fun pool => pool ++ [buffer]) w) tt).
  2:{ rewrite (bind_ok _ _ w w w) by done. by rewrite bool_decide_eq_true_2. }
  unfold getPixelBuffer. rewrite (bind_ok _ _ _ _ _ eq_refl).
  assert (Hfind : list_find (fun b : Uint8Array => len b = len buffer)
                    (pixelBufferPool w ++ [buffer])
                  = Some (length (pixelBufferPool w), buffer)).
  { apply list_find_Some. split; [by rewrite lookup_app_r, Nat.sub_diag by lia |].
    split; [done |]. intros j b Hj Hlt.
    rewrite lookup_app_l in Hj by done.
    rewrite Forall_forall in Hnone. apply Hnone. by eapply list_elem_of_lookup_2. }
  cbn [pixelBufferPool with_pixelBufferPool]. rewrite Hfind.
  destruct w as [mounted c playing exp loaded l pool canvases lg].
  unfold mbind, M_bind, modify, mret, M_ret, with_pixelBufferPool. simpl.
  f_equal. f_equal.
  clear. induction pool as [| b pool IH]; simpl; [done | by f_equal].
Qed.

Lemma released_buffer_round_trip_witness :
  (releasePixelBuffer [Byte.x07; Byte.x08; Byte.x09]
     ≫= fun _ => getPixelBuffer demoPlatform (len [Byte.x07; Byte.x08; Byte.x09])) pooledWorld
  = (pooledWorld, inr [Byte.x07; Byte.x08; Byte.x09]).
Proof.
  apply (released_buffer_round_trip demoPlatform [Byte.x07; Byte.x08; Byte.x09] pooledWorld).
  - simpl. lia.
  - repeat constructor; vm_compute; discriminate.
Defined.

(** ** Capture tasks *)

Lemma exportSize_full c config :
  (exportResolution config == 1)%Q -> exportSize c config = c.
Proof.
  intros Hr. unfold exportSize.
  rewrite (Qfloor_comp _ (inject_Z c)); [apply Qfloor_Z |].
  rewrite Hr. apply Qmult_1_r.
Qed.

(** X4. On a platform whose outside calls all work, a capture task in raw
    mode with an export resolution of at most 1 returns a record with the
    index of the task whose payload has exactly
    exportWidth * exportHeight * 4 bytes: the direct read is downsampled
    when the export is smaller than the canvas and is the canvas itself
    when it is not. *)
Theorem webgl_frame_has_export_size p config i w :
  healthy p config ->
  useRawPixels config = true ->
  (exportResolution config <= 1)%Q ->
  exists w' f,
    captureFrame p config i w = (w', inr f)
    /\ frameIndex f = i
    /\ len (frameData f) = framePixelCount p config.
Proof.
  intros Hp Hraw Hres.
  destruct (total_captureFrame p config Hp i w) as (w' & f & E & Hi & Hlen).
  exists w', f. split; [done |]. split; [done |].
  rewrite (Hlen Hraw). unfold webglSize, framePixelCount, downsampling.
  destruct (Qle_bool 1 (exportResolution config)) eqn:Hone; simpl; [| done].
  apply Qle_bool_iff in Hone.
  assert (Heq : (exportResolution config == 1)%Q) by (by apply Qle_antisym).
  unfold exportWidth, exportHeight. by rewrite !exportSize_full.
Qed.

Lemma webgl_frame_has_export_size_witness :
  exists w' f,
    captureFrame reelPlatform (exportConfig Fast) 7 idleWorld = (w', inr f)
    /\ frameIndex f = 7%nat
    /\ len (frameData f) = framePixelCount reelPlatform (exportConfig Fast).
Proof.
  apply (webgl_frame_has_export_size reelPlatform (exportConfig Fast) 7 idleWorld).
  - apply reelPlatform_healthy.
  - reflexivity.
  - vm_compute. discriminate.
Defined.

(** X5. Whatever goes wrong inside a capture task, the task logs the cause
    on the console and throws it wrapped with the frame's one-based number:
    no other error leaves the task, and nothing is logged after the cause. *)
Theorem capture_errors_are_wrapped p config i w w' e :
  captureFrame p config i w = (w', inl e) ->
  exists cause,
    e = FrameCaptureFailed (i + 1) cause
    /\ last (log w') = Some (ConsoleError cause).
Proof.
  unfold captureFrame, try_catch.
  destruct (_ ≫= _) as [w1 [cause | f]] eqn:E; [| done].
  unfold emit, modify, throw, mbind, M_bind. simpl.
  intros [= <- <-]. exists cause. split; [done |]. simpl. apply last_snoc.
Qed.

Lemma capture_errors_are_wrapped_witness :
  exists cause,
    FrameCaptureFailed 6 (PixelExtractionFailed 6) = FrameCaptureFailed (5 + 1) cause
    /\ last (log (captureFrame lossyPlatform (exportConfig Balanced) 5 idleWorld).1)
       = Some (ConsoleError cause).
Proof.
  apply (capture_errors_are_wrapped lossyPlatform (exportConfig Balanced) 5 idleWorld).
  reflexivity.
Defined.

(** ** Which payloads are held when the capture loop is done *)

Lemma clearedBy_spec bs b i :
  clearedBy bs b i = true
  <-> ((i / bs) mod 2 = 0 /\ 2 <= i / bs /\ i / bs + 6 < b)%nat.
Proof.
  unfold clearedBy. cbv zeta.
  rewrite !andb_true_iff, Nat.eqb_eq, Nat.leb_le, Nat.ltb_lt. tauto.
Qed.

(** X6. On a platform whose outside calls all work, a raw-mode capture loop
    returns one record per frame, in order, and tells exactly which
    payloads it has released: the payload of frame [i] is empty if and only
    if its batch [k = i / batchSize] is even, at least 2, and followed by
    more than 6 further batches ([k + 6 < batches]); every other frame
    holds the full payload that the direct read delivered. *)
Theorem released_payloads_characterised p config n w :
  healthy p config -> useRawPixels config = true ->
  (0 < frameCaptureSize config)%nat -> (0 < n)%nat ->
  exists w' allFrames,
    captureLoop p config n w = (w', inr allFrames)
    /\ length allFrames = n
    /\ forall i f, allFrames !! i = Some f ->
         frameIndex f = i
         /\ (frameData f = []
             <-> ((i / batchSize config n) mod 2 = 0
                  /\ 2 <= i / batchSize config n
                  /\ i / batchSize config n + 6 < batches config n)%nat)
         /\ (frameData f <> [] -> len (frameData f) = webglSize p config).
Proof.
  intros Hp Hraw Hc Hn.
  destruct (captureLoop_payloads p config n w Hp Hc Hn) as (w' & allFrames & E & Hlen & Hall).
  exists w', allFrames. split; [done |]. split; [done |].
  intros i f Hf.
  assert (Hi : (i < n)%nat) by (rewrite <- Hlen; by eapply lookup_lt_Some).
  destruct (Hall i Hi) as (f' & Hf' & Hidx & Hpay).
  assert (f' = f) as -> by congruence.
  split; [done |]. rewrite <- clearedBy_spec.
  assert (Hpos : 0 < webglSize p config).
  { destruct (healthy_canvas p config Hp), (healthy_export p config Hp).
    unfold webglSize, actualCanvasWidth, actualCanvasHeight.
    destruct (downsampling config); nia. }
  destruct (clearedBy _ _ i).
  - split; [done |]. by intros [].
  - specialize (Hpay Hraw). split; [| done].
    split; [| done]. intros Hempty. rewrite Hempty in Hpay. unfold len in Hpay.
    simpl in Hpay. lia.
Qed.

Lemma released_payloads_characterised_witness :
  exists w' allFrames,
    captureLoop demoPlatform (exportConfig Balanced) 300 idleWorld = (w', inr allFrames)
    /\ length allFrames = 300%nat
    /\ forall i f, allFrames !! i = Some f ->
         frameIndex f = i
         /\ (frameData f = []
             <-> ((i / batchSize (exportConfig Balanced) 300) mod 2 = 0
                  /\ 2 <= i / batchSize (exportConfig Balanced) 300
                  /\ i / batchSize (exportConfig Balanced) 300 + 6
                     < batches (exportConfig Balanced) 300)%nat)
         /\ (frameData f <> [] ->
             len (frameData f) = webglSize demoPlatform (exportConfig Balanced)).
Proof.
  apply (released_payloads_characterised demoPlatform (exportConfig Balanced) 300 idleWorld).
  - apply demoPlatform_healthy.
  - reflexivity.
  - simpl. lia.
  - lia.
Defined.

(** ** Sessions as a whole *)

Lemma restoreStep_last w :
  exists w', restoreStep w = (w', inr tt) /\ last (log w') = Some ResetScheduled.
Proof.
  unfold restoreStep, setExportMode, emit, when, modify, get, mbind, M_bind, mret, M_ret.
  destruct (pixiCanvasRef w); simpl.
  - destruct (_ && _); destruct (_ && _); simpl;
      destruct (negb _); simpl; eexists;
      (split; [reflexivity |]); simpl; apply last_snoc.
  - destruct (negb _); simpl; eexists;
      (split; [reflexivity |]); simpl; apply last_snoc.
Qed.

(** X7. A session that starts never throws to its caller, whatever the
    platform does: every error is caught and reported, and the last thing
    the session does is to schedule the reset of the exporting flag. *)
Theorem session_always_ends_with_reset p settings w :
  exporting w = false -> pixiCanvasRef w = true ->
  exists w',
    handleExport p settings w = (w', inr tt)
    /\ last (log w') = Some ResetScheduled.
Proof.
  intros Hexp Hmounted. unfold handleExport.
  rewrite (bind_ok _ _ w w w) by done. rewrite Hexp, Hmounted. cbn [orb negb].
  rewrite (bind_ok _ _ w _ tt) by done.
  rewrite (bind_ok _ _ _ _ tt) by done.
  set (w0 := with_locals _ _). clearbody w0.
  unfold try_finally, try_catch.
  destruct (sessionBody p settings w0) as [w1 [e | []]].
  - unfold reportFailure, emit, modify, mbind, M_bind. simpl.
    match goal with |- context [restoreStep ?x] =>
      destruct (restoreStep_last x) as (w2 & -> & Hlast) end.
    by exists w2.
  - destruct (restoreStep_last w1) as (w2 & -> & Hlast). by exists w2.
Qed.

Lemma session_always_ends_with_reset_witness :
  exists w',
    handleExport lossyPlatform demoSettings idleWorld = (w', inr tt)
    /\ last (log w') = Some ResetScheduled.
Proof.
  apply (session_always_ends_with_reset lossyPlatform demoSettings idleWorld);
    reflexivity.
Defined.

Lemma preset_write_size key : (0 < writeBatchSize (config_of_key key))%nat.
Proof. unfold config_of_key. destruct (default Balanced _); simpl; lia. Qed.

(** X8. A raw-mode session whose memory estimate exceeds 1.5 GiB and whose
    capture takes more than 8 batches never reaches the encoder, on any
    platform: the frames are to be converted to PNG, batch 2 has been
    released during capture, and the conversion of its first frame throws;
    the session ends with the error toast.  The default settings (balanced,
    10 seconds) on a 1080 x 1920 canvas are such a session. *)
Theorem large_raw_session_fails p settings w :
  useRawPixels (sessionConfig settings) = true ->
  (8 < batches (sessionConfig settings) (sessionFrameCount settings))%nat ->
  largeVideo (framePixelCount p (sessionConfig settings)) (sessionFrameCount settings) = true ->
  exporting w = false -> pixiCanvasRef w = true ->
  exists w' pre post,
    handleExport p settings w = (w', inr tt)
    /\ log w' = log w ++ pre ++ Toast ToastError :: post
    /\ Forall before_encoding pre
    /\ Forall restore_event post.
Proof.
  intros Hraw Hbatches Hlarge Hexp Hmounted.
  apply handleExport_fails_quiet; [| done | done].
  intros orig w1. unfold staging, captureStage.
  set (config := sessionConfig settings) in *. set (n := sessionFrameCount settings) in *.
  assert (Hc : (0 < frameCaptureSize config)%nat) by apply preset_capture_size.
  assert (Hbs : (0 < batchSize config n)%nat /\ (8 * batchSize config n < n)%nat).
  { unfold batches, ceil_div, batchSize in *. 
    destruct (decide (n = 0)%nat) as [-> | Hn0].
    - simpl in Hbatches. rewrite Nat.min_0_r in Hbatches. simpl in Hbatches. lia.
    - split; [lia |]. nia. }
  destruct Hbs as [Hbs Hn8].
  unfold mbind, M_bind.
  destruct (try_finally (captureLoop p config n) _ w1) as [w2 [e | allFrames]] eqn:E;
    [by eexists _, _ |].
  apply try_finally_inr in E as (w1' & Hloop).
  apply capture_output in Hloop as (Hsorted & Hlen & Hall); [| done | lia].
  destruct (Hall (2 * batchSize config n)%nat) as (f & Hf & _ & _ & Hcleared); [lia |].
  destruct (Hall 0%nat) as (f0 & H0 & _ & Hraw0 & _); [lia |].
  rewrite Hsorted.
  assert (Hempty : frameData f = []).
  { apply Hcleared, clearedBy_spec.
    replace (2 * batchSize config n / batchSize config n)%nat with 2%nat by nia.
    simpl. lia. }
  destruct allFrames as [| g rest]; [done |]. injection H0 as ->.
  unfold writeStage. cbv zeta. rewrite Hraw0, Hraw, Hlarge.
  rewrite (bind_ok _ _ w2 _ tt) by reflexivity.
  assert (Hpng : fails (writeRawAsPng p config (f0 :: rest))).
  { apply (writeRawAsPng_fails _ _ _ f); [apply preset_write_size | | done].
    by eapply list_elem_of_lookup_2. }
  match goal with |- context [(?m ≫= ?k) ?x] =>
    destruct (fails_bind _ k Hpng x) as (w4 & e & E4)
  end.
  eauto.
Qed.

Lemma large_raw_session_fails_witness :
  exists w' pre post,
    handleExport reelPlatform defaultSettings idleWorld = (w', inr tt)
    /\ log w' = log idleWorld ++ pre ++ Toast ToastError :: post
    /\ Forall before_encoding pre
    /\ Forall restore_event post.
Proof.
  apply (large_raw_session_fails reelPlatform defaultSettings idleWorld);
    reflexivity || (vm_compute; lia).
Defined.

(** ** What the raw pipeline writes *)

Lemma findFrame_seq allFrames n k :
  frameIndex <$> allFrames = seq 0 n -> (k < n)%nat ->
  findFrame allFrames k = allFrames !! k.
Proof.
  intros Hidx Hk.
  assert (Hat : forall j f, allFrames !! j = Some f -> frameIndex f = j).
  { intros j f Hj.
    assert (H : (frameIndex <$> allFrames) !! j = Some (frameIndex f))
      by (by rewrite list_lookup_fmap, Hj).
    rewrite Hidx in H. apply lookup_seq in H as [H _]. simpl in H. done. }
  destruct (lookup_lt_is_Some_2 allFrames k) as [f Hf].
  { rewrite <- (length_fmap frameIndex), Hidx, length_seq. done. }
  unfold findFrame. rewrite Hf.
  assert (E : list_find (fun f => frameIndex f = k) allFrames = Some (k, f)).
  { apply list_find_Some. split; [done |]. split; [by apply Hat |].
    intros j g Hj Hlt Hg. apply Hat in Hj. lia. }
  by rewrite E.
Qed.

Lemma length_concat_take {A} (l : list (list A)) size k :
  Forall (fun b => length b = size) l ->
  length (concat (take k l)) = (Nat.min k (length l) * size)%nat.
Proof.
  intros Hl. revert k. induction Hl as [| b l Hb Hl IH]; intros k.
  - rewrite take_nil. simpl. lia.
  - destruct k as [| k]; simpl; [done |]. rewrite length_app, IH. lia.
Qed.

Section RawConcat.

Context (p : Platform) (config : ExportConfig) (frameCount : nat).
Context (allFrames : list FrameData).

Local Abbreviation fpc := (framePixelCount p config).

Hypothesis fpc_nonneg : 0 <= fpc.
Hypothesis in_order : frameIndex <$> allFrames = seq 0 frameCount.
Hypothesis payloads :
  Forall (fun f => frameData f = [] \/ len (frameData f) = fpc) allFrames.

(** The buffer when the frames before [k] have been placed. *)
Local Abbreviation placed k :=
  (concat (take k (rawSlot fpc <$> allFrames))
   ++ replicate ((frameCount - k) * Z.to_nat fpc) Byte.x00).

Lemma length_rawSlot f : f ∈ allFrames -> length (rawSlot fpc f) = Z.to_nat fpc.
Proof.
  intros Hin. rewrite Forall_forall in payloads.
  unfold rawSlot. destruct (frameData f) as [| b l] eqn:E.
  - unfold zeros. by rewrite length_replicate.
  - destruct (payloads f Hin) as [H | H]; [congruence |].
    rewrite E in H. unfold len in H. lia.
Qed.

Lemma length_slots k :
  length (concat (take k (rawSlot fpc <$> allFrames)))
  = (Nat.min k frameCount * Z.to_nat fpc)%nat.
Proof.
  assert (Hlen : length allFrames = frameCount).
  { by rewrite <- (length_fmap frameIndex), in_order, length_seq. }
  rewrite <- Hlen, <- (length_fmap (rawSlot fpc)).
  apply length_concat_take. apply Forall_fmap, Forall_forall.
  intros f Hf. by apply length_rawSlot.
Qed.

Lemma placeFrame_placed k w :
  (k < frameCount)%nat ->
  placeFrame p config allFrames (placed k) k w = (w, inr (placed (S k))).
Proof.
  intros Hk. unfold placeFrame.
  rewrite (findFrame_seq allFrames frameCount k in_order Hk).
  destruct (lookup_lt_is_Some_2 allFrames k) as [f Hf].
  { by rewrite <- (length_fmap frameIndex), in_order, length_seq. }
  rewrite Hf.
  pose proof (length_rawSlot f (list_elem_of_lookup_2 _ _ _ Hf)) as Hslot.
  assert (Hoff : Z.to_nat (Z.of_nat k * fpc) = (k * Z.to_nat fpc)%nat) by nia.
  rewrite Hoff.
  pose proof (length_slots k) as Hpre. rewrite Nat.min_l in Hpre by lia.
  assert (Hnext : placed (S k)
                  = concat (take k (rawSlot fpc <$> allFrames)) ++ rawSlot fpc f
                    ++ replicate ((frameCount - S k) * Z.to_nat fpc) Byte.x00).
  { rewrite (take_S_r _ _ (rawSlot fpc f)) by (by rewrite list_lookup_fmap, Hf).
    rewrite concat_app. simpl. by rewrite app_nil_r, <- !app_assoc. }
  rewrite Hnext. clear Hnext.
  unfold rawSlot in *. destruct (frameData f) as [| b l] eqn:E.
  - rewrite typed_set_empty by (rewrite length_app, Hpre, length_replicate; nia).
    simpl. unfold mret, M_ret. do 3 f_equal.
    unfold zeros. rewrite <- replicate_add. f_equal. nia.
  - unfold typed_set.
    rewrite length_app, Hpre, length_replicate, Hslot.
    replace (_ <=? _)%nat with true by (symmetry; apply Nat.leb_le; nia).
    simpl. unfold mret, M_ret. do 2 f_equal.
    rewrite take_app_length' by done. f_equal.
    change (b :: l ++ ?x) with ((b :: l) ++ x). f_equal.
    rewrite drop_app_ge by lia. rewrite Hpre, drop_replicate. f_equal. nia.
Qed.

Lemma placeFrames_placed count k w :
  (k + count = frameCount)%nat ->
  foldM (seq k count) (placeFrame p config allFrames) (placed k) w
  = (w, inr (concat (rawSlot fpc <$> allFrames))).
Proof.
  revert k. induction count as [| count IH]; intros k Hk; simpl.
  - unfold mret, M_ret. do 2 f_equal.
    replace (frameCount - k)%nat with 0%nat by lia. simpl. rewrite app_nil_r.
    rewrite take_ge; [done |].
    rewrite length_fmap, <- (length_fmap frameIndex), in_order, length_seq. lia.
  - rewrite (bind_ok _ _ _ _ _ (placeFrame_placed k w ltac:(lia))).
    apply IH. lia.
Qed.

Lemma concatRaw_slots w :
  (0 < frameCount)%nat ->
  alloc p (fpc * Z.of_nat frameCount) = true ->
  concatRaw p config frameCount allFrames w
  = (w, inr (concat (rawSlot fpc <$> allFrames))).
Proof.
  intros Hn Halloc. unfold concatRaw. rewrite Halloc.
  rewrite (bind_ok _ _ w w tt) by done.
  rewrite foldM_chunks by lia.
  rewrite <- (placeFrames_placed frameCount 0 w) by lia.
  f_equal. simpl. rewrite Nat.sub_0_r. unfold zeros. f_equal. nia.
Qed.

End RawConcat.

(** X9. What the raw pipeline writes: when the frames carry the indices
    0, 1, ... in order, each payload is either released (empty) or has
    exactly exportWidth * exportHeight * 4 bytes, the estimate is within the
    limit and the buffer can be allocated, the write stage hands FFmpeg one
    file, [raw_video.rgba], in which the frames follow one another in frame
    order, a released frame as exportWidth * exportHeight * 4 zero bytes
    and every other frame as its payload; it logs nothing else and reports
    the raw pipeline. *)
Theorem raw_stage_writes_concatenation p config frameCount allFrames w :
  (0 < frameCount)%nat ->
  0 <= framePixelCount p config ->
  frameIndex <$> allFrames = seq 0 frameCount ->
  Forall (fun f => isRawPixels f = true) allFrames ->
  Forall (fun f => frameData f = []
                   \/ len (frameData f) = framePixelCount p config) allFrames ->
  largeVideo (framePixelCount p config) frameCount = false ->
  alloc p (framePixelCount p config * Z.of_nat frameCount) = true ->
  ffmpeg_writeFile p RawVideo
    (concat (rawSlot (framePixelCount p config) <$> allFrames)) = true ->
  writeStage p config frameCount allFrames w
  = (with_log
       (fun l => l ++ [FFWrite RawVideo
                         (concat (rawSlot (framePixelCount p config) <$> allFrames))]) w,
     inr true).
Proof.
  intros Hn Hfpc Hidx Hraw Hframes Hsmall Halloc Hwrite.
  pose proof (concatRaw_slots p config frameCount allFrames Hfpc Hidx Hframes w Hn Halloc)
    as Hcat.
  assert (Hmode : match allFrames with f :: _ => isRawPixels f | [] => false end = true).
  { destruct allFrames as [| f0 rest]; [destruct frameCount; [lia | done] |].
    by inversion Hraw. }
  unfold writeStage. cbv zeta. rewrite Hmode, Hsmall.
  unfold try_catch. rewrite (bind_ok _ _ _ _ _ Hcat).
  unfold ffWrite, emit, modify, mbind, M_bind. cbn [call]. rewrite Hwrite. done.
Qed.

Lemma raw_stage_writes_concatenation_witness :
  writeStage demoPlatform (exportConfig Balanced) 3 gappedFrames idleWorld
  = (with_log
       (fun l => l ++ [FFWrite RawVideo
                         (concat (rawSlot (framePixelCount demoPlatform (exportConfig Balanced))
                                    <$> gappedFrames))]) idleWorld,
     inr true).
Proof.
  apply (raw_stage_writes_concatenation demoPlatform (exportConfig Balanced) 3 gappedFrames).
  - lia.
  - vm_compute. discriminate.
  - reflexivity.
  - repeat constructor.
  - repeat constructor; first [by left | by right].
  - reflexivity.
  - reflexivity.
  - reflexivity.
Defined.

(** ** Computations that only speak *)

Lemma with_log_nil w : with_log (fun l => l ++ []) w = w.
Proof. destruct w. unfold with_log. simpl. by rewrite app_nil_r. Qed.

Lemma with_log_app e1 e2 w :
  with_log (fun l => l ++ e2) (with_log (fun l => l ++ e1) w)
  = with_log (fun l => l ++ (e1 ++ e2)) w.
Proof. unfold with_log. simpl. by rewrite app_assoc. Qed.

Lemma says_ret {A} (a : A) : says (mret a) [] a.
Proof. intros w. by rewrite with_log_nil. Qed.

Lemma says_bind {A B} (m : M A) (k : A -> M B) e1 e2 a b :
  says m e1 a -> says (k a) e2 b -> says (m ≫= k) (e1 ++ e2) b.
Proof.
  intros Hm Hk w. rewrite (bind_ok _ _ _ _ _ (Hm w)), Hk. by rewrite with_log_app.
Qed.

Lemma says_emit e : says (emit e) [e] tt.
Proof. intros w. reflexivity. Qed.

Lemma says_forM {A B} (xs : list A) (f : A -> M B) (ev : A -> list Event) (r : A -> B) :
  (forall x, x ∈ xs -> says (f x) (ev x) (r x)) ->
  says (forM xs f) (concat (ev <$> xs)) (r <$> xs).
Proof.
  induction xs as [| x xs IH]; intros Hf; simpl.
  - apply says_ret.
  - eapply says_bind; [apply Hf, list_elem_of_here |].
    rewrite <- (app_nil_r (concat _)).
    eapply says_bind; [apply IH; intros y Hy; apply Hf; by apply list_elem_of_further |].
    apply says_ret.
Qed.

(** ** PNG mode *)

(** The batches of a list, one after the other, are the list. *)
Lemma concat_batches {A B} (g : nat -> A -> list B) (l : list A) size :
  (0 < size)%nat ->
  concat ((fun i => concat (imap (fun b x => g (i + b)%nat x) (slice l i (i + size))))
            <$> batchStarts (length l) size)
  = concat (imap g l).
Proof.
  intros Hsize. unfold batchStarts.
  assert (Hgen : forall count b,
    (b + count = ceil_div (length l) size)%nat ->
    concat ((fun i => concat (imap (fun b x => g (i + b)%nat x) (slice l i (i + size))))
              <$> ((fun k => (k * size)%nat) <$> seq b count))
    = concat (imap (fun j x => g (b * size + j)%nat x) (drop (b * size) l))).
  { induction count as [| count IH]; intros b Hb.
    - simpl. rewrite drop_ge; [done |]. unfold ceil_div in Hb. nia.
    - simpl. rewrite IH by lia.
      assert (Hlt : (b * size < length l)%nat) by (unfold ceil_div in Hb; nia).
      unfold slice. replace (b * size + size - b * size)%nat with size by lia.
      set (d := drop (b * size) l).
      transitivity (concat (imap (fun j x => g (b * size + j)%nat x)
                              (take size d ++ drop size d))); [| by rewrite take_drop].
      rewrite imap_app, concat_app. f_equal. subst d.
      rewrite drop_drop. replace (b * size + size)%nat with (S b * size)%nat by lia.
      f_equal. apply imap_ext. intros j x Hj. f_equal.
      apply lookup_lt_Some in Hj. rewrite length_drop in Hj.
      rewrite length_take, length_drop. lia. }
  rewrite Hgen by lia. simpl. by rewrite drop_0.
Qed.

Lemma concat_imap_singleton {A B} (f : nat -> A -> B) (l : list A) :
  concat (imap (fun k x => [f k x]) l) = imap f l.
Proof.
  revert f. induction l as [| x l IH]; intros f; simpl; [done |].
  f_equal. apply IH.
Qed.

Section PngMode.

Context (p : Platform) (config : ExportConfig).

Hypothesis writes_accepted : forall f data, ffmpeg_writeFile p f data = true.

Lemma says_ffWrite f data : says (ffWrite p f data) [FFWrite f data] tt.
Proof.
  unfold ffWrite. rewrite writes_accepted.
  change [FFWrite f data] with ([FFWrite f data] ++ []).
  eapply says_bind; [apply says_emit | apply says_ret].
Qed.

Lemma says_writePngFrames allFrames :
  (0 < writeBatchSize config)%nat ->
  says (writePngFrames p config allFrames)
       (imap (fun k f => FFWrite (FramePng (Z.of_nat k + 1)) (frameData f)) allFrames) tt.
Proof.
  intros Hsize. unfold writePngFrames.
  rewrite <- (app_nil_r (imap _ _)).
  eapply says_bind; [| apply says_ret].
  rewrite <- concat_imap_singleton.
  rewrite <- (concat_batches _ allFrames (writeBatchSize config) Hsize).
  apply (says_forM _ _ _ (fun i => imap (fun _ _ => tt) (slice allFrames i (i + writeBatchSize config)))).
  intros i _.
  set (batch := slice allFrames i (i + writeBatchSize config)).
  replace (concat (imap (fun b x => [FFWrite (FramePng (Z.of_nat (i + b) + 1)) (frameData x)]) batch))
    with (concat ((fun bf : nat * FrameData =>
                     [FFWrite (FramePng (Z.of_nat (i + bf.1) + 1)) (frameData bf.2)])
                  <$> imap (fun batchIndex frame => (batchIndex, frame)) batch))
    by (by rewrite fmap_imap).
  replace (imap (fun _ _ => tt) batch)
    with ((fun _ : nat * FrameData => tt)
          <$> imap (fun batchIndex frame => (batchIndex, frame)) batch)
    by (by rewrite fmap_imap).
  apply says_forM. intros [b frame] _. apply says_ffWrite.
Qed.

End PngMode.

(** X10. PNG mode: when the frames are PNG files already and FFmpeg accepts
    every write, the write stage writes the frame at position [k] as
    [frame<k+1>.png] with its payload as it is, one file per frame and in
    order, logs nothing else, and reports that the raw pipeline is not in
    use. *)
Theorem png_mode_writes_frames_in_order p config frameCount allFrames w :
  (0 < writeBatchSize config)%nat ->
  (forall f data, ffmpeg_writeFile p f data = true) ->
  Forall (fun f => isRawPixels f = false) allFrames ->
  writeStage p config frameCount allFrames w
  = (with_log
       (fun l => l ++ imap (fun k f => FFWrite (FramePng (Z.of_nat k + 1)) (frameData f))
                        allFrames) w,
     inr false).
Proof.
  intros Hsize Hwrites Hpng.
  assert (Hmode : match allFrames with f :: _ => isRawPixels f | [] => false end = false).
  { destruct allFrames as [| f0 rest]; [done |]. by inversion Hpng. }
  unfold writeStage. cbv zeta. rewrite Hmode.
  rewrite (bind_ok _ _ _ _ _ (says_writePngFrames p config Hwrites allFrames Hsize w)).
  done.
Qed.

Lemma png_mode_writes_frames_in_order_witness :
  writeStage demoPlatform (exportConfig Quality) 3 pngFrames idleWorld
  = (with_log
       (fun l => l ++ imap (fun k f => FFWrite (FramePng (Z.of_nat k + 1)) (frameData f))
                        pngFrames) idleWorld,
     inr false).
Proof.
  apply (png_mode_writes_frames_in_order demoPlatform (exportConfig Quality) 3 pngFrames).
  - simpl. lia.
  - reflexivity.
  - repeat constructor.
Defined.

(** ** The encoder run and the cleanup *)

Ltac run_step := rewrite (bind_ok _ _ _ _ _ eq_refl).

Lemma bind_assoc {A B C} (m : M A) (f : A -> M B) (g : B -> M C) w :
  ((m ≫= f) ≫= g) w = (m ≫= fun a => f a ≫= g) w.
Proof. unfold mbind, M_bind. by destruct (m w) as [w1 [e | a]]. Qed.

Lemma logs_anything {A} (m : M A) :
  stable (logs (fun _ => True)) m -> forall w, exists evs, log (m w).1 = log w ++ evs.
Proof. intros H w. destruct (H w) as (evs & E & _). eauto. Qed.

(** X11. Staged files are deleted only after the video has been read: in
    every run of the encoding stage, whatever FFmpeg does, the events that
    the stage adds are a part without any deletion, followed either by
    nothing or by the delivery of the video read from [output.mp4] and what
    comes after it. *)
Theorem cleanup_only_after_video p config frameCount settings useRaw w :
  exists pre post,
    log (encodeStage p config frameCount settings useRaw w).1 = log w ++ pre ++ post
    /\ Forall (fun e => ~ is_delete e) pre
    /\ (post = []
        \/ exists data rest,
             ffmpeg_readFile p OutputMp4 = Some data /\ post = ExportedVideo data :: rest).
Proof.
  unfold encodeStage. cbv zeta.
  set (args := {| arg_framerate := _ |}).
  set (cleanup := fun data : Uint8Array => _ ≫= _).
  assert (Hclean : forall data w1, exists rest,
            log (cleanup data w1).1 = log w1 ++ ExportedVideo data :: rest).
  { intros data w1. subst cleanup. cbv beta. run_step.
    match goal with |- context [log (?m ?x).1] =>
      destruct (logs_anything m) with (w := x) as [evs Hevs] end.
    { unfold ffDelete. stable_steps logs_base. }
    exists evs. rewrite Hevs. simpl. by rewrite <- app_assoc. }
  assert (Hquiet : forall w1 evs,
            log w1 = log w ++ evs -> Forall (fun e => ~ is_delete e) evs ->
            exists pre post,
              log ((emit (FFExec args) ≫= fun _ =>
                    call (ffmpeg_exec p args) FFmpegExecError ≫= fun _ =>
                    emit (FFRead OutputMp4) ≫= fun _ =>
                    call_val (ffmpeg_readFile p OutputMp4) FFmpegReadError ≫= cleanup) w1).1
              = log w ++ pre ++ post
              /\ Forall (fun e => ~ is_delete e) pre
              /\ (post = []
                  \/ exists data rest,
                       ffmpeg_readFile p OutputMp4 = Some data
                       /\ post = ExportedVideo data :: rest)).
  { intros w1 evs Hlog Hevs. run_step.
    destruct (ffmpeg_exec p args).
    - run_step. run_step.
      destruct (ffmpeg_readFile p OutputMp4) as [data |] eqn:Hread.
      + run_step.
        match goal with |- context [cleanup data ?x] =>
          destruct (Hclean data x) as [rest Hrest] end.
        exists (evs ++ [FFExec args; FFRead OutputMp4]), (ExportedVideo data :: rest).
        split; [| split; [| right; eauto]].
        * rewrite Hrest. simpl. rewrite Hlog, <- !app_assoc. done.
        * apply Forall_app. split; [done |]. repeat constructor; simpl; tauto.
      + exists (evs ++ [FFExec args; FFRead OutputMp4]), [].
        split; [| split; [| by left]].
        * simpl. rewrite Hlog, <- !app_assoc. done.
        * apply Forall_app. split; [done |]. repeat constructor; simpl; tauto.
    - exists (evs ++ [FFExec args]), [].
      split; [| split; [| by left]].
      + simpl. rewrite Hlog, <- !app_assoc. done.
      + apply Forall_app. split; [done |]. repeat constructor; simpl; tauto. }
  destruct (audio settings); simpl when.
  - destruct (fetchFile p) as [a |].
    + rewrite bind_assoc. run_step. unfold ffWrite at 1. rewrite bind_assoc. run_step.
      destruct (ffmpeg_writeFile p AudioMp3 a).
      * run_step. eapply Hquiet; [simpl; reflexivity |]. repeat constructor; simpl; tauto.
      * exists [FFWrite AudioMp3 a], [].
        split; [done |]. split; [| by left]. repeat constructor; simpl; tauto.
    + exists [], []. simpl. rewrite app_nil_r. split; [done |]. split; [done | by left].
  - run_step. apply (Hquiet w []); [by rewrite app_nil_r | done].
Qed.

(** ** Every staged file is deleted after a successful run *)

Lemma stable_forM_in (R : relation World) `{!PreOrder R} {A B} (xs : list A) (f : A -> M B) :
  (forall x, x ∈ xs -> stable R (f x)) -> stable R (forM xs f).
Proof.
  induction xs as [| x xs IH]; intros Hf; simpl.
  - by apply stable_ret.
  - apply stable_bind; [done | apply Hf, list_elem_of_here |]. intros y.
    apply stable_bind; [done | | intros ?; by apply stable_ret].
    apply IH. intros z Hz. apply Hf. by apply list_elem_of_further.
Qed.

Lemma stable_run (R : relation World) {A} (m : M A) w w' r :
  stable R m -> m w = (w', r) -> R w w'.
Proof. intros H E. specialize (H w). by rewrite E in H. Qed.

Lemma silent_nil w w' : logs silent w w' -> log w' = log w.
Proof.
  intros (evs & E & H). destruct evs as [| e evs]; [by rewrite app_nil_r in E |].
  by inversion H.
Qed.

Lemma in_order_index allFrames n f :
  frameIndex <$> allFrames = seq 0 n -> f ∈ allFrames -> (frameIndex f < n)%nat.
Proof.
  intros Hidx Hin.
  assert (H : frameIndex f ∈ frameIndex <$> allFrames) by (by apply list_elem_of_fmap_2).
  rewrite Hidx in H. apply elem_of_seq in H. lia.
Qed.

Lemma slice_subseteq {A} (l : list A) i j x : x ∈ slice l i j -> x ∈ l.
Proof.
  unfold slice. intros H. apply list_elem_of_lookup in H as [k Hk].
  apply lookup_take_Some in Hk as [Hk _]. rewrite lookup_drop in Hk.
  by eapply list_elem_of_lookup_2.
Qed.

Section StagedFiles.

Context (p : Platform) (config : ExportConfig) (frameCount : nat).
Context (allFrames : list FrameData).

Hypothesis in_order : frameIndex <$> allFrames = seq 0 frameCount.
Hypothesis writes_accepted : forall f data, ffmpeg_writeFile p f data = true.
Hypothesis batch_size : (0 < writeBatchSize config)%nat.

Lemma frames_convertRGBAToPNG pixels width height quality :
  stable (logs (frame_files_upto frameCount)) (convertRGBAToPNG p pixels width height quality).
Proof. autounfold with pipeline. stable_steps logs_base. Qed.

Lemma frames_writeRawAsPng :
  stable (logs (frame_files_upto frameCount)) (writeRawAsPng p config allFrames).
Proof.
  unfold writeRawAsPng.
  apply stable_bind; [apply _ | | intros ?; apply stable_ret; apply _].
  apply stable_forM; [apply _ |]. intros i.
  apply stable_forM_in; [apply _ |]. intros f Hf.
  apply slice_subseteq in Hf. apply (in_order_index _ _ _ in_order) in Hf.
  apply stable_bind; [apply _ | apply frames_convertRGBAToPNG |]. intros png.
  unfold ffWrite. apply stable_bind; [apply _ | | intros ?; apply stable_call; apply _].
  apply logs_emit. simpl. exists (S (frameIndex f)). split; [f_equal; lia | lia].
Qed.

Lemma silent_concatRaw : stable (logs silent) (concatRaw p config frameCount allFrames).
Proof. unfold concatRaw, placeFrame. stable_steps logs_base. Qed.

Lemma writeStage_files w w1 useRaw :
  writeStage p config frameCount allFrames w = (w1, inr useRaw) ->
  exists evs,
    log w1 = log w ++ evs
    /\ forall f data, FFWrite f data ∈ evs ->
         if useRaw then f = RawVideo
         else exists k, f = FramePng (Z.of_nat k) /\ (1 <= k <= frameCount)%nat.
Proof.
  assert (Hlen : length allFrames = frameCount).
  { by rewrite <- (length_fmap frameIndex), in_order, length_seq. }
  assert (Hpng : forall evs, Forall (frame_files_upto frameCount) evs ->
            forall f data, FFWrite f data ∈ evs ->
            exists k, f = FramePng (Z.of_nat k) /\ (1 <= k <= frameCount)%nat).
  { intros evs Hevs f data Hin. rewrite Forall_forall in Hevs. apply (Hevs _ Hin). }
  unfold writeStage. cbv zeta.
  destruct (match allFrames with f :: _ => isRawPixels f | [] => false end).
  - destruct (largeVideo _ _).
    + intros E.
      apply bind_inr in E as (w2 & [] & E1 & E). injection E1 as <-.
      apply bind_inr in E as (w3 & [] & E2 & E). injection E as <- <-.
      apply (stable_run _ _ _ _ _ frames_writeRawAsPng) in E2 as (evs & Hlog & Hevs).
      exists (ConsoleWarn LargeVideoDetected :: evs). split.
      * rewrite Hlog. simpl. by rewrite <- app_assoc.
      * intros f data Hin. apply elem_of_cons in Hin as [Hin | Hin];
          [done | by eapply Hpng].
    + unfold try_catch.
      destruct (_ ≫= _) as [w2 [e | b]] eqn:Ebody.
      * intros E.
        apply bind_inl in Ebody as [Ebody | (w3 & raw & Ecat & Ebody)].
        -- apply (stable_run _ _ _ _ _ silent_concatRaw) in Ebody. apply silent_nil in Ebody.
           apply bind_inr in E as (w4 & [] & E1 & E). injection E1 as <-.
           apply bind_inr in E as (w5 & [] & E2 & E). injection E as <- <-.
           apply (stable_run _ _ _ _ _ frames_writeRawAsPng) in E2 as (evs & Hlog & Hevs).
           exists (ConsoleError e :: evs). split.
           ++ rewrite Hlog. simpl. rewrite Ebody. by rewrite <- app_assoc.
           ++ intros f data Hin. apply elem_of_cons in Hin as [Hin | Hin];
                [done | by eapply Hpng].
        -- exfalso. unfold ffWrite in Ebody. rewrite writes_accepted in Ebody.
           apply bind_inl in Ebody as [Ebody | (? & ? & _ & Ebody)]; [| done].
           apply bind_inl in Ebody as [Ebody | (? & ? & _ & Ebody)]; done.
      * intros [= <- <-].
        apply bind_inr in Ebody as (w3 & raw & Ecat & Ebody).
        apply (stable_run _ _ _ _ _ silent_concatRaw) in Ecat. apply silent_nil in Ecat.
        apply bind_inr in Ebody as (w4 & [] & Ewrite & Ebody). injection Ebody as <- <-.
        unfold ffWrite in Ewrite. rewrite writes_accepted in Ewrite.
        injection Ewrite as <-.
        exists [FFWrite RawVideo raw]. split; [simpl; by rewrite Ecat |].
        intros f data Hin. apply elem_of_cons in Hin as [Hin | Hin].
        -- by injection Hin as -> _.
        -- by apply elem_of_nil in Hin.
  - intros E. pose proof (says_writePngFrames p config writes_accepted allFrames batch_size w)
      as Hsay.
    rewrite (bind_ok _ _ _ _ _ Hsay) in E. injection E as <- <-.
    eexists. split; [reflexivity |].
    intros f data Hin. apply elem_of_lookup_imap in Hin as (k & g & Hin & Hk).
    injection Hin as -> _. exists (S k). split; [f_equal; lia |].
    apply lookup_lt_Some in Hk. lia.
Qed.

End StagedFiles.

Section EncodeTrace.

Context (p : Platform) (config : ExportConfig) (frameCount : nat) (settings : Settings).

Lemma ffDelete_inr f w w' u :
  ffDelete p f w = (w', inr u) -> log w' = log w ++ [FFDelete f].
Proof.
  unfold ffDelete. intros E. apply bind_inr in E as (w1 & [] & E1 & E).
  injection E1 as <-. destruct (ffmpeg_deleteFile p f); [| done]. by injection E as <-.
Qed.

Lemma ffWrite_inr f data w w' u :
  ffWrite p f data w = (w', inr u) -> log w' = log w ++ [FFWrite f data].
Proof.
  unfold ffWrite. intros E. apply bind_inr in E as (w1 & [] & E1 & E).
  injection E1 as <-. destruct (ffmpeg_writeFile p f data); [| done]. by injection E as <-.
Qed.

Lemma forM_ffDelete_inr (g : nat -> FileName) xs w w' us :
  forM xs (fun j => ffDelete p (g j)) w = (w', inr us) ->
  log w' = log w ++ ((fun j => FFDelete (g j)) <$> xs).
Proof.
  revert w us. induction xs as [| x xs IH]; intros w us E; simpl in *.
  - injection E as <- _. by rewrite app_nil_r.
  - apply bind_inr in E as (w1 & u & E1 & E). apply ffDelete_inr in E1.
    apply bind_inr in E as (w2 & us' & E2 & E). injection E as <- _.
    rewrite (IH _ _ E2), E1, <- app_assoc. done.
Qed.

(** The events of an encoding stage that returns. *)
Lemma encodeStage_trace useRaw w w' :
  encodeStage p config frameCount settings useRaw w = (w', inr tt) ->
  exists audioIn args data,
    log w' = log w
             ++ audioIn
             ++ [FFExec args; FFRead OutputMp4; ExportedVideo data]
             ++ (if useRaw then [FFDelete RawVideo]
                 else (fun j => FFDelete (FramePng (Z.of_nat j))) <$> seq 1 frameCount)
             ++ (if audio settings then [FFDelete AudioMp3] else [])
             ++ [FFDelete OutputMp4; Toast ToastMagic]
    /\ (audioIn = [] \/ exists a, audio settings = true /\ audioIn = [FFWrite AudioMp3 a]).
Proof.
  unfold encodeStage. cbv zeta. set (args := {| arg_framerate := _ |}). intros E.
  apply bind_inr in E as (w1 & [] & Ein & E).
  assert (Hin : exists audioIn, log w1 = log w ++ audioIn
            /\ (audioIn = [] \/ exists a, audio settings = true /\ audioIn = [FFWrite AudioMp3 a])).
  { destruct (audio settings); simpl in Ein.
    - apply bind_inr in Ein as (w0 & a & E0 & Ein).
      destruct (fetchFile p) as [a0 |]; [| done]. injection E0 as <- <-.
      apply ffWrite_inr in Ein. exists [FFWrite AudioMp3 a0]. split; [done |]. right. eauto.
    - injection Ein as <-. exists []. split; [by rewrite app_nil_r | by left]. }
  destruct Hin as (audioIn & Hlog1 & HaudioIn).
  apply bind_inr in E as (w2 & [] & E2 & E). injection E2 as <-.
  apply bind_inr in E as (w3 & [] & E3 & E).
  destruct (ffmpeg_exec p args); [| done]. injection E3 as <-.
  apply bind_inr in E as (w4 & [] & E4 & E). injection E4 as <-.
  apply bind_inr in E as (w5 & data & E5 & E).
  destruct (ffmpeg_readFile p OutputMp4) as [data0 |]; [| done]. injection E5 as <- <-.
  apply bind_inr in E as (w6 & [] & E6 & E). injection E6 as <-.
  apply bind_inr in E as (w7 & [] & E7 & E).
  apply bind_inr in E as (w8 & [] & E8 & E).
  apply bind_inr in E as (w9 & [] & E9 & E). apply ffDelete_inr in E9.
  injection E as <-.
  assert (H7 : log w7 = log w ++ audioIn
                 ++ [FFExec args; FFRead OutputMp4; ExportedVideo data0]
                 ++ (if useRaw then [FFDelete RawVideo]
                     else (fun j => FFDelete (FramePng (Z.of_nat j))) <$> seq 1 frameCount)).
  { destruct useRaw.
    - apply ffDelete_inr in E7. rewrite E7. simpl. rewrite Hlog1, <- !app_assoc. done.
    - apply bind_inr in E7 as (w7' & us & E7 & E7'). injection E7' as <-.
      apply (forM_ffDelete_inr (fun j => FramePng (Z.of_nat j))) in E7.
      rewrite E7. simpl. rewrite Hlog1, <- !app_assoc. done. }
  assert (H8 : log w8 = log w7 ++ (if audio settings then [FFDelete AudioMp3] else [])).
  { destruct (audio settings); simpl in E8.
    - by apply ffDelete_inr in E8.
    - injection E8 as <-. by rewrite app_nil_r. }
  exists audioIn, args, data0. split; [| done].
  simpl. rewrite E9, H8, H7, <- !app_assoc. done.
Qed.

End EncodeTrace.

(** X12. After a run of the write stage and the encoding stage that returns,
    no staged file is left behind: when the frames carry the indices
    0, 1, ... in order (as the capture stage delivers them) and FFmpeg
    accepts every write, every file that was written during the run, be it
    [raw_video.rgba], a frame file or [audio.mp3], has been deleted by the
    end of it, and so has [output.mp4]. *)
Theorem staged_files_are_deleted p config frameCount settings allFrames w w' :
  frameIndex <$> allFrames = seq 0 frameCount ->
  (forall f data, ffmpeg_writeFile p f data = true) ->
  (0 < writeBatchSize config)%nat ->
  (writeStage p config frameCount allFrames
     ≫= encodeStage p config frameCount settings) w = (w', inr tt) ->
  exists evs,
    log w' = log w ++ evs
    /\ (forall f data, FFWrite f data ∈ evs -> FFDelete f ∈ evs)
    /\ FFDelete OutputMp4 ∈ evs.
Proof.
  intros Hidx Hwrites Hsize E.
  apply bind_inr in E as (w1 & useRaw & Ewrite & Eenc).
  apply (writeStage_files p config frameCount allFrames Hidx Hwrites Hsize) in Ewrite
    as (evs1 & Hlog1 & Hfiles).
  apply encodeStage_trace in Eenc as (audioIn & args & data & Hlog2 & HaudioIn).
  eexists. split; [rewrite Hlog2, Hlog1, <- app_assoc; reflexivity |].
  split.
  - intros f d Hin. rewrite !elem_of_app in Hin. rewrite !elem_of_app.
    destruct Hin as [Hin | [Hin | [Hin | [Hin | [Hin | Hin]]]]].
    + specialize (Hfiles f d Hin). do 3 right. left.
      destruct useRaw.
      * subst f. apply list_elem_of_here.
      * destruct Hfiles as (k & -> & Hk).
        apply (list_elem_of_fmap_2 (fun j => FFDelete (FramePng (Z.of_nat j)))).
        apply elem_of_seq. lia.
    + destruct HaudioIn as [-> | (a & Haudio & ->)]; [by apply elem_of_nil in Hin |].
      apply list_elem_of_singleton in Hin. injection Hin as -> _.
      do 4 right. left. rewrite Haudio. apply list_elem_of_here.
    + exfalso. rewrite !elem_of_cons in Hin.
      destruct Hin as [Hin | [Hin | [Hin | Hin]]]; try done.
      by apply elem_of_nil in Hin.
    + exfalso. destruct useRaw.
      * apply list_elem_of_singleton in Hin. done.
      * apply list_elem_of_fmap in Hin as (j & Hj & _). done.
    + exfalso. destruct (audio settings); [apply list_elem_of_singleton in Hin; done |].
      by apply elem_of_nil in Hin.
    + exfalso. rewrite !elem_of_cons in Hin. destruct Hin as [Hin | [Hin | Hin]]; try done.
      by apply elem_of_nil in Hin.
  - rewrite !elem_of_app. do 5 right. apply list_elem_of_here.
Qed.

Lemma staged_files_are_deleted_witness :
  exists evs,
    log ((writeStage demoPlatform (exportConfig Quality) 3 pngFrames
            ≫= encodeStage demoPlatform (exportConfig Quality) 3 demoSettings) idleWorld).1
    = log idleWorld ++ evs
    /\ (forall f data, FFWrite f data ∈ evs -> FFDelete f ∈ evs)
    /\ FFDelete OutputMp4 ∈ evs.
Proof.
  apply (staged_files_are_deleted demoPlatform (exportConfig Quality) 3 demoSettings
           pngFrames idleWorld).
  - reflexivity.
  - reflexivity.
  - simpl. lia.
  - reflexivity.
Defined.

(** ** Export mode on the canvas component *)

(** X13. [setExportMode(true)] followed by [setExportMode(false)] puts the
    stage filter chain and the visibility of the effects layer, of the haze
    and of the grain back to what they were, whatever saved values the
    objects carried before, and ends outside export mode. *)
Theorem export_mode_round_trip c :
  let c' := disableExportMode (enableExportMode c) in
  (filters ∘ stage) <$> appRef c' = (filters ∘ stage) <$> appRef c
  /\ visible <$> effectsLayerRef c' = visible <$> effectsLayerRef c
  /\ visible <$> hazeRef c' = visible <$> hazeRef c
  /\ visible <$> grainRef c' = visible <$> grainRef c
  /\ exportModeRef c' = false.
Proof.
  destruct c as [[[[fl sf] tk idle] |] [[ev se] |] [[hv sh] |] [[gv sg] |] background mode];
    cbv zeta; simpl; repeat split.
Qed.

(** X14. The saved values are one deep: a second [setExportMode(true)]
    before the [setExportMode(false)] overwrites them with the export-mode
    values, and the canvas with an application and an effects layer then
    comes back with its filters removed and its effects layer, haze and
    grain hidden, whatever they were at the start. *)
Theorem export_mode_is_one_deep c :
  is_Some (appRef c) -> is_Some (effectsLayerRef c) ->
  let c' := disableExportMode (enableExportMode (enableExportMode c)) in
  (filters ∘ stage) <$> appRef c' = Some None
  /\ visible <$> effectsLayerRef c' = Some false
  /\ visible <$> hazeRef c' = (fun _ => false) <$> hazeRef c
  /\ visible <$> grainRef c' = (fun _ => false) <$> grainRef c.
Proof.
  intros [app Happ] [effects Heffects].
  destruct c as [a e [haze |] [grain |] background mode]; simpl in *; subst;
    cbv zeta; simpl; repeat split.
Qed.

Lemma export_mode_is_one_deep_witness :
  let c' := disableExportMode (enableExportMode (enableExportMode previewCanvas)) in
  (filters ∘ stage) <$> appRef c' = Some None
  /\ visible <$> effectsLayerRef c' = Some false
  /\ visible <$> hazeRef c' = (fun _ => false) <$> hazeRef previewCanvas
  /\ visible <$> grainRef c' = (fun _ => false) <$> grainRef previewCanvas.
Proof.
  apply (export_mode_is_one_deep previewCanvas); by eexists.
Defined.

(** ** Export dimensions *)

(** X15. For the three keys of the quality select, the export size of a
    canvas side of [c] pixels is [c] itself for ["balanced"] and
    ["quality"], and three quarters of it, rounded down, for ["fast"]. *)
Theorem export_size_by_preset key c :
  key = "fast"%string \/ key = "balanced"%string \/ key = "quality"%string ->
  exportSize c (config_of_key key) = if String.eqb key "fast" then 3 * c / 4 else c.
Proof.
  intros [-> | [-> | ->]]; unfold config_of_key; simpl.
  - unfold exportSize, Qfloor, Qmult, inject_Z. simpl. f_equal. lia.
  - by apply exportSize_full.
  - by apply exportSize_full.
Qed.

Lemma export_size_by_preset_witness :
  exportSize 1080 (config_of_key "fast")
  = if String.eqb "fast" "fast" then 3 * 1080 / 4 else 1080.
Proof. apply (export_size_by_preset "fast" 1080). left. reflexivity. Defined.

(** ** Resolution presets *)

Lemma resolution_ids_distinct p q :
  p ∈ Resolutions.RESOLUTION_PRESETS -> q ∈ Resolutions.RESOLUTION_PRESETS ->
  Resolutions.id p = Resolutions.id q -> p = q.
Proof.
  unfold Resolutions.RESOLUTION_PRESETS. intros Hp Hq.
  repeat (apply elem_of_cons in Hp as [-> | Hp]);
    try (by apply elem_of_nil in Hp);
    repeat (apply elem_of_cons in Hq as [-> | Hq]);
    try (by apply elem_of_nil in Hq);
    intros Hid; first [reflexivity | discriminate Hid].
Qed.

(** X16. The lookup of a resolution always returns an entry of the table:
    the entry with the given id when there is one (the ids are distinct),
    and the first entry, the 1080 x 1920 Instagram Reel, for every other
    id. *)
Theorem resolution_lookup key :
  exists preset,
    Resolutions.getResolutionById key = Some preset
    /\ preset ∈ Resolutions.RESOLUTION_PRESETS
    /\ (forall q, q ∈ Resolutions.RESOLUTION_PRESETS -> Resolutions.id q = key -> preset = q)
    /\ ((forall q, q ∈ Resolutions.RESOLUTION_PRESETS -> Resolutions.id q <> key) ->
        Resolutions.id preset = "instagram-reel"%string
        /\ Resolutions.width preset = 1080 /\ Resolutions.height preset = 1920).
Proof.
  unfold Resolutions.getResolutionById.
  destruct (List.find _ _) as [preset |] eqn:Hfind.
  - apply find_some in Hfind as [Hin Hid].
    apply list_elem_of_In in Hin. apply String.eqb_eq in Hid.
    exists preset. split; [done |]. split; [done |]. split.
    + intros q Hq Hkey. apply resolution_ids_distinct; congruence.
    + intros Hnone. by destruct (Hnone preset Hin).
  - eexists. split; [reflexivity |]. split; [apply list_elem_of_here |]. split.
    + intros q Hq Hkey. exfalso.
      apply list_elem_of_In in Hq.
      pose proof (find_none _ _ Hfind q Hq) as Hne. simpl in Hne.
      apply String.eqb_neq in Hne. done.
    + intros _. by repeat split.
Qed.

(** ** What the direct read delivers *)

Section ExactCapture.

Context (p : Platform) (config : ExportConfig) (Hp : healthy p config).

Lemma exact_downsamplePixels src sw sh tw th :
  total (downsamplePixels p src sw sh tw th)
        (fun r => r = imageDataBytes
                        (default (fun _ => Byte.x00) (canvas_resample p src sw sh tw th))
                        tw th).
Proof.
  unfold downsamplePixels.
  eapply total_bind; [apply total_getTempCanvas |]. intros c1 _.
  rewrite (healthy_image p config Hp).
  eapply total_bind; [apply total_call_true |]. intros _ _.
  eapply total_bind; [apply total_getTempCanvas |]. intros c2 _.
  destruct (healthy_resample p config Hp src sw sh tw th) as [content ->].
  eapply total_bind; [apply total_call_val_Some |]. intros c ->.
  eapply total_bind; [apply total_releaseTempCanvas |]. intros _ _.
  eapply total_bind; [apply total_releaseTempCanvas |]. intros _ _.
  by apply total_ret.
Qed.

Lemma exact_captureWebGL i :
  total (captureWebGL p config i) (fun px => px = PxUint8 (webglFrame p config i)).
Proof.
  destruct (healthy_canvas p config Hp) as [Hcw Hch].
  unfold captureWebGL, webglFrame, actualCanvasWidth, actualCanvasHeight.
  eapply total_bind.
  { apply total_getPixelBuffer; [nia | apply (healthy_alloc p config Hp)]. }
  intros buffer Hbuf. unfold readPixels.
  destruct (healthy_read p config Hp i) as [content ->].
  eapply total_bind.
  { eapply total_bind; [apply total_call_val_Some |]. intros c ->.
    apply (total_ret _ (fun full =>
             full = content <$> seq 0 (Z.to_nat (canvas_width p * canvas_height p * 4)))).
    do 2 f_equal. unfold len in Hbuf. lia. }
  intros full ->. cbv zeta. simpl default. destruct (downsampling config).
  - eapply total_bind; [apply exact_downsamplePixels |]. intros pixels ->.
    eapply total_bind; [apply total_releasePixelBuffer |]. intros _ _.
    by apply total_ret.
  - by apply total_ret.
Qed.

Lemma len_webglFrame i : len (webglFrame p config i) = webglSize p config.
Proof.
  destruct (healthy_canvas p config Hp) as [Hcw Hch].
  destruct (healthy_export p config Hp) as [Hew Heh].
  unfold webglFrame, webglSize, actualCanvasWidth, actualCanvasHeight. cbv zeta.
  destruct (downsampling config).
  - apply len_imageDataBytes. nia.
  - unfold len. rewrite length_fmap, length_seq. nia.
Qed.

Lemma exact_captureFrame i :
  useRawPixels config = true ->
  total (captureFrame p config i)
        (fun f => f = {| frameData := webglFrame p config i; frameIndex := i;
                         isRawPixels := true |}).
Proof.
  intros Hraw.
  destruct (healthy_canvas p config Hp) as [Hcw Hch].
  destruct (healthy_export p config Hp) as [Hew Heh].
  assert (Hpos : 0 < webglSize p config).
  { unfold webglSize, actualCanvasWidth, actualCanvasHeight.
    destruct (downsampling config); nia. }
  unfold captureFrame. apply total_try_catch.
  eapply total_bind.
  { unfold extractPixels, useWebGLCapture.
    rewrite (healthy_gl p config Hp), (healthy_context p config Hp). simpl.
    apply total_try_catch, exact_captureWebGL. }
  intros px ->. simpl. rewrite len_webglFrame.
  replace (webglSize p config =? 0) with false by lia.
  rewrite Hraw. by apply total_ret.
Qed.

End ExactCapture.

Lemma imap_fmap_seq {A B} (f : nat -> A -> B) (g : nat -> A) n :
  imap f (g <$> seq 0 n) = (fun i => f i (g i)) <$> seq 0 n.
Proof.
  apply list_eq. intros j. rewrite list_lookup_imap, !list_lookup_fmap.
  destruct (decide (j < n)%nat) as [Hj | Hj].
  - by rewrite lookup_seq_lt.
  - by rewrite lookup_seq_ge by lia.
Qed.

(** ** A session that delivers its video *)

Section Delivery.

Context (p : Platform) (settings : Settings) (data : Uint8Array).

Local Abbreviation config := (sessionConfig settings).
Local Abbreviation n := (sessionFrameCount settings).
Local Abbreviation fpc := (framePixelCount p (sessionConfig settings)).

Hypothesis platform_healthy : healthy p config.
Hypothesis ffmpeg_cooperative : cooperative p data.
Hypothesis raw_mode : useRawPixels config = true.
Hypothesis some_frames : (0 < n)%nat.
Hypothesis small_video : largeVideo fpc n = false.
Hypothesis buffer_granted : alloc p (fpc * Z.of_nat n) = true.

Lemma preset_resolution key : (exportResolution (config_of_key key) <= 1)%Q.
Proof. unfold config_of_key. destruct (default Balanced _); vm_compute; discriminate. Qed.

Lemma webglSize_fpc : webglSize p config = fpc.
Proof.
  unfold webglSize, framePixelCount, downsampling.
  destruct (Qle_bool 1 (exportResolution config)) eqn:Hone; simpl; [| done].
  apply Qle_bool_iff in Hone.
  assert (Heq : (exportResolution config == 1)%Q)
    by (apply Qle_antisym; [apply preset_resolution | done]).
  unfold exportWidth, exportHeight. by rewrite !exportSize_full.
Qed.

Lemma fpc_pos : 0 < fpc.
Proof.
  destruct (healthy_export p config platform_healthy). unfold framePixelCount. nia.
Qed.

Lemma quiet_capture orig : stable (logs capture_event) (captureStage p settings orig).
Proof.
  unfold captureStage, captureLoop, captureBatch.
  autounfold with pipeline. stable_steps logs_base.
Qed.

(** The frames of the session as the capture stage returns them. *)
Local Abbreviation sessionFrames :=
  ((fun i => mark (batchSize config n) (batches config n) i
               {| frameData := webglFrame p config i; frameIndex := i;
                  isRawPixels := true |}) <$> seq 0 n).

Lemma captureStage_runs orig w :
  exists w1 evs,
    captureStage p settings orig w = (w1, inr sessionFrames)
    /\ log w1 = log w ++ evs /\ Forall capture_event evs.
Proof.
  pose proof (preset_capture_size (exportQuality settings)) as Hc.
  destruct (captureLoop_succeeds p config n
              (fun i _ => healthy_captureFrame_succeeds p config platform_healthy i) w)
    as (w0 & allFrames & E).
  destruct (captureLoop_shape p config n w w0 allFrames Hc some_frames E)
    as (results & Hres & ->).
  assert (Hexact : results
                   = (fun i => {| frameData := webglFrame p config i; frameIndex := i;
                                  isRawPixels := true |}) <$> seq 0 n).
  { symmetry. apply list_eq_Forall2, Forall2_fmap_l.
    eapply Forall2_impl; [exact Hres |]. intros i f Hy. simpl.
    by rewrite (total_yields _ _ _ _
                  (exact_captureFrame p config platform_healthy i raw_mode) Hy). }
  rewrite Hexact, imap_fmap_seq in E.
  pose proof (quiet_capture orig w) as Hq.
  unfold captureStage in *. unfold try_finally in *. rewrite E in *.
  unfold emit, modify, mbind, M_bind in *. simpl in *.
  destruct Hq as (evs & Hlog & Hevs).
  eexists _, evs. split; [reflexivity |]. done.
Qed.

Lemma sessionFrames_indices : frameIndex <$> sessionFrames = seq 0 n.
Proof.
  rewrite <- list_fmap_compose. rewrite <- (list_fmap_id (seq 0 n)) at 2.
  apply list_fmap_ext. intros _ i _. simpl. by rewrite frameIndex_mark.
Qed.

Lemma sessionFrames_slots :
  concat (rawSlot fpc <$> sessionFrames) = capturedVideo p config n.
Proof.
  unfold capturedVideo. f_equal. rewrite <- list_fmap_compose.
  apply list_fmap_ext. intros _ i _. simpl. unfold mark, rawSlot.
  destruct (clearedBy _ _ i); simpl; [done |].
  pose proof (len_webglFrame p config platform_healthy i) as Hlen.
  rewrite webglSize_fpc in Hlen. pose proof fpc_pos.
  destruct (webglFrame p config i); [unfold len in Hlen; simpl in Hlen; lia | done].
Qed.

Lemma len_capturedVideo : len (capturedVideo p config n) = fpc * Z.of_nat n.
Proof.
  pose proof fpc_pos as Hpos. unfold capturedVideo, len.
  match goal with |- context [concat ?l] => set (slots := l) end.
  assert (Hslots : length slots = n) by (subst slots; by rewrite length_fmap, length_seq).
  rewrite <- (take_ge slots n) by lia.
  rewrite (length_concat_take _ (Z.to_nat fpc)).
  - rewrite Hslots. nia.
  - apply Forall_fmap, Forall_forall. intros i _. simpl.
    destruct (clearedBy _ _ i).
    + unfold zeros. by rewrite length_replicate.
    + pose proof (len_webglFrame p config platform_healthy i) as Hlen.
      rewrite webglSize_fpc in Hlen. unfold len in Hlen. lia.
Qed.

Lemma writeStage_raw w :
  writeStage p config n sessionFrames w
  = (with_log (fun l => l ++ [FFWrite RawVideo (capturedVideo p config n)]) w, inr true).
Proof.
  pose proof fpc_pos as Hpos.
  assert (Hpay : Forall (fun f => frameData f = [] \/ len (frameData f) = fpc)
                        sessionFrames).
  { apply Forall_fmap, Forall_forall. intros i _. simpl. unfold mark.
    destruct (clearedBy _ _ i); simpl; [by left | right].
    by rewrite (len_webglFrame p config platform_healthy i), webglSize_fpc. }
  pose proof (concatRaw_slots p config n sessionFrames ltac:(lia) sessionFrames_indices
                Hpay w some_frames buffer_granted) as Hcat.
  rewrite sessionFrames_slots in Hcat.
  assert (Hmode : match sessionFrames with f :: _ => isRawPixels f | [] => false end
                  = true).
  { destruct n as [| n']; [lia |]. simpl. unfold mark.
    by destruct (clearedBy _ _ 0%nat). }
  unfold writeStage. cbv zeta. rewrite Hmode, small_video.
  unfold try_catch. rewrite (bind_ok _ _ _ _ _ Hcat).
  unfold ffWrite, emit, modify, mbind, M_bind. cbn [call].
  by rewrite (coop_write p data ffmpeg_cooperative).
Qed.

Lemma says_ffDelete f : says (ffDelete p f) [FFDelete f] tt.
Proof.
  unfold ffDelete. rewrite (coop_delete p data ffmpeg_cooperative).
  change [FFDelete f] with ([FFDelete f] ++ []).
  eapply says_bind; [apply says_emit | apply says_ret].
Qed.

(** The encoding stage after a raw write, with FFmpeg cooperating. *)
Lemma encodeStage_raw_says :
  exists audioIn args,
    says (encodeStage p config n settings true)
         (audioIn
          ++ [FFExec args; FFRead OutputMp4; ExportedVideo data; FFDelete RawVideo]
          ++ (if audio settings then [FFDelete AudioMp3] else [])
          ++ [FFDelete OutputMp4; Toast ToastMagic]) tt
    /\ Forall (fun e => exists a, e = FFWrite AudioMp3 a) audioIn
    /\ arg_framerate args = Z.of_nat (frameRate config)
    /\ arg_input args = RawInput (exportWidth p config) (exportHeight p config).
Proof.
  destruct (coop_fetch p data ffmpeg_cooperative) as [a Ha].
  exists (if audio settings then [FFWrite AudioMp3 a] else []),
    {| arg_framerate := Z.of_nat (frameRate config);
       arg_input := RawInput (exportWidth p config) (exportHeight p config);
       arg_audio :=
         if audio settings
         then Some (audioLoop settings,
                    default Balanced (preset_of_key (exportQuality settings)))
         else None;
       arg_codec := default Balanced (preset_of_key (exportQuality settings)) |}.
  split; [| split; [| split; reflexivity]].
  - unfold encodeStage. cbv zeta.
    rewrite Ha, (coop_exec p data ffmpeg_cooperative), (coop_read p data ffmpeg_cooperative).
    eapply says_bind.
    { destruct (audio settings); simpl when.
      - change [FFWrite AudioMp3 a] with ([] ++ [FFWrite AudioMp3 a]).
        eapply says_bind; [apply (says_ret a) |].
        unfold ffWrite. rewrite (coop_write p data ffmpeg_cooperative).
        change [FFWrite AudioMp3 a] with ([FFWrite AudioMp3 a] ++ []).
        eapply says_bind; [apply says_emit | apply says_ret].
      - apply says_ret. }
    eapply (says_bind _ _ [FFExec _]); [apply says_emit |].
    eapply (says_bind _ _ []); [apply (says_ret tt) |].
    eapply (says_bind _ _ [FFRead OutputMp4]); [apply says_emit |].
    eapply (says_bind _ _ []); [apply (says_ret data) |].
    eapply (says_bind _ _ [ExportedVideo data]); [apply says_emit |].
    eapply (says_bind _ _ [FFDelete RawVideo]); [apply says_ffDelete |].
    eapply says_bind.
    { destruct (audio settings); simpl when; [apply says_ffDelete | apply says_ret]. }
    eapply (says_bind _ _ [FFDelete OutputMp4] [Toast ToastMagic]);
      [apply says_ffDelete | apply says_emit].
  - destruct (audio settings); repeat constructor. by exists a.
Qed.

Lemma captureAndEncode_delivers w app :
  appRef (pixi w) = Some app ->
  exists w' captured audioIn args,
    captureAndEncode p settings w = (w', inr tt)
    /\ log w' = log w ++ captured ++ rawDelivery settings (capturedVideo p config n) audioIn args data
    /\ Forall capture_event captured
    /\ Forall (fun e => exists a, e = FFWrite AudioMp3 a) audioIn
    /\ arg_framerate args = Z.of_nat (frameRate config)
    /\ arg_input args = RawInput (exportWidth p config) (exportHeight p config).
Proof.
  intros Happ. unfold captureAndEncode.
  rewrite (bind_ok _ _ w w w) by done. rewrite Happ.
  rewrite (bind_ok _ _ w _ tt) by done.
  set (w1 := with_locals _ w).
  pose (w2 := if started (ticker app) then w1 else with_app (set_started true) w1).
  rewrite (bind_ok _ _ w1 w2 tt) by (subst w2; by destruct (started (ticker app))).
  rewrite (bind_ok _ _ w2 _ tt) by done.
  set (w3 := with_app _ w2).
  assert (Hlog3 : log w3 = log w).
  { subst w3 w2 w1. by destruct (started (ticker app)). }
  clearbody w3.
  destruct (captureStage_runs (textureGC_maxIdle app) w3)
    as (w4 & captured & E & Hlog & Hcap).
  rewrite (bind_ok _ _ _ _ _ E). cbv zeta.
  rewrite (sortFrames_sorted _ 0)
    by (rewrite sessionFrames_indices; by rewrite length_fmap, length_seq).
  rewrite (bind_ok _ _ _ _ _ (writeStage_raw w4)).
  destruct encodeStage_raw_says as (audioIn & args & Hsays & HaudioIn & Hrate & Hinput).
  rewrite Hsays.
  eexists _, captured, audioIn, args. split; [reflexivity |].
  split; [| done].
  cbn [log with_log]. rewrite Hlog, Hlog3. unfold rawDelivery.
  rewrite <- !app_assoc. done.
Qed.

Lemma enableExportMode_app c : is_Some (appRef c) -> is_Some (appRef (enableExportMode c)).
Proof.
  intros [app Happ]. unfold enableExportMode. rewrite Happ.
  destruct (effectsLayerRef c); simpl; eauto.
Qed.

Lemma startSession_delivers w :
  is_Some (appRef (pixi w)) ->
  exists w' captured audioIn args,
    startSession p settings w = (w', inr tt)
    /\ log w' = log w ++ captured ++ rawDelivery settings (capturedVideo p config n) audioIn args data
    /\ Forall capture_event captured
    /\ Forall (fun e => exists a, e = FFWrite AudioMp3 a) audioIn
    /\ arg_framerate args = Z.of_nat (frameRate config)
    /\ arg_input args = RawInput (exportWidth p config) (exportHeight p config).
Proof.
  intros Happ. unfold startSession.
  rewrite (bind_ok _ _ w w w) by done.
  destruct (enableExportMode_app _ Happ) as [app' Happ'].
  destruct Happ as [app Happ]. rewrite Happ.
  rewrite (bind_ok _ _ _ _ _ (setExportMode_true w)).
  rewrite (bind_ok _ _ _ _ tt) by done.
  set (w2 := with_locals _ _).
  pose (w3 := if isPlaying w then w2 else with_isPlaying true w2).
  rewrite (bind_ok _ _ w2 w3 tt) by (subst w3; by destruct (isPlaying w)).
  assert (Hlog3 : log w3 = log w) by (subst w3 w2; by destruct (isPlaying w)).
  assert (Happ3 : appRef (pixi w3) = Some app') by (subst w3 w2; by destruct (isPlaying w)).
  clearbody w3.
  destruct (captureAndEncode_delivers w3 app' Happ3)
    as (w' & captured & audioIn & args & E & Hlog & H).
  exists w', captured, audioIn, args. split; [done |]. split; [| done].
  by rewrite Hlog, Hlog3.
Qed.

Lemma sessionBody_delivers w :
  is_Some (appRef (pixi w)) ->
  exists w' loading captured audioIn args,
    sessionBody p settings w = (w', inr tt)
    /\ log w' = log w ++ loading ++ captured ++ rawDelivery settings (capturedVideo p config n) audioIn args data
    /\ loading = (if ffmpeg_loaded w then [] else [FFLoad; Toast ToastInfo])
    /\ Forall capture_event captured
    /\ Forall (fun e => exists a, e = FFWrite AudioMp3 a) audioIn
    /\ arg_framerate args = Z.of_nat (frameRate config)
    /\ arg_input args = RawInput (exportWidth p config) (exportHeight p config).
Proof.
  intros Happ. unfold sessionBody, mbind, M_bind. rewrite ensureLoaded_run.
  destruct (ffmpeg_loaded w) eqn:Hloaded.
  - destruct (startSession_delivers w Happ)
      as (w' & captured & audioIn & args & E & Hlog & H).
    exists w', [], captured, audioIn, args. split; [done |]. split; [done |].
    split; [done | done].
  - rewrite (coop_load p data ffmpeg_cooperative).
    set (w1 := with_log _ (with_ffmpeg_loaded true _)).
    destruct (startSession_delivers w1 Happ)
      as (w' & captured & audioIn & args & E & Hlog & H).
    exists w', [FFLoad; Toast ToastInfo], captured, audioIn, args.
    split; [done |]. split; [| split; [done | done]].
    rewrite Hlog. subst w1. cbn [log with_log with_ffmpeg_loaded].
    rewrite <- !app_assoc. done.
Qed.

End Delivery.


Lemma demoPlatform_cooperative : cooperative demoPlatform [Byte.x00; Byte.x01].
Proof. split; first [done | by eexists]. Qed.


(** ** Released payloads in PNG mode *)

(** X18. In PNG mode the capture loop releases payloads as in raw mode, and
    the write stage writes what is left: on a platform whose outside calls
    all work, when FFmpeg accepts every write, a capture of more than 8
    batches ends with every frame of batch 2 written as an empty
    [frame<i+1>.png]. *)
Theorem png_session_writes_released_frames_empty p config n w :
  healthy p config ->
  (forall f data, ffmpeg_writeFile p f data = true) ->
  useRawPixels config = false ->
  (0 < frameCaptureSize config)%nat -> (0 < writeBatchSize config)%nat ->
  (8 < batches config n)%nat ->
  exists w' evs,
    (captureLoop p config n
       ≫= fun allFrames => writeStage p config n (sortFrames allFrames)) w
    = (w', inr false)
    /\ log w' = log w ++ evs
    /\ forall i, (2 * batchSize config n <= i < 3 * batchSize config n)%nat ->
         FFWrite (FramePng (Z.of_nat i + 1)) [] ∈ evs.
Proof.
  intros Hp Hwrites Hpng Hc Hsize Hbatches.
  assert (Hbs : (0 < batchSize config n)%nat /\ (8 * batchSize config n < n)%nat).
  { unfold batches, ceil_div, batchSize in *.
    destruct (decide (n = 0)%nat) as [-> | Hn0].
    - simpl in Hbatches. rewrite Nat.min_0_r in Hbatches. simpl in Hbatches. lia.
    - split; [lia |]. nia. }
  destruct Hbs as [Hbs Hn8].
  destruct (captureLoop_payloads p config n w Hp Hc) as (w1 & allFrames & E & Hlen & Hall);
    [lia |].
  pose proof (quiet_captureLoop p config n w) as Hq. rewrite E in Hq.
  destruct Hq as (evs0 & Hlog0 & _). simpl in Hlog0.
  rewrite (bind_ok _ _ _ _ _ E).
  apply capture_output in E as (Hsorted & _ & Hraw); [| done | lia].
  rewrite Hsorted.
  assert (Hmode : Forall (fun f => isRawPixels f = false) allFrames).
  { apply Forall_lookup. intros i f Hf.
    assert (Hi : (i < n)%nat) by (rewrite <- Hlen; by eapply lookup_lt_Some).
    destruct (Hraw i Hi) as (f' & Hf' & _ & Hr & _).
    assert (f' = f) as -> by congruence. by rewrite Hr. }
  assert (Hfirst : match allFrames with f :: _ => isRawPixels f | [] => false end = false).
  { destruct allFrames as [| f0 rest]; [done |]. by inversion Hmode. }
  unfold writeStage. cbv zeta. rewrite Hfirst.
  rewrite (bind_ok _ _ _ _ _ (says_writePngFrames p config Hwrites allFrames Hsize w1)).
  eexists _, _. split; [reflexivity |]. split.
  { cbn [log with_log]. rewrite Hlog0, <- app_assoc. reflexivity. }
  intros i Hi. apply elem_of_app. right.
  destruct (Hall i) as (f & Hf & _ & Hpay); [lia |].
  assert (Hcleared : clearedBy (batchSize config n) (batches config n) i = true).
  { apply clearedBy_spec.
    replace (i / batchSize config n)%nat with 2%nat by nia. simpl. lia. }
  rewrite Hcleared in Hpay.
  apply (elem_of_lookup_imap_2
           (fun k f => FFWrite (FramePng (Z.of_nat k + 1)) (frameData f)) allFrames f i) in Hf.
  by rewrite Hpay in Hf.
Qed.

Lemma png_session_writes_released_frames_empty_witness :
  exists w' evs,
    (captureLoop demoPlatform (exportConfig Quality) 150
       ≫= fun allFrames => writeStage demoPlatform (exportConfig Quality) 150
                             (sortFrames allFrames)) idleWorld
    = (w', inr false)
    /\ log w' = log idleWorld ++ evs
    /\ forall i, (2 * batchSize (exportConfig Quality) 150 <= i
                  < 3 * batchSize (exportConfig Quality) 150)%nat ->
         FFWrite (FramePng (Z.of_nat i + 1)) [] ∈ evs.
Proof.
  apply (png_session_writes_released_frames_empty demoPlatform (exportConfig Quality) 150).
  - apply demoPlatform_healthy.
  - reflexivity.
  - reflexivity.
  - simpl. lia.
  - simpl. lia.
  - vm_compute. lia.
Defined.

(** ** A session that cannot start *)

(** X19. When a session ends before it has enabled export mode (the video
    engine does not load, or the canvas is gone), the [finally] block still
    finds [wasPlaying] at its initial [false] and switches the preview to
    paused, whatever the play state was. *)
Theorem failed_start_pauses_preview p settings w :
  exporting w = false -> pixiCanvasRef w = true ->
  reachesCapture p w = false ->
  isPlaying (handleExport p settings w).1 = false.
Proof.
  intros Hexp Hmounted Hreach.
  pose proof (handleExport_renderState p settings w Hexp Hmounted) as H.
  unfold renderState in H. injection H as _ Hplay. by rewrite Hplay, Hreach.
Qed.

Lemma failed_start_pauses_preview_witness :
  isPlaying detachedWorld = true
  /\ isPlaying (handleExport demoPlatform demoSettings detachedWorld).1 = false.
Proof.
  split; [reflexivity |].
  apply failed_start_pauses_preview; reflexivity.
Defined.

(** ** The transcoder on a buffer of the right size *)

(** X20. A non-empty buffer of exactly width * height * 4 bytes is handed
    to the canvas without a word on the console: the outcome of the
    transcoder is the outcome of the canvas encoding. *)
Theorem exact_size_is_transcoded_quietly p pixels width height quality w :
  len pixels <> 0 ->
  len pixels = width * height * 4 ->
  exists w',
    convertRGBAToPNG p pixels width height quality w
    = (w', canvasEncode p pixels width height quality)
    /\ log w' = log w.
Proof.
  intros Hne Hsize.
  unfold convertRGBAToPNG, canvasEncode, getTempCanvas, releaseTempCanvas, emit,
    call, call_val, when, modify, get, mbind, M_bind, mret, M_ret, throw.
  replace (len pixels =? 0) with false by lia.
  replace (len pixels =? width * height * 4) with true by lia.
  simpl.
  destruct (list_find _ (tempCanvasPool w)) as [[i c] |];
    destruct (new_ImageData p pixels width height);
    destruct (canvas_toBlob p pixels width height quality); simpl;
    repeat case_bool_decide; simpl;
    eexists; (split; [reflexivity | reflexivity]).
Qed.

Lemma exact_size_is_transcoded_quietly_witness :
  exists w',
    convertRGBAToPNG demoPlatform [Byte.x01; Byte.x02; Byte.x03; Byte.x04] 1 1 (9 # 10)
      idleWorld
    = (w', canvasEncode demoPlatform [Byte.x01; Byte.x02; Byte.x03; Byte.x04] 1 1 (9 # 10))
    /\ log w' = log idleWorld.
Proof.
  apply (exact_size_is_transcoded_quietly demoPlatform
           [Byte.x01; Byte.x02; Byte.x03; Byte.x04] 1 1 (9 # 10) idleWorld).
  - vm_compute. discriminate.
  - reflexivity.
Defined.

(** ** Leaving the raw pipeline with every payload held *)

Lemma adds_ret {A} (a : A) (Q : A -> Prop) : Q a -> adds (mret a) [] Q.
Proof. intros Ha w. exists w, a. by rewrite app_nil_r. Qed.

Lemma adds_bind {A B} (m : M A) (k : A -> M B) e1 e2 Q Q' :
  adds m e1 Q -> (forall a, Q a -> adds (k a) e2 Q') -> adds (m ≫= k) (e1 ++ e2) Q'.
Proof.
  intros Hm Hk w. destruct (Hm w) as (w1 & a & E1 & Hlog1 & Ha).
  destruct (Hk a Ha w1) as (w2 & b & E2 & Hlog2 & Hb).
  exists w2, b. rewrite (bind_ok _ _ _ _ _ E1). split; [done |]. split; [| done].
  by rewrite Hlog2, Hlog1, app_assoc.
Qed.

Lemma adds_emit e : adds (emit e) [e] (fun _ => True).
Proof. intros w. by eexists _, tt. Qed.

Lemma adds_forM {A B} (xs : list A) (f : A -> M B) (ev : A -> list Event) :
  (forall x, x ∈ xs -> adds (f x) (ev x) (fun _ => True)) ->
  adds (forM xs f) (concat (ev <$> xs)) (fun _ => True).
Proof.
  induction xs as [| x xs IH]; intros Hf; simpl.
  - by apply adds_ret.
  - eapply adds_bind; [apply Hf, list_elem_of_here |]. intros y _.
    rewrite <- (app_nil_r (concat _)).
    eapply adds_bind; [apply IH; intros z Hz; apply Hf; by apply list_elem_of_further |].
    intros ys _. by apply adds_ret.
Qed.

Lemma slice_min {A} (l : list A) i size :
  slice l i (Nat.min (i + size) (length l)) = slice l i (i + size).
Proof.
  unfold slice. destruct (decide (i + size <= length l)%nat).
  - by rewrite Nat.min_l.
  - rewrite Nat.min_r by lia. replace (i + size - i)%nat with size by lia.
    rewrite !take_ge; [done | |]; rewrite length_drop; lia.
Qed.

Lemma imap_ignore {A B} (g : A -> B) (l : list A) : imap (fun _ x => g x) l = g <$> l.
Proof. apply (imap_const g). Qed.

Section LeavingRaw.

Context (p : Platform) (config : ExportConfig) (frameCount : nat).
Context (allFrames : list FrameData).

Hypothesis platform_healthy : healthy p config.
Hypothesis writes_accepted : forall f data, ffmpeg_writeFile p f data = true.
Hypothesis batch_size : (0 < writeBatchSize config)%nat.
Hypothesis full_payloads :
  Forall (fun f => len (frameData f) = framePixelCount p config) allFrames.

Lemma adds_fallback_frame f :
  f ∈ allFrames ->
  adds (pngData ← convertRGBAToPNG p (frameData f)
                    (exportWidth p config) (exportHeight p config) 85;
        ffWrite p (FramePng (Z.of_nat (frameIndex f) + 1)) pngData)
       [FFWrite (FramePng (Z.of_nat (frameIndex f) + 1)) (fallbackPng p config f)]
       (fun _ => True).
Proof.
  intros Hin. rewrite Forall_forall in full_payloads.
  specialize (full_payloads f Hin). simpl in full_payloads.
  destruct (healthy_export p config platform_healthy) as [Hew Heh].
  assert (Hne : len (frameData f) <> 0) by (unfold framePixelCount in *; nia).
  change [FFWrite ?x ?y] with ([] ++ [FFWrite x y]).
  eapply (adds_bind _ _ _ _ (fun png => png = fallbackPng p config f)).
  - intros w.
    unfold convertRGBAToPNG, getTempCanvas, releaseTempCanvas, emit,
      call, call_val, when, modify, get, mbind, M_bind, mret, M_ret, throw.
    replace (len (frameData f) =? 0) with false by lia.
    replace (len (frameData f) =? _) with true
      by (unfold framePixelCount in *; lia).
    unfold fallbackPng.
    rewrite (healthy_image p config platform_healthy).
    destruct (healthy_blob p config platform_healthy (frameData f)
                (exportWidth p config) (exportHeight p config) 85) as [blob ->].
    simpl.
    destruct (list_find _ (tempCanvasPool w)) as [[i c] |]; simpl;
      repeat case_bool_decide; simpl;
      eexists _, _; (split; [reflexivity |]); simpl; by rewrite app_nil_r.
  - intros png ->. intros w. unfold ffWrite. rewrite writes_accepted.
    eexists _, tt. split; [reflexivity |]. done.
Qed.

Lemma adds_writeRawAsPng :
  adds (writeRawAsPng p config allFrames)
       ((fun f => FFWrite (FramePng (Z.of_nat (frameIndex f) + 1)) (fallbackPng p config f))
        <$> allFrames)
       (fun _ => True).
Proof.
  unfold writeRawAsPng.
  rewrite <- (app_nil_r (_ <$> _)).
  eapply adds_bind; [| intros ? _; by apply adds_ret].
  replace ((fun f => FFWrite (FramePng (Z.of_nat (frameIndex f) + 1)) (fallbackPng p config f))
           <$> allFrames)
    with (concat (imap (fun _ f =>
            [FFWrite (FramePng (Z.of_nat (frameIndex f) + 1)) (fallbackPng p config f)])
            allFrames)).
  2:{ rewrite concat_imap_singleton. by rewrite imap_ignore. }
  rewrite <- (concat_batches _ allFrames (writeBatchSize config) batch_size).
  apply adds_forM. intros i _. rewrite slice_min.
  replace (concat (imap _ (slice allFrames i (i + writeBatchSize config))))
    with (concat ((fun f =>
            [FFWrite (FramePng (Z.of_nat (frameIndex f) + 1)) (fallbackPng p config f)])
            <$> slice allFrames i (i + writeBatchSize config)))
    by (by rewrite <- imap_ignore).
  apply adds_forM. intros f Hf. apply adds_fallback_frame.
  by eapply slice_subseteq.
Qed.

End LeavingRaw.

(** X21. Leaving the raw pipeline with every payload held: when the frames
    are raw, each payload has exactly exportWidth * exportHeight * 4 bytes,
    the canvas calls work and FFmpeg accepts every write, a write stage
    that finds the video too large, or cannot allocate the raw buffer,
    says so on the console (a warning in the first case, the error in the
    second), and then does nothing but write the frames: up to their order,
    the writes are one per frame, of its conversion to PNG as
    [frame<frameIndex+1>.png].  The stage reports that the raw pipeline is
    not in use. *)
Theorem leaving_raw_writes_every_frame p config frameCount allFrames w :
  healthy p config ->
  (forall f data, ffmpeg_writeFile p f data = true) ->
  (0 < writeBatchSize config)%nat ->
  (exists f rest, allFrames = f :: rest /\ isRawPixels f = true) ->
  Forall (fun f => len (frameData f) = framePixelCount p config) allFrames ->
  largeVideo (framePixelCount p config) frameCount = true
  \/ alloc p (framePixelCount p config * Z.of_nat frameCount) = false ->
  exists w' writes,
    writeStage p config frameCount allFrames w = (w', inr false)
    /\ log w'
       = log w
         ++ (if largeVideo (framePixelCount p config) frameCount
             then ConsoleWarn LargeVideoDetected else ConsoleError RangeError)
         :: writes
    /\ writes ≡ₚ (fun f => FFWrite (FramePng (Z.of_nat (frameIndex f) + 1))
                                   (fallbackPng p config f)) <$> allFrames.
Proof.
  intros Hp Hwrites Hsize (f0 & rest & -> & Hraw) Hfull Hleave.
  pose proof (adds_writeRawAsPng p config (f0 :: rest) Hp Hwrites Hsize Hfull) as Hpng.
  unfold writeStage. cbv zeta. rewrite Hraw.
  destruct (largeVideo _ _).
  - rewrite (bind_ok _ _ _ _ _ eq_refl).
    destruct (Hpng (with_log (fun l => l ++ [ConsoleWarn LargeVideoDetected]) w))
      as (w1 & [] & E & Hlog & _).
    rewrite (bind_ok _ _ _ _ _ E). eexists w1, _. split; [done |].
    split; [| reflexivity].
    rewrite Hlog. cbn [log with_log]. by rewrite <- app_assoc.
  - destruct Hleave as [| Halloc]; [done |].
    unfold try_catch.
    assert (Hcat : concatRaw p config frameCount (f0 :: rest) w = (w, inl RangeError)).
    { unfold concatRaw. by rewrite Halloc. }
    rewrite (bind_fail _ _ _ _ _ Hcat).
    rewrite (bind_ok _ _ _ _ _ eq_refl).
    destruct (Hpng (with_log (fun l => l ++ [ConsoleError RangeError]) w))
      as (w1 & [] & E & Hlog & _).
    rewrite (bind_ok _ _ _ _ _ E). eexists w1, _. split; [done |].
    split; [| reflexivity].
    rewrite Hlog. cbn [log with_log]. by rewrite <- app_assoc.
Qed.

Lemma smallMemoryPlatform_healthy q : healthy smallMemoryPlatform (exportConfig q).
Proof.
  split; simpl; try done; try (intros; eexists; done).
  destruct q; vm_compute; done.
Qed.

Lemma leaving_raw_writes_every_frame_witness :
  exists w' writes,
    writeStage smallMemoryPlatform (exportConfig Balanced) 16 sixteenFrames idleWorld
    = (w', inr false)
    /\ log w'
       = log idleWorld
         ++ (if largeVideo (framePixelCount smallMemoryPlatform (exportConfig Balanced)) 16
             then ConsoleWarn LargeVideoDetected else ConsoleError RangeError)
         :: writes
    /\ writes ≡ₚ (fun f => FFWrite (FramePng (Z.of_nat (frameIndex f) + 1))
                                   (fallbackPng smallMemoryPlatform
                                      (exportConfig Balanced) f))
                 <$> sixteenFrames.
Proof.
  apply (leaving_raw_writes_every_frame smallMemoryPlatform (exportConfig Balanced) 16
           sixteenFrames idleWorld).
  - apply smallMemoryPlatform_healthy.
  - reflexivity.
  - simpl. lia.
  - by eexists _, _.
  - repeat constructor.
  - right. reflexivity.
Defined.

(** * The memory policy of the write stage *)

Lemma no_large_warning_unless_large p config frameCount allFrames :
  largeVideo (framePixelCount p config) frameCount = false ->
  stable (logs not_large_warning) (writeStage p config frameCount allFrames).
Proof.
  intros Hsmall. unfold writeStage. cbv zeta. rewrite Hsmall.
  destruct (match allFrames with f :: _ => isRawPixels f | [] => false end);
    autounfold with pipeline; stable_steps logs_base.
Qed.

(** Within the limit the raw pipeline is kept: when the buffer can be
    allocated and the frames fit, the stage writes it. *)
Lemma writeStage_keeps_raw p config frameCount allFrames w :
  (exists f rest, allFrames = f :: rest /\ isRawPixels f = true) ->
  largeVideo (framePixelCount p config) frameCount = false ->
  (0 < frameCount)%nat -> 0 <= framePixelCount p config ->
  frameIndex <$> allFrames = seq 0 frameCount ->
  Forall (fun f => frameData f = []
                   \/ len (frameData f) = framePixelCount p config) allFrames ->
  alloc p (framePixelCount p config * Z.of_nat frameCount) = true ->
  ffmpeg_writeFile p RawVideo
    (concat (rawSlot (framePixelCount p config) <$> allFrames)) = true ->
  writeStage p config frameCount allFrames w
  = (with_log
       (fun l => l ++ [FFWrite RawVideo
                         (concat (rawSlot (framePixelCount p config) <$> allFrames))]) w,
     inr true).
Proof.
  intros (f0 & rest & -> & Hraw) Hnot Hn Hfpc Hidx Hframes Halloc Hwrite.
  pose proof (concatRaw_slots p config frameCount (f0 :: rest) Hfpc Hidx Hframes
                w Hn Halloc) as Hcat.
  unfold writeStage. cbv zeta. rewrite Hraw, Hnot.
  unfold try_catch. rewrite (bind_ok _ _ _ _ _ Hcat).
  unfold ffWrite, emit, modify, mbind, M_bind. cbn [call].
  rewrite Hwrite. done.
Qed.



Lemma eightSecondFrames_indices : frameIndex <$> eightSecondFrames = seq 0 192.
Proof.
  unfold eightSecondFrames. rewrite <- list_fmap_compose.
  rewrite <- (list_fmap_id (seq 0 192)) at 2. by apply list_fmap_ext.
Qed.

